(** * AI-Helpdesk: chunking and vector store

    A shallow embedding of [ai_helpdesk/utils/chunking.py],
    [ai_helpdesk/models.py] and [ai_helpdesk/storage/vector_store.py],
    followed by the properties of the chunker, of chunk identifiers, of
    persistence and of cosine-similarity retrieval.

    Python [str] is [string], Python [int] is [Z], a Python [dict] with
    string keys is a [gmap string _], a [float32] is a [spec_float] at
    precision 24 and maximal exponent 128. *)

From Stdlib Require Import ZArith String Ascii List Lia Floats.SpecFloat.
From stdpp Require Import gmap strings list sorting.

(** ** Python built-ins used by the sources *)

Module Py.

(** [len(s)] *)
Definition len (s : string) : Z := Z.of_nat (String.length s).

(** Normalisation of a slice bound against a sequence of length [n]:
    a negative bound counts from the end, and every bound is clamped to
    [0..n]. *)
Definition clamp (n i : Z) : Z :=
  if (i <? 0)%Z then Z.max 0 (i + n) else Z.min i n.

(** [l[lo:hi]] on a list. *)
Definition slice {A} (l : list A) (lo hi : Z) : list A :=
  let n := Z.of_nat (length l) in
  let lo' := clamp n lo in
  let hi' := clamp n hi in
  take (Z.to_nat (hi' - lo')) (drop (Z.to_nat lo') l).

(** [s[lo:hi]] on a string. *)
Definition str_slice (s : string) (lo hi : Z) : string :=
  string_of_list_ascii (slice (list_ascii_of_string s) lo hi).

(** [l[:hi]] *)
Definition slice_to {A} (l : list A) (hi : Z) : list A := slice l 0 hi.

(** The decimal digit [d] (0..9) as a character. *)
Definition digit_char (d : Z) : ascii :=
  ascii_of_nat (48 + Z.to_nat d).

(** Decimal digits of a non-negative integer, least significant first. *)
Fixpoint digits_le (fuel : nat) (n : Z) : list Z :=
  match fuel with
  | O => []
  | S fuel' =>
      (n mod 10)%Z :: (if (n <? 10)%Z then [] else digits_le fuel' (n / 10)%Z)
  end.

(** A number of digits that is always enough for [n]: one more than its
    binary logarithm. *)
Definition digit_budget (n : Z) : nat := S (Z.to_nat (Z.log2 n)).

Definition digits (n : Z) : string :=
  string_of_list_ascii (map digit_char (reverse (digits_le (digit_budget n) n))).

(** [str(n)] for an integer. *)
Definition str (n : Z) : string :=
  if (n <? 0)%Z then String "-" (digits (- n)) else digits n.

Definition zeros (k : nat) : string := string_of_list_ascii (replicate k "0"%char).

(** [s.zfill(width)]: pad with zeros on the left up to [width]; a leading
    sign stays in front of the padding. *)
Definition zfill (s : string) (width : nat) : string :=
  if (width <=? String.length s)%nat then s
  else
    let pad := zeros (width - String.length s) in
    match s with
    | String c rest =>
        if (Ascii.eqb c "+" || Ascii.eqb c "-")%bool
        then String c (pad +:+ rest)
        else pad +:+ s
    | EmptyString => pad
    end.

(** [math.ceil(math.log10(m))] for an integer [m >= 1]: the least [k] with
    [m <= 10^k].  The source goes through a double; the model is the exact
    value, which the double computation yields for every list length a
    machine can hold. *)
Fixpoint ceil_log10_from (fuel : nat) (m pow : Z) (k : nat) : nat :=
  match fuel with
  | O => k
  | S fuel' => if (m <=? pow)%Z then k else ceil_log10_from fuel' m (10 * pow)%Z (S k)
  end.

Definition ceil_log10 (m : Z) : nat := ceil_log10_from (digit_budget m) m 1 0.

(** [enumerate(l, start)] *)
Fixpoint enumerate {A} (start : Z) (l : list A) : list (Z * A) :=
  match l with
  | [] => []
  | x :: l' => (start, x) :: enumerate (start + 1)%Z l'
  end.

End Py.

(** ** [ai_helpdesk/utils/chunking.py] *)

Module chunking.

(** The optional tokenizer ([tiktoken]): [encode] and [decode] return
    [None] when they raise. *)
Record Encoding := {
  encode : string -> option (list Z);
  decode : list Z -> option string
}.

Definition DEFAULT_CHUNK_SIZE : Z := 500.
Definition DEFAULT_CHUNK_OVERLAP : Z := 100.

(** Outcome of running a loop under an iteration budget. *)
Inductive run (A : Type) :=
| Done (a : A)
| Raised
| OutOfFuel.
Arguments Done {A} a.
Arguments Raised {A}.
Arguments OutOfFuel {A}.

(** The [while start < len(tokens)] loop of [_split_by_tokens]. *)
Fixpoint split_tokens_loop (fuel : nat) (enc : Encoding) (tokens : list Z)
    (chunk_size chunk_overlap start : Z) (chunks : list string) : run (list string) :=
  if (start <? Z.of_nat (length tokens))%Z then
    match fuel with
    | O => OutOfFuel
    | S fuel' =>
        let end_ := Z.min (Z.of_nat (length tokens)) (start + chunk_size) in
        let chunk_tokens := Py.slice tokens start end_ in
        match decode enc chunk_tokens with
        | None => Raised
        | Some piece =>
            split_tokens_loop fuel' enc tokens chunk_size chunk_overlap
              (start + Z.max 1 (chunk_size - chunk_overlap))%Z (chunks ++ [piece])
        end
    end
  else Done chunks.

Definition _split_by_tokens (enc : Encoding) (text : string)
    (chunk_size chunk_overlap : Z) : run (list string) :=
  match encode enc text with
  | None => Raised
  | Some tokens =>
      split_tokens_loop (length tokens) enc tokens chunk_size chunk_overlap 0 []
  end.

(** The [while start < len(text)] loop of [_split_by_chars]; [None] means
    that the iteration budget ran out before the loop condition failed. *)
Fixpoint split_chars_loop (fuel : nat) (text : string)
    (chunk_size step start : Z) (chunks : list string) : option (list string) :=
  if (start <? Py.len text)%Z then
    match fuel with
    | O => None
    | S fuel' =>
        let end_ := Z.min (Py.len text) (start + chunk_size) in
        split_chars_loop fuel' text chunk_size step (start + step)%Z
          (chunks ++ [Py.str_slice text start end_])
    end
  else Some chunks.

(** [_split_by_chars] under an explicit iteration budget. *)
Definition split_by_chars_within (fuel : nat) (text : string)
    (chunk_size chunk_overlap : Z) : option (list string) :=
  let step := Z.max 1 (chunk_size - chunk_overlap) in
  split_chars_loop fuel text chunk_size step 0 [].

(** [_split_by_chars]: one iteration per character is always enough, as
    is proved below. *)
Definition _split_by_chars (text : string) (chunk_size chunk_overlap : Z) : list string :=
  default [] (split_by_chars_within (String.length text) text chunk_size chunk_overlap).

(** [chunk_text]; [tiktoken] is [None] when the import failed.  Any
    failure of the token strategy falls back to characters. *)
Definition chunk_text (tiktoken : option Encoding) (text : string)
    (chunk_size chunk_overlap : Z) : list string :=
  if String.eqb text "" then []
  else
    match tiktoken with
    | Some enc =>
        match _split_by_tokens enc text chunk_size chunk_overlap with
        | Done chunks => chunks
        | _ => _split_by_chars text chunk_size chunk_overlap
        end
    | None => _split_by_chars text chunk_size chunk_overlap
    end.

(** [enumerate_chunks] *)
Definition enumerate_chunks (chunks : list string) (prefix : string) : list string :=
  let chunk_list := chunks in
  let total_digits :=
    match chunk_list with
    | [] => 4%nat
    | _ => Nat.max 4 (Py.ceil_log10 (Z.of_nat (length chunk_list) + 1))
    end in
  map (fun '(idx, _) => prefix +:+ "-" +:+ Py.zfill (Py.str idx) total_digits)
      (Py.enumerate 1 chunk_list).

End chunking.


(** ** [ai_helpdesk/models.py] *)

Module models.

(** Values of the open [metadata] mapping: the scalars that the ingestion
    code stores and that JSON carries unchanged. *)
Inductive pyval :=
| PNone
| PBool (b : bool)
| PInt (n : Z)
| PStr (s : string).

(** Truth value of an object in an [if]. *)
Definition truthy (v : pyval) : bool :=
  match v with
  | PNone => false
  | PBool b => b
  | PInt n => negb (n =? 0)%Z
  | PStr s => negb (String.eqb s "")
  end.

(** [f"{v}"] *)
Definition format (v : pyval) : string :=
  match v with
  | PNone => "None"
  | PBool true => "True"
  | PBool false => "False"
  | PInt n => Py.str n
  | PStr s => s
  end.

(** [d.get(key)]: [None] when the key is absent. *)
Definition dict_get (d : gmap string pyval) (key : string) : pyval :=
  default PNone (d !! key).

Module Document.
Record t := mk {
  id : string;
  source : string;
  content : string;
  metadata : gmap string pyval
}.
End Document.

Module DocumentChunk.
Record t := mk {
  id : string;
  document_id : string;
  source : string;
  content : string;
  metadata : gmap string pyval
}.
End DocumentChunk.

Module SearchResult.
(** [score] keeps the [float32] similarity; [float(...)] converts it to a
    double without changing its value. *)
Record t := mk {
  chunk : DocumentChunk.t;
  score : spec_float
}.

(** The [citation] property. *)
Definition citation (self : t) : option pyval :=
  let title := dict_get (DocumentChunk.metadata (chunk self)) "title" in
  if truthy title then Some (PStr (format title))
  else
    let path := dict_get (DocumentChunk.metadata (chunk self)) "path" in
    if truthy path then Some path
    else None.
End SearchResult.

End models.

(** ** The NumPy operations used by the store, on [float32] *)

Module np.

Abbreviation float32 := spec_float.
Definition prec : Z := 24.
Definition emax : Z := 128.

Definition add : float32 -> float32 -> float32 := SFadd prec emax.
Definition mul : float32 -> float32 -> float32 := SFmul prec emax.
Definition div : float32 -> float32 -> float32 := SFdiv prec emax.
Definition sqrt : float32 -> float32 := SFsqrt prec emax.
Definition zero : float32 := S754_zero false.
Definition one : float32 := S754_finite false 8388608 (-23).
Definition minus_one : float32 := S754_finite true 8388608 (-23).

(** The literal [1e-10] rounded to [float32], 14411519 * 2^-57: added to a
    [float32] array or scalar, a Python float takes their type (the
    promotion rules of NumPy 2). *)
Definition eps : float32 := S754_finite false 14411519 (-57).

(** The order NumPy sorts floating-point numbers by: the usual [<], with
    NaN after every number. *)
Definition less (a b : float32) : bool :=
  SFltb a b || (negb (SFeqb b b) && SFeqb a a).

(** A two-dimensional array of shape [(length rows, ncols)]. *)
Record matrix := {
  ncols : nat;
  rows : list (list float32)
}.

Definition well_shaped (m : matrix) : Prop :=
  Forall (fun r => length r = ncols m) (rows m).

(** What [np.asarray(..., dtype=np.float32)] can produce, by number of
    dimensions. *)
Inductive ndarray :=
| Nd0 (x : float32)
| Nd1 (v : list float32)
| Nd2 (m : matrix)
| NdHigh (extra : nat).

Definition ndim (a : ndarray) : nat :=
  match a with
  | Nd0 _ => 0
  | Nd1 _ => 1
  | Nd2 _ => 2
  | NdHigh extra => 3 + extra
  end.

(** [np.vstack([a, b])] for two matrices of the same width. *)
Definition vstack (a b : matrix) : matrix :=
  {| ncols := ncols a; rows := rows a ++ rows b |}.

(** Inner product and Euclidean norm, accumulated from left to right (the
    order in which a library sums is its own; no statement below depends
    on it beyond the evaluated examples, whose sums are exact). *)
Definition dot (u v : list float32) : float32 :=
  fold_left (fun acc xy => add acc (mul xy.1 xy.2)) (zip u v) zero.

Definition norm (v : list float32) : float32 :=
  sqrt (fold_left (fun acc x => add acc (mul x x)) v zero).

(** Insertion of [x] into a list sorted by key: after every element that
    is not greater. *)
Fixpoint insert_by {K} (ltb : K -> K -> bool) (x : nat * K) (l : list (nat * K)) : list (nat * K) :=
  match l with
  | [] => [x]
  | y :: l' => if ltb x.2 y.2 then x :: y :: l' else y :: insert_by ltb x l'
  end.

Definition isort {K} (ltb : K -> K -> bool) (l : list (nat * K)) : list (nat * K) :=
  fold_left (fun acc x => insert_by ltb x acc) l [].

(** [v.argsort()]: the indices of [v] in ascending order of value.
    NumPy's default sort promises no order among equal values; this is the
    sort that keeps them in index order, one of the orders NumPy can give.
    What is said of tied results below is said for every sort
    ([search_by]). *)
Definition argsort (v : list float32) : list nat :=
  (isort less (zip (seq 0 (length v)) v)).*1.

End np.

(** ** [ai_helpdesk/storage/vector_store.py] *)

Module vector_store.
Import models.

Inductive exn :=
| ValueError (msg : string)
| IndexError (msg : string)
| ProviderError (msg : string).

(** An embedding provider; [embed] already includes the conversion
    [np.asarray(..., dtype=np.float32)] of what the provider returns, and
    is [inl] when the provider raises. *)
Record EmbeddingBackend := {
  model_name : string;
  embed : list string -> exn + np.ndarray
}.

(** The attributes of a store instance.  [_embeddings] is two-dimensional:
    [add_documents] stores nothing else, and [_save] writes what it
    stores. *)
Record VectorStore := {
  _chunks : list DocumentChunk.t;
  _embeddings : option np.matrix;
  _embedding_model : option string
}.

(** Content of [metadata.json] as [json.load] returns it. *)
Record payload := {
  payload_chunks : option (list DocumentChunk.t);
  payload_embedding_model : option string
}.

(** The storage directory: the two artifacts, each present or not. *)
Record directory := {
  metadata_json : option payload;
  vectors_npy : option np.matrix
}.

(** Methods run on an instance and its directory; an exception leaves
    both as they were when it was raised. *)
Definition M (A : Type) : Type :=
  VectorStore * directory -> (exn + A) * (VectorStore * directory).

Definition ret {A} (a : A) : M A := fun w => (inr a, w).
Definition raise {A} (e : exn) : M A := fun w => (inl e, w).
Definition bind {A B} (m : M A) (k : A -> M B) : M B :=
  fun w => match m w with
           | (inl e, w') => (inl e, w')
           | (inr a, w') => k a w'
           end.
Definition get_self : M VectorStore := fun w => (inr w.1, w).
Definition put_self (s : VectorStore) : M unit := fun w => (inr tt, (s, w.2)).
Definition write_files (f : directory -> directory) : M unit :=
  fun w => (inr tt, (w.1, f w.2)).
Definition lift {A} (r : exn + A) : M A :=
  match r with inl e => raise e | inr a => ret a end.

Notation "x <- m ;; k" := (bind m (fun x => k))
  (at level 100, m at next level, right associativity).
Notation "m ;;; k" := (bind m (fun _ => k))
  (at level 100, right associativity).

(** [_load] *)
Definition _load (self : VectorStore) (d : directory) : VectorStore :=
  match metadata_json d, vectors_npy d with
  | Some meta, Some vectors =>
      {| _chunks := default [] (payload_chunks meta);
         _embedding_model := payload_embedding_model meta;
         _embeddings := Some vectors |}
  | _, _ => self
  end.

(** [__init__]: an empty instance, then [_load].  No statement of the
    constructor raises on well-formed artifacts. *)
Definition __init__ (d : directory) : exn + VectorStore :=
  let self := {| _chunks := []; _embeddings := None; _embedding_model := None |} in
  inr (_load self d).

(** [_save], on a directory that can be written and values that JSON
    carries: both writes succeed. *)
Definition _save : M unit :=
  self <- get_self ;;
  let payload := {| payload_chunks := Some (_chunks self);
                    payload_embedding_model := _embedding_model self |} in
  write_files (fun d => {| metadata_json := Some payload; vectors_npy := vectors_npy d |}) ;;;
  match _embeddings self with
  | Some e => write_files (fun d => {| metadata_json := metadata_json d; vectors_npy := Some e |})
  | None => ret tt
  end.

(** The chunks of one document, appended to [new_chunks] and
    [chunk_texts] (the body of the [for document in documents] loop). *)
Definition add_document (tiktoken : option chunking.Encoding) (chunk_size chunk_overlap : Z)
    (acc : list DocumentChunk.t * list string) (document : Document.t)
    : list DocumentChunk.t * list string :=
  let chunks := chunking.chunk_text tiktoken (Document.content document) chunk_size chunk_overlap in
  let chunk_ids := chunking.enumerate_chunks chunks (Document.id document) in
  fold_left
    (fun acc '(chunk_id, chunk_content) =>
       (acc.1 ++ [DocumentChunk.mk chunk_id (Document.id document) (Document.source document)
                    chunk_content (Document.metadata document)],
        acc.2 ++ [chunk_content]))
    (zip chunk_ids chunks) acc.

(** [add_documents] *)
Definition add_documents (tiktoken : option chunking.Encoding)
    (documents : list Document.t) (embedder : EmbeddingBackend)
    (chunk_size chunk_overlap : Z) : M unit :=
  let '(new_chunks, chunk_texts) :=
    fold_left (add_document tiktoken chunk_size chunk_overlap) documents ([], []) in
  match new_chunks with
  | [] => ret tt
  | _ =>
      embeddings <- lift (embed embedder chunk_texts) ;;
      match embeddings with
      | np.Nd2 embeddings =>
          self <- get_self ;;
          match _embeddings self with
          | None =>
              put_self {| _embeddings := Some embeddings;
                          _chunks := new_chunks;
                          _embedding_model := _embedding_model self |}
          | Some old =>
              if negb (np.ncols embeddings =? np.ncols old)%nat
              then raise (ValueError "Embedding dimension mismatch")
              else put_self {| _embeddings := Some (np.vstack old embeddings);
                               _chunks := _chunks self ++ new_chunks;
                               _embedding_model := _embedding_model self |}
          end ;;;
          self <- get_self ;;
          put_self {| _embeddings := _embeddings self;
                      _chunks := _chunks self;
                      _embedding_model := Some (model_name embedder) |} ;;;
          _save
      | _ => raise (ValueError "Embeddings must be a 2D array")
      end
  end.

(** The cosine similarities of [search]: one per stored row. *)
Definition similarities (doc_vectors : np.matrix) (query_vec : list np.float32) : list np.float32 :=
  let doc_norms := map (fun r => np.add (np.norm r) np.eps) (np.rows doc_vectors) in
  let query_norm := np.add (np.norm query_vec) np.eps in
  zip_with np.div
    (map (fun r => np.dot r query_vec) (np.rows doc_vectors))
    (map (fun n => np.mul n query_norm) doc_norms).

(** [similarities.argsort()[::-1][:top_k]] *)
Definition top_indices (sims : list np.float32) (top_k : Z) : list nat :=
  Py.slice_to (reverse (np.argsort sims)) top_k.

(** The list comprehension of [search]: one result per index, in order;
    indexing [_chunks] out of range raises. *)
Fixpoint results_of (chunks : list DocumentChunk.t) (sims : list np.float32)
    (indices : list nat) : exn + list SearchResult.t :=
  match indices with
  | [] => inr []
  | idx :: rest =>
      match chunks !! idx, sims !! idx with
      | Some c, Some s =>
          match results_of chunks sims rest with
          | inr rs => inr (SearchResult.mk c s :: rs)
          | inl e => inl e
          end
      | _, _ => inl (IndexError "list index out of range")
      end
  end.

(** [search]; it reads the instance and changes nothing. *)
Definition search (self : VectorStore) (query : string) (embedder : EmbeddingBackend)
    (top_k : Z) : exn + list SearchResult.t :=
  match _chunks self, _embeddings self with
  | [], _ | _, None => inr []
  | _ :: _, Some doc_vectors =>
      match embed embedder [query] with
      | inl e => inl e
      | inr (np.Nd2 query_vec) =>
          match np.rows query_vec with
          | [query_vec] =>
              if negb (np.ncols doc_vectors =? length query_vec)%nat
              then inl (ValueError "matmul: dimension mismatch")
              else
                let sims := similarities doc_vectors query_vec in
                results_of (_chunks self) sims (top_indices sims top_k)
          | _ => inl (ValueError "Query embedding must be a 2D array with a single row")
          end
      | inr _ => inl (ValueError "Query embedding must be a 2D array with a single row")
      end
  end.


(** [chunk_count] and [embedding_dimension] *)
Definition chunk_count (self : VectorStore) : nat := length (_chunks self).

Definition embedding_dimension (self : VectorStore) : option nat :=
  np.ncols <$> _embeddings self.

End vector_store.


(** ** Vocabulary of the statements *)

Module spec.
Import models vector_store.

(** Number of windows of the character strategy: [ceil(len / step)]. *)
Definition window_count (text : string) (step : Z) : nat :=
  Z.to_nat ((Py.len text + step - 1) / step).

(** Span of the [k]-th window: where it starts and where it ends. *)
Definition span_start (step : Z) (k : nat) : Z := Z.of_nat k * step.

Definition span_end (text : string) (chunk_size step : Z) (k : nat) : Z :=
  Z.min (Py.len text) (span_start step k + chunk_size).

(** Iterations left when the loop is at [start]. *)
Definition remaining (text : string) (step start : Z) : nat :=
  Z.to_nat ((Py.len text - start + step - 1) / step).

(** The window that the loop appends when it is [j] steps after [start]. *)
Definition window_at (text : string) (chunk_size step start : Z) (j : nat) : string :=
  let a := (start + Z.of_nat j * step)%Z in
  Py.str_slice text a (Z.min (Py.len text) (a + chunk_size)).

(** Powers of ten, and the value of a digit list written most or least
    significant digit first. *)
Fixpoint pow10 (k : nat) : Z :=
  match k with
  | O => 1%Z
  | S k' => (10 * pow10 k')%Z
  end.

Fixpoint value_le (ds : list Z) : Z :=
  match ds with
  | [] => 0%Z
  | d :: ds' => (d + 10 * value_le ds')%Z
  end.

Fixpoint value_be (ds : list Z) : Z :=
  match ds with
  | [] => 0%Z
  | d :: ds' => (d * pow10 (length ds') + value_be ds')%Z
  end.

Definition is_digit (d : Z) : Prop := (0 <= d < 10)%Z.

(** The text of a digit list. *)
Definition numeral (ds : list Z) : string :=
  string_of_list_ascii (map Py.digit_char ds).

(** The digits of [n] written most significant first. *)
Definition digits_be (n : Z) : list Z := reverse (Py.digits_le (Py.digit_budget n) n).

(** The cosine similarity of one stored row and the query, as the
    formula gives it. *)
Definition cosine (row query : list np.float32) : np.float32 :=
  np.div (np.dot row query)
         (np.mul (np.add (np.norm row) np.eps) (np.add (np.norm query) np.eps)).

Definition is_nan (x : np.float32) : bool :=
  match x with
  | S754_nan => true
  | _ => false
  end.

(** Position of a [float32] in NumPy's sorting order, as a triple compared
    lexicographically: class, then exponent, then mantissa. *)
Definition rank (x : np.float32) : Z * Z * Z :=
  match x with
  | S754_nan => (3, 0, 0)%Z
  | S754_infinity false => (2, 0, 0)%Z
  | S754_infinity true => (-2, 0, 0)%Z
  | S754_zero _ => (0, 0, 0)%Z
  | S754_finite false m e => (1, e, Z.pos m)%Z
  | S754_finite true m e => (-1, - e, - Z.pos m)%Z
  end.

Definition lex_lt (a b : Z * Z * Z) : Prop :=
  (a.1.1 < b.1.1 \/
   (a.1.1 = b.1.1 /\ (a.1.2 < b.1.2 \/ (a.1.2 = b.1.2 /\ a.2 < b.2))))%Z.

(** Number of entries that [l[:top_k]] keeps of a list of length [n]. *)
Definition kept (n : nat) (top_k : Z) : nat := Z.to_nat (Py.clamp (Z.of_nat n) top_k).

(** The row stored at [idx], if any. *)
Definition stored_row (self : VectorStore) (idx : nat) : option (list np.float32) :=
  match _embeddings self with
  | Some doc_vectors => np.rows doc_vectors !! idx
  | None => None
  end.

(** A search result [r] is the chunk stored at [idx] with the cosine
    similarity of the row stored at [idx]. *)
Definition result_at (self : VectorStore) (query_vec : list np.float32)
    (idx : nat) (r : SearchResult.t) : Prop :=
  exists row,
    _chunks self !! idx = Some (SearchResult.chunk r) /\
    stored_row self idx = Some row /\
    SearchResult.score r = cosine row query_vec.

(** What the claims assume of a store and a query: index-aligned rows and
    chunks, and a provider that embeds the query as the single row
    [query_vec] of the stored width. *)
Definition aligned (self : VectorStore) (doc_vectors : np.matrix) : Prop :=
  _embeddings self = Some doc_vectors /\
  length (_chunks self) = length (np.rows doc_vectors).

Definition embeds_as (embedder : EmbeddingBackend) (query : string)
    (doc_vectors : np.matrix) (query_vec : list np.float32) : Prop :=
  exists m, embed embedder [query] = inr (np.Nd2 m) /\
            np.rows m = [query_vec] /\
            length query_vec = np.ncols doc_vectors.

(** The new chunks and their texts that [add_documents] collects before it
    calls the provider. *)
Definition batch (tiktoken : option chunking.Encoding) (documents : list Document.t)
    (chunk_size chunk_overlap : Z) : list DocumentChunk.t * list string :=
  fold_left (add_document tiktoken chunk_size chunk_overlap) documents ([], []).

(** The stores that can exist: an instance opened on a directory, then
    any number of [add_documents] calls on it, whatever their outcome. *)
Inductive reachable : VectorStore * directory -> Prop :=
| reachable_open (d : directory) (self : VectorStore) :
    __init__ d = inr self -> reachable (self, d)
| reachable_add (w : VectorStore * directory) (tiktoken : option chunking.Encoding)
    (documents : list Document.t) (embedder : EmbeddingBackend)
    (chunk_size chunk_overlap : Z) :
    reachable w ->
    reachable (add_documents tiktoken documents embedder chunk_size chunk_overlap w).2.

(** Reopening the directory gives back the instance. *)
Definition in_sync (w : VectorStore * directory) : Prop := __init__ w.2 = inr w.1.

(** Order of two (index, key) pairs in the output of a stable ascending
    sort: by key, and by index among equal keys. *)
Definition stable_before {K} (ltb : K -> K -> bool) (x y : nat * K) : Prop :=
  ltb x.2 y.2 = true \/ (ltb y.2 x.2 = false /\ (x.1 < y.1)%nat).



End spec.

(** ** Concrete stores and queries *)

Module examples.
Import models vector_store.

Definition chunk_a := DocumentChunk.mk "doc-0001" "doc" "web" "alpha" ∅.
Definition chunk_b := DocumentChunk.mk "doc-0002" "doc" "web" "beta" ∅.
Definition chunk_c := DocumentChunk.mk "doc-0003" "doc" "web" "gamma" ∅.

(** Three stored unit vectors [1,0], [0,1], [-1,0]. *)
Definition unit_rows : np.matrix :=
  {| np.ncols := 2;
     np.rows := [[np.one; np.zero]; [np.zero; np.one]; [np.minus_one; np.zero]] |}.

Definition unit_store : VectorStore :=
  {| _chunks := [chunk_a; chunk_b; chunk_c];
     _embeddings := Some unit_rows;
     _embedding_model := Some "model" |}.

(** A provider whose embedding of every query is the single row [1,0]. *)
Definition unit_embedder : EmbeddingBackend :=
  {| model_name := "model";
     embed := fun _ => inr (np.Nd2 {| np.ncols := 2; np.rows := [[np.one; np.zero]] |}) |}.


(** A chunk whose metadata has an empty title and a path. *)
Definition untitled_chunk :=
  DocumentChunk.mk "notes-0001" "notes" "notion" "text"
    (<["title" := PStr ""]> (<["path" := PStr "export/notes.md"]> ∅)).

Definition untitled_result := SearchResult.mk untitled_chunk np.one.

(** A directory whose metadata artifact holds one chunk and whose vector
    artifact holds two rows. *)
Definition mismatched_directory : directory :=
  {| metadata_json := Some {| payload_chunks := Some [chunk_a];
                              payload_embedding_model := Some "model" |};
     vectors_npy := Some {| np.ncols := 2;
                            np.rows := [[np.one; np.zero]; [np.zero; np.one]] |} |}.

(** 2^67, whose square overflows [float32]; a store and a provider using
    it. *)
Definition huge : np.float32 := S754_finite false 8388608 44.

Definition overflow_store : VectorStore :=
  {| _chunks := [chunk_a; chunk_b];
     _embeddings := Some {| np.ncols := 1; np.rows := [[huge]; [np.one]] |};
     _embedding_model := Some "model" |}.

Definition huge_embedder : EmbeddingBackend :=
  {| model_name := "model";
     embed := fun _ => inr (np.Nd2 {| np.ncols := 1; np.rows := [[huge]] |}) |}.

Definition empty_directory : directory :=
  {| metadata_json := None; vectors_npy := None |}.

Definition hello_document : Document.t :=
  Document.mk "hello" "notion" "hello world" (<["path" := PStr "export/hello.md"]> ∅).

(** A provider that embeds every text as the row [1,0]. *)
Definition row_embedder : EmbeddingBackend :=
  {| model_name := "model";
     embed := fun texts =>
       inr (np.Nd2 {| np.ncols := 2; np.rows := map (fun _ => [np.one; np.zero]) texts |}) |}.

(** A provider that embeds every text as a row of width 3. *)
Definition wide_embedder : EmbeddingBackend :=
  {| model_name := "wide";
     embed := fun texts =>
       inr (np.Nd2 {| np.ncols := 3;
                      np.rows := map (fun _ => [np.one; np.zero; np.zero]) texts |}) |}.

End examples.

(** ** More Python string built-ins *)

Module PyStr.

(** [c.isspace()], each character read as a code point below 256: the
    ASCII controls 9-13 and 28-31, the space, NEL (133) and the
    no-break space (160). *)
Definition isspace (c : ascii) : bool :=
  let n := N_of_ascii c in
  ((9 <=? n) && (n <=? 13) || (28 <=? n) && (n <=? 32) || (n =? 133) || (n =? 160))%N.

(** [s.lstrip()], [s.rstrip()] and [s.strip()] *)
Fixpoint lstrip (s : string) : string :=
  match s with
  | String c rest => if isspace c then lstrip rest else s
  | EmptyString => EmptyString
  end.

Definition rstrip (s : string) : string := String.rev (lstrip (String.rev s)).

Definition strip (s : string) : string := rstrip (lstrip s).

(** [sep.join(l)] *)
Definition join (sep : string) (l : list string) : string := String.concat sep l.

(** [s.split()]: the maximal runs of characters that are not white space,
    in order; [word] is the run being read. *)
Fixpoint split_from (word : string) (s : string) : list string :=
  match s with
  | EmptyString => if String.eqb word "" then [] else [word]
  | String c rest =>
      if isspace c
      then (if String.eqb word "" then split_from "" rest else word :: split_from "" rest)
      else split_from (word +:+ String c "") rest
  end.

Definition split (s : string) : list string := split_from "" s.

(** [s.split(sep, 1)[0]] for a one-character [sep]: what comes before its
    first occurrence, all of [s] when there is none. *)
Fixpoint before (sep : ascii) (s : string) : string :=
  match s with
  | EmptyString => EmptyString
  | String c rest => if Ascii.eqb c sep then EmptyString else String c (before sep rest)
  end.

End PyStr.

(** ** [ai_helpdesk/chat/engine.py] *)

Module engine.
Import models vector_store.

Definition DEFAULT_SYSTEM_PROMPT : string :=
  "You are an AI helpdesk assistant. Answer questions using only the provided " +:+
  "context. Cite the titles or paths of the relevant documents in parentheses. " +:+
  "If the answer is not present in the context, say you do not know.".

Record ChatResponse := {
  answer : string;
  references : list SearchResult.t
}.

(** A chat message: role and content. *)
Record message := {
  role : string;
  content : string
}.

(** The generation provider; [generate] is [inl] when it raises. *)
Record ChatModel := {
  generate : list message -> exn + string
}.

(** A [ChatEngine] with its collaborators given (the constructor only
    stores them). *)
Record ChatEngine := {
  store : VectorStore;
  embedder : EmbeddingBackend;
  chat_model : ChatModel;
  system_prompt : string
}.

(** [result.citation or result.chunk.id] *)
Definition citation_or_id (result : SearchResult.t) : pyval :=
  match SearchResult.citation result with
  | Some v => if truthy v then v else PStr (DocumentChunk.id (SearchResult.chunk result))
  | None => PStr (DocumentChunk.id (SearchResult.chunk result))
  end.

(** One entry of [segments] in [_build_context]. *)
Definition segment (idx : Z) (result : SearchResult.t) : string :=
  "[Source " +:+ Py.str idx +:+ ": " +:+ format (citation_or_id result) +:+ "]" +:+
  String "010" (PyStr.strip (DocumentChunk.content (SearchResult.chunk result))).

(** [_build_context] *)
Definition _build_context (results : list SearchResult.t) : string :=
  let segments := map (fun '(idx, result) => segment idx result) (Py.enumerate 1 results) in
  PyStr.join (String "010" (String "010" EmptyString)) segments.

(** [ask] *)
Definition ask (self : ChatEngine) (question : string) (top_k : Z) : exn + ChatResponse :=
  match search (store self) question (embedder self) top_k with
  | inl e => inl e
  | inr references =>
      let context := _build_context references in
      if String.eqb context "" then
        inr {| answer :=
                 "I could not find any relevant information in the knowledge base. " +:+
                 "Please ingest documents before chatting.";
               references := [] |}
      else
        let messages :=
          [ {| role := "system"; content := system_prompt self |};
            {| role := "user";
               content := "Context:" +:+ String "010" context +:+
                          String "010" (String "010" EmptyString) +:+
                          "Question: " +:+ question +:+ String "010" EmptyString |} ] in
        match generate (chat_model self) messages with
        | inl e => inl e
        | inr answer => inr {| answer := answer; references := references |}
        end
  end.

End engine.

(** ** [ai_helpdesk/ingestion/notion.py] *)

Module notion.
Import models.

(** What the loader observes of [Path(path)]: its text [str(file_path)]
    and its [stem]. *)
Record Path := {
  path_str : string;
  stem : string
}.

(** The exceptions of the loader: its own [FileNotFoundError], and what
    [exists] and [read_text] raise themselves (a directory, a file that
    cannot be read or is not UTF-8, ...). *)
Inductive error :=
| FileNotFoundError (msg : string)
| IsADirectoryError (msg : string)
| PermissionError (msg : string)
| UnicodeDecodeError (msg : string)
| OSError (msg : string).

(** [load_notion_export]; [path_exists] is [file_path.exists()] and
    [read_text] is [file_path.read_text(encoding="utf-8")], each [inl]
    when it raises. *)
Definition load_notion_export (path_exists : string -> error + bool)
    (read_text : string -> error + string) (file_path : Path)
    (source_id : string) : error + list Document.t :=
  match path_exists (path_str file_path) with
  | inl e => inl e
  | inr false =>
      inl (FileNotFoundError ("Notion export not found: " +:+ path_str file_path))
  | inr true =>
      match read_text (path_str file_path) with
      | inl e => inl e
      | inr text =>
          inr [Document.mk (stem file_path) source_id text
                 (<["path" := PStr (path_str file_path)]> ∅)]
      end
  end.

End notion.

(** ** [ai_helpdesk/ingestion/web.py] *)

Module ingestion_web.
Import models.

(** What the crawler reads of [urlparse(absolute)]. *)
Record ParseResult := {
  netloc : string;
  path : string;
  fragment : string
}.

(** What the crawler reads of a parsed page once the loop of [_clean_text]
    has removed the [script], [style], [noscript], [header] and [footer]
    tags: [soup.get_text(" ", strip=True)], [soup.title] with its
    [.string] (each [None] when absent) and, for every [a] tag in document
    order, [link.get("href")]. *)
Record Soup := {
  get_text : string;
  title : option (option string);
  hrefs : list (option string)
}.

(** The exceptions of [crawl_website] that the model follows:
    [AttributeError] from [.strip()] on the [None] that
    [soup.title.string] is for a title without a single string, and the
    [ValueError] that [urlparse] and [urljoin] raise on a malformed
    address. *)
Inductive error :=
| AttributeError (msg : string)
| ValueError (msg : string).

(** [_clean_text] *)
Definition _clean_text (soup : Soup) : string :=
  PyStr.join " " (PyStr.split (get_text soup)).

(** [soup.title.string.strip() if soup.title else url] *)
Definition title_or_url (soup : Soup) (url : string) : error + string :=
  match title soup with
  | None => inr url
  | Some (Some s) => inr (PyStr.strip s)
  | Some None => inl (AttributeError "'NoneType' object has no attribute 'strip'")
  end.

Section crawl.

(** The libraries and the network: [urlparse] and [urljoin] ([inl] when
    they raise), the request ([None] when [http.get] or
    [raise_for_status] raises, which the [try] catches, else
    [response.text]) and the parser. *)
Variable urlparse : string -> error + ParseResult.
Variable urljoin : string -> string -> error + string.
Variable http_get : string -> option string.
Variable BeautifulSoup : string -> Soup.

(** One turn of the loop over the links of the page at [url]: the queue
    after it, or the exception of [urljoin] or [urlparse]. *)
Definition follow (allowed_netloc : string) (allowed_paths : list string)
    (seen : gset string) (url : string) (queue : list string) (href : option string)
    : error + list string :=
  match href with
  | None => inr queue
  | Some href =>
      if String.eqb href "" then inr queue
      else
        match urljoin url href with
        | inl e => inl e
        | inr absolute =>
            match urlparse absolute with
            | inl e => inl e
            | inr parsed =>
                if negb (String.eqb (netloc parsed) allowed_netloc) then inr queue
                else if match allowed_paths with [] => false | _ :: _ => true end
                        && negb (existsb (fun p => String.prefix p (path parsed))
                                         allowed_paths)
                then inr queue
                else
                  let absolute := if negb (String.eqb (fragment parsed) "")
                                  then PyStr.before "#" absolute else absolute in
                  if decide (absolute ∈ seen) then inr queue else inr (queue ++ [absolute])
            end
        end
  end.

(** The loop over the links of a page; the first exception ends it. *)
Fixpoint follow_links (allowed_netloc : string) (allowed_paths : list string)
    (seen : gset string) (url : string) (links : list (option string))
    (queue : list string) : error + list string :=
  match links with
  | [] => inr queue
  | href :: links =>
      match follow allowed_netloc allowed_paths seen url queue href with
      | inl e => inl e
      | inr queue => follow_links allowed_netloc allowed_paths seen url links queue
      end
  end.

(** The [while] loop; [fuel] bounds its turns.  The printed messages and
    the pause between requests are left out. *)
Fixpoint crawl_loop (fuel : nat) (allowed_netloc : string) (allowed_paths : list string)
    (max_pages : Z) (queue : list string) (seen : gset string)
    (documents : list Document.t) : option (error + list Document.t) :=
  match fuel with
  | O => None
  | S fuel =>
      match queue with
      | [] => Some (inr documents)
      | url :: queue =>
          if negb (Z.of_nat (length documents) <? max_pages)%Z then Some (inr documents)
          else if decide (url ∈ seen)
          then crawl_loop fuel allowed_netloc allowed_paths max_pages queue seen documents
          else
            let seen := {[ url ]} ∪ seen in
            match http_get url with
            | None =>
                crawl_loop fuel allowed_netloc allowed_paths max_pages queue seen documents
            | Some response_text =>
                let soup := BeautifulSoup response_text in
                let text := _clean_text soup in
                match title_or_url soup url with
                | inl e => Some (inl e)
                | inr title =>
                    let documents :=
                      documents ++
                      [Document.mk url "web" text
                         (<["url" := PStr url]> (<["title" := PStr title]> ∅))] in
                    if (max_pages <=? Z.of_nat (length documents))%Z
                    then Some (inr documents)
                    else
                      match follow_links allowed_netloc allowed_paths seen url
                                         (hrefs soup) queue with
                      | inl e => Some (inl e)
                      | inr queue =>
                          crawl_loop fuel allowed_netloc allowed_paths max_pages
                                     queue seen documents
                      end
                end
            end
      end
  end.

(** [crawl_website]; [allowed_paths] is the tuple made of the argument,
    empty for [None]. *)
Definition crawl_website (fuel : nat) (base_url : string) (max_pages : Z)
    (allowed_paths : list string) : option (error + list Document.t) :=
  match urlparse base_url with
  | inl e => Some (inl e)
  | inr parsed_base =>
      let allowed_netloc := netloc parsed_base in
      crawl_loop fuel allowed_netloc allowed_paths max_pages [base_url] ∅ []
  end.

End crawl.

End ingestion_web.

(** ** Vocabulary of the further statements *)

Module spec_more.
Import models vector_store.

(** The windows of the token strategy. *)
Definition token_window_count (tokens : list Z) (step : Z) : nat :=
  Z.to_nat ((Z.of_nat (length tokens) + step - 1) / step).

Definition token_window (tokens : list Z) (chunk_size step : Z) (k : nat) : list Z :=
  Py.slice tokens (Z.of_nat k * step)
           (Z.min (Z.of_nat (length tokens)) (Z.of_nat k * step + chunk_size)).

Definition token_windows (tokens : list Z) (chunk_size chunk_overlap : Z) : list (list Z) :=
  let step := Z.max 1 (chunk_size - chunk_overlap) in
  map (token_window tokens chunk_size step) (seq 0 (token_window_count tokens step)).

(** Token windows still to come when the loop is at [start]. *)
Definition tokens_remaining (tokens : list Z) (step start : Z) : nat :=
  Z.to_nat ((Z.of_nat (length tokens) - start + step - 1) / step).

Definition token_window_from (tokens : list Z) (chunk_size step start : Z) (j : nat) : list Z :=
  let a := (start + Z.of_nat j * step)%Z in
  Py.slice tokens a (Z.min (Z.of_nat (length tokens)) (a + chunk_size)).

(** The chunk records that [add_documents] builds for one document. *)
Definition document_chunks (tiktoken : option chunking.Encoding) (chunk_size chunk_overlap : Z)
    (document : Document.t) : list DocumentChunk.t :=
  let chunks := chunking.chunk_text tiktoken (Document.content document)
                  chunk_size chunk_overlap in
  map (fun ic => DocumentChunk.mk ic.1 (Document.id document) (Document.source document)
                   ic.2 (Document.metadata document))
      (zip (chunking.enumerate_chunks chunks (Document.id document)) chunks).

(** The stored rows, none when the store has no matrix. *)
Definition stored_rows (self : VectorStore) : list (list np.float32) :=
  match _embeddings self with
  | Some m => np.rows m
  | None => []
  end.

(** The instance after a successful ingest of [new_chunks] with the
    provider's matrix [m]: appended to what is stored, or taken as they
    are when the store has no matrix yet. *)
Definition after_add (self : VectorStore) (new_chunks : list DocumentChunk.t)
    (m : np.matrix) (name : string) : VectorStore :=
  match _embeddings self with
  | Some old => {| _chunks := _chunks self ++ new_chunks;
                   _embeddings := Some (np.vstack old m);
                   _embedding_model := Some name |}
  | None => {| _chunks := new_chunks;
               _embeddings := Some m;
               _embedding_model := Some name |}
  end.

(** The two artifacts as [_save] writes them for an instance that holds a
    matrix. *)
Definition mirror (self : VectorStore) : directory :=
  {| metadata_json := Some {| payload_chunks := Some (_chunks self);
                              payload_embedding_model := _embedding_model self |};
     vectors_npy := _embeddings self |}.

(** A store in order: as many rows as chunks, every row of the stored
    width. *)
Definition store_ok (self : VectorStore) : Prop :=
  match _embeddings self with
  | Some m => length (_chunks self) = length (np.rows m) /\ np.well_shaped m
  | None => _chunks self = []
  end.

(** A provider that keeps its contract: one row per text, every row of
    the announced width. *)
Definition provider_ok (embedder : EmbeddingBackend) : Prop :=
  forall texts m, embed embedder texts = inr (np.Nd2 m) ->
                  length (np.rows m) = length texts /\ np.well_shaped m.

(** A word: not empty and without white space. *)
Definition is_word (w : string) : Prop :=
  w <> "" /\ Forall (fun c => PyStr.isspace c = false) (list_ascii_of_string w).

(** [s] consists of white space only. *)
Definition blank (s : string) : Prop :=
  Forall (fun c => PyStr.isspace c = true) (list_ascii_of_string s).

(** [target] is what the crawler queues for the link [href] of the page
    at [page]: the joined address is on the host of [base_url], under one
    of [allowed_paths] when there are any, and [target] is that address
    without its fragment. *)
Definition links_to (urlparse : string -> ingestion_web.error + ingestion_web.ParseResult)
    (urljoin : string -> string -> ingestion_web.error + string)
    (base_url : string) (allowed_paths : list string)
    (page href target : string) : Prop :=
  exists absolute parsed parsed_base,
    urljoin page href = inr absolute /\
    urlparse absolute = inr parsed /\
    urlparse base_url = inr parsed_base /\
    ingestion_web.netloc parsed = ingestion_web.netloc parsed_base /\
    (allowed_paths = [] \/
     exists p, p ∈ allowed_paths /\ String.prefix p (ingestion_web.path parsed) = true) /\
    target = (if String.eqb (ingestion_web.fragment parsed) "" then absolute
              else PyStr.before "#" absolute).

(** [document] is the record the crawler builds for the page at its
    address. *)
Definition page_document (http_get : string -> option string)
    (BeautifulSoup : string -> ingestion_web.Soup) (document : Document.t) : Prop :=
  exists response_text title,
    http_get (Document.id document) = Some response_text /\
    ingestion_web.title_or_url (BeautifulSoup response_text) (Document.id document)
      = inr title /\
    document = Document.mk (Document.id document) "web"
                 (ingestion_web._clean_text (BeautifulSoup response_text))
                 (<["url" := PStr (Document.id document)]> (<["title" := PStr title]> ∅)).

Section crawl_vocabulary.
Variable urlparse : string -> ingestion_web.error + ingestion_web.ParseResult.
Variable urljoin : string -> string -> ingestion_web.error + string.
Variable http_get : string -> option string.
Variable BeautifulSoup : string -> ingestion_web.Soup.
Variable base_url : string.
Variable allowed_paths : list string.

(** [url] is the start of the crawl or what the crawler queues for a link
    of one of the gathered pages. *)
Definition from_site (documents : list Document.t) (url : string) : Prop :=
  url = base_url \/
  exists d response_text href,
    d ∈ documents /\
    http_get (Document.id d) = Some response_text /\
    Some href ∈ ingestion_web.hrefs (BeautifulSoup response_text) /\
    href <> "" /\
    links_to urlparse urljoin base_url allowed_paths (Document.id d) href url.

(** What holds of the gathered documents at every turn of the loop. *)
Definition gathered (max_pages : Z) (documents : list Document.t) : Prop :=
  (Z.of_nat (length documents) <= Z.max 0 max_pages)%Z /\
  NoDup (map Document.id documents) /\
  Forall (page_document http_get BeautifulSoup) documents /\
  Forall (fun d => from_site documents (Document.id d)) documents.

(** The invariant of the loop. *)
Definition crawl_invariant (max_pages : Z) (queue : list string) (seen : gset string)
    (documents : list Document.t) : Prop :=
  gathered max_pages documents /\
  (forall d, d ∈ documents -> Document.id d ∈ seen) /\
  Forall (from_site documents) queue.

End crawl_vocabulary.

End spec_more.

(** ** Further concrete inputs *)

Module examples_more.
Import models vector_store.

(** A tokenizer with one token per character whose [decode] raises on
    every window. *)
Definition failing_decoder : chunking.Encoding :=
  {| chunking.encode := fun s => Some (map (fun c => Z.of_nat (nat_of_ascii c))
                                           (list_ascii_of_string s));
     chunking.decode := fun _ => None |}.

(** A tokenizer with one token per character. *)
Definition char_tokenizer : chunking.Encoding :=
  {| chunking.encode := fun s => Some (map (fun c => Z.of_nat (nat_of_ascii c))
                                           (list_ascii_of_string s));
     chunking.decode := fun ts => Some (string_of_list_ascii
                                          (map (fun t => ascii_of_nat (Z.to_nat t)) ts)) |}.

Definition second_document : Document.t :=
  Document.mk "guide" "web" "a guide" (<["title" := PStr "Guide"]> ∅).

(** A provider that always raises. *)
Definition broken_embedder : EmbeddingBackend :=
  {| model_name := "broken"; embed := fun _ => inl (ProviderError "unreachable") |}.

(** A provider that returns a one-dimensional array. *)
Definition flat_embedder : EmbeddingBackend :=
  {| model_name := "flat"; embed := fun _ => inr (np.Nd1 [np.one]) |}.

Definition empty_store : VectorStore :=
  {| _chunks := []; _embeddings := None; _embedding_model := None |}.

(** A chat model that always raises, and one that answers "ok". *)
Definition broken_chat : engine.ChatModel :=
  {| engine.generate := fun _ => inl (ProviderError "unreachable") |}.

Definition echo_chat : engine.ChatModel :=
  {| engine.generate := fun _ => inr "ok" |}.

Definition notes_path : notion.Path :=
  {| notion.path_str := "export/notes.md"; notion.stem := "notes" |}.

(** A site of two pages on the host [h]; the first links to the second
    (twice, once with a fragment), to another host, and has a link without
    [href]. *)
Definition site_urlparse (u : string) : ingestion_web.error + ingestion_web.ParseResult :=
  if String.eqb u "http://h/" then
    inr {| ingestion_web.netloc := "h"; ingestion_web.path := "/";
           ingestion_web.fragment := "" |}
  else if String.eqb u "http://h/a" then
    inr {| ingestion_web.netloc := "h"; ingestion_web.path := "/a";
           ingestion_web.fragment := "" |}
  else if String.eqb u "http://h/a#top" then
    inr {| ingestion_web.netloc := "h"; ingestion_web.path := "/a";
           ingestion_web.fragment := "top" |}
  else if String.eqb u "http://[h/" then
    inl (ingestion_web.ValueError "Invalid IPv6 URL")
  else
    inr {| ingestion_web.netloc := "other"; ingestion_web.path := "/x";
           ingestion_web.fragment := "" |}.

Definition site_urljoin (url href : string) : ingestion_web.error + string :=
  if String.prefix "http" href then
    match site_urlparse href with
    | inl e => inl e
    | inr _ => inr href
    end
  else inr ("http://h" +:+ href).

Definition site_http_get (u : string) : option string :=
  if String.eqb u "http://h/" then Some "home"
  else if String.eqb u "http://h/a" then Some "a"
  else None.

Definition site_parse (response_text : string) : ingestion_web.Soup :=
  if String.eqb response_text "home" then
    {| ingestion_web.get_text := "Home   page";
       ingestion_web.title := Some (Some " Home ");
       ingestion_web.hrefs := [Some "/a"; Some "http://other/x"; None; Some "/a#top"] |}
  else
    {| ingestion_web.get_text := "A";
       ingestion_web.title := None;
       ingestion_web.hrefs := [Some "/"] |}.

(** The second page with a link that [urljoin] refuses. *)
Definition broken_link_parse (response_text : string) : ingestion_web.Soup :=
  {| ingestion_web.get_text := "A";
     ingestion_web.title := None;
     ingestion_web.hrefs := [None; Some "http://[h/"] |}.

Definition home_document : Document.t :=
  Document.mk "http://h/" "web" "Home page"
    (<["url" := PStr "http://h/"]> (<["title" := PStr "Home"]> ∅)).

Definition a_document : Document.t :=
  Document.mk "http://h/a" "web" "A"
    (<["url" := PStr "http://h/a"]> (<["title" := PStr "http://h/a"]> ∅)).

End examples_more.

(** ** The character strategy of the chunker *)

Section split_by_chars.
Import chunking spec.

Lemma length_list_ascii_of_string (s : string) :
  length (list_ascii_of_string s) = String.length s.
Proof. induction s as [|c s IH]; simpl; congruence. Qed.

Lemma length_string_of_list_ascii (l : list ascii) :
  String.length (string_of_list_ascii l) = length l.
Proof. induction l as [|c l IH]; simpl; congruence. Qed.

(** A slice with bounds inside the sequence is a [take] of a [drop]. *)
Lemma slice_inside {A} (l : list A) (lo hi : Z) :
  (0 <= lo)%Z -> (lo <= hi)%Z -> (hi <= Z.of_nat (length l))%Z ->
  Py.slice l lo hi = take (Z.to_nat (hi - lo)) (drop (Z.to_nat lo) l).
Proof.
  intros Hlo Hhi Hn. unfold Py.slice, Py.clamp.
  destruct (Z.ltb_spec lo 0); [lia|].
  destruct (Z.ltb_spec hi 0); [lia|].
  rewrite !Z.min_l by lia. reflexivity.
Qed.

Lemma len_str_slice_inside (s : string) (lo hi : Z) :
  (0 <= lo)%Z -> (lo <= hi)%Z -> (hi <= Py.len s)%Z ->
  Py.len (Py.str_slice s lo hi) = (hi - lo)%Z.
Proof.
  intros Hlo Hhi Hn. unfold Py.len in *. unfold Py.str_slice.
  rewrite length_string_of_list_ascii, slice_inside
    by (rewrite ?length_list_ascii_of_string; lia).
  rewrite length_take, length_drop, length_list_ascii_of_string. lia.
Qed.

Lemma remaining_done text step start :
  (1 <= step)%Z -> (Py.len text <= start)%Z -> remaining text step start = 0%nat.
Proof.
  intros Hs Hl. unfold remaining.
  assert ((Py.len text - start + step - 1) / step <= 0)%Z; [|lia].
  assert ((Py.len text - start + step - 1) / step < 1)%Z; [|lia].
  apply Z.div_lt_upper_bound; lia.
Qed.

Lemma remaining_step text step start :
  (1 <= step)%Z -> (start < Py.len text)%Z ->
  remaining text step start = S (remaining text step (start + step)).
Proof.
  intros Hs Hl. unfold remaining.
  replace (Py.len text - start + step - 1)%Z
    with ((Py.len text - (start + step) + step - 1) + 1 * step)%Z by lia.
  rewrite Z.div_add by lia.
  assert (0 <= (Py.len text - (start + step) + step - 1) / step)%Z
    by (apply Z.div_pos; lia).
  lia.
Qed.

Lemma remaining_le_len text step start :
  (1 <= step)%Z -> (0 <= start)%Z ->
  (remaining text step start <= String.length text)%nat.
Proof.
  intros Hs H0. unfold remaining.
  assert (0 <= Py.len text)%Z by (unfold Py.len; lia).
  destruct (Z.le_gt_cases (Py.len text) start) as [Hge|Hlt].
  - assert ((Py.len text - start + step - 1) / step < 1)%Z
      by (apply Z.div_lt_upper_bound; lia). lia.
  - assert ((Py.len text - start + step - 1) / step < Py.len text + 1)%Z
      by (apply Z.div_lt_upper_bound; nia).
    unfold Py.len in *. lia.
Qed.

(** The loop, run with enough fuel, appends exactly the remaining
    windows. *)
Lemma split_chars_loop_spec (fuel : nat) (text : string) (chunk_size step : Z) :
  (1 <= step)%Z ->
  forall (start : Z) (chunks : list string),
    (remaining text step start <= fuel)%nat ->
    split_chars_loop fuel text chunk_size step start chunks
    = Some (chunks ++ map (window_at text chunk_size step start)
                          (seq 0 (remaining text step start))).
Proof.
  intros Hs. induction fuel as [|fuel IH]; intros start chunks Hfuel.
  - assert (Hr : remaining text step start = 0%nat) by lia.
    destruct (Z.ltb_spec start (Py.len text)) as [Hlt|Hge].
    + rewrite remaining_step in Hr by lia. discriminate.
    + simpl. destruct (Z.ltb_spec start (Py.len text)); [lia|].
      rewrite Hr. simpl. by rewrite app_nil_r.
  - simpl. destruct (Z.ltb_spec start (Py.len text)) as [Hlt|Hge].
    + rewrite remaining_step in Hfuel |- * by lia.
      rewrite IH by lia. f_equal. rewrite <- app_assoc. f_equal.
      simpl. f_equal.
      * unfold window_at. by replace (start + Z.of_nat 0 * step)%Z with start by lia.
      * rewrite <- seq_shift, map_map. apply map_ext. intros j.
        unfold window_at.
        by replace (start + step + Z.of_nat j * step)%Z
          with (start + Z.of_nat (S j) * step)%Z by lia.
    + rewrite remaining_done by lia. simpl. by rewrite app_nil_r.
Qed.

(** Too little fuel: the loop does not finish. *)
Lemma split_chars_loop_starved (fuel : nat) (text : string) (chunk_size step : Z) :
  (1 <= step)%Z ->
  forall (start : Z) (chunks : list string),
    (fuel < remaining text step start)%nat ->
    split_chars_loop fuel text chunk_size step start chunks = None.
Proof.
  intros Hs. induction fuel as [|fuel IH]; intros start chunks Hfuel.
  - simpl. destruct (Z.ltb_spec start (Py.len text)) as [Hlt|Hge]; [done|].
    rewrite remaining_done in Hfuel by lia. lia.
  - simpl. destruct (Z.ltb_spec start (Py.len text)) as [Hlt|Hge].
    + apply IH. rewrite remaining_step in Hfuel by lia. lia.
    + rewrite remaining_done in Hfuel by lia. lia.
Qed.

Lemma remaining_0 text step : remaining text step 0 = window_count text step.
Proof. unfold remaining, window_count. f_equal. f_equal. lia. Qed.

(** What [_split_by_chars] returns: the windows at 0, step, 2*step, ... *)
Lemma split_by_chars_windows (text : string) (chunk_size chunk_overlap : Z) :
  let step := Z.max 1 (chunk_size - chunk_overlap) in
  _split_by_chars text chunk_size chunk_overlap
  = map (window_at text chunk_size step 0) (seq 0 (window_count text step)).
Proof.
  intros step. unfold _split_by_chars, split_by_chars_within. fold step.
  rewrite split_chars_loop_spec by (try apply remaining_le_len; lia).
  simpl. by rewrite remaining_0.
Qed.

(** The token loop never exhausts a budget of one iteration per token, so
    [chunk_text] falls back to characters only when the tokenizer raises. *)
Lemma split_tokens_loop_budget (enc : Encoding) (tokens : list Z)
    (chunk_size chunk_overlap : Z) (fuel : nat) :
  forall (start : Z) (chunks : list string),
    (Z.of_nat (length tokens) - start <= Z.of_nat fuel)%Z ->
    split_tokens_loop fuel enc tokens chunk_size chunk_overlap start chunks <> OutOfFuel.
Proof.
  induction fuel as [|fuel IH]; intros start chunks Hfuel; simpl.
  - destruct (Z.ltb_spec start (Z.of_nat (length tokens))); [lia|done].
  - destruct (Z.ltb_spec start (Z.of_nat (length tokens))); [|done].
    destruct (decode enc _); [|done]. apply IH. lia.
Qed.

Lemma split_by_tokens_budget (enc : Encoding) (text : string) (chunk_size chunk_overlap : Z) :
  _split_by_tokens enc text chunk_size chunk_overlap <> OutOfFuel.
Proof.
  unfold _split_by_tokens. destruct (encode enc text) as [tokens|]; [|done].
  apply split_tokens_loop_budget. lia.
Qed.

(** A tokenizer that raises leaves the character strategy. *)
Lemma chunk_text_fallback (enc : Encoding) (text : string) (chunk_size chunk_overlap : Z) :
  _split_by_tokens enc text chunk_size chunk_overlap = Raised ->
  chunk_text (Some enc) text chunk_size chunk_overlap
  = chunk_text None text chunk_size chunk_overlap.
Proof. intros H. unfold chunk_text. by rewrite H. Qed.

(** C5: for every text and all integer parameters the character loop
    terminates: its step [max(1, chunk_size - chunk_overlap)] is at least
    1, so [ceil(len / step)] iterations (never more than one per
    character) end it; with that much fuel or more it returns the chunks
    of [_split_by_chars], with less it is still running, and the [k]-th
    chunk is the window starting [k] steps into the text. *)
Theorem split_by_chars_total (text : string) (chunk_size chunk_overlap : Z) :
  let step := Z.max 1 (chunk_size - chunk_overlap) in
  let n := window_count text step in
  let chunks := _split_by_chars text chunk_size chunk_overlap in
  (1 <= step)%Z /\
  (n <= String.length text)%nat /\
  length chunks = n /\
  (forall extra : nat,
     split_by_chars_within (n + extra) text chunk_size chunk_overlap = Some chunks) /\
  (forall fuel : nat,
     (fuel < n)%nat -> split_by_chars_within fuel text chunk_size chunk_overlap = None) /\
  (forall k : nat,
     (k < n)%nat ->
     chunks !! k = Some (Py.str_slice text (span_start step k) (span_end text chunk_size step k))).
Proof.
  intros step n chunks.
  assert (Hs : (1 <= step)%Z) by (unfold step; lia).
  assert (Hc : chunks = map (window_at text chunk_size step 0) (seq 0 n))
    by apply split_by_chars_windows.
  split; [done|]. split.
  { unfold n. rewrite <- remaining_0. apply remaining_le_len; lia. }
  split. { rewrite Hc. by rewrite length_map, length_seq. }
  split.
  { intros extra. unfold split_by_chars_within. fold step.
    rewrite split_chars_loop_spec by (rewrite ?remaining_0; fold n; lia).
    rewrite remaining_0. fold n. by rewrite Hc. }
  split.
  { intros fuel Hf. unfold split_by_chars_within. fold step.
    apply split_chars_loop_starved; [done|]. rewrite remaining_0. by fold n. }
  intros k Hk. rewrite Hc.
  change (map ?f ?l) with (f <$> l).
  rewrite list_lookup_fmap, lookup_seq_lt by done. simpl.
  unfold window_at, span_end, span_start. by rewrite !Z.add_0_l.
Qed.

Lemma split_by_chars_total_witness :
  (2 < window_count "abcdefghij" (Z.max 1 (5 - 2)))%nat /\
  split_by_chars_within 2 "abcdefghij" 5 2 = None.
Proof.
  split; [vm_compute; lia|].
  apply (split_by_chars_total "abcdefghij" 5 2). vm_compute. lia.
Defined.

Lemma window_count_lt (text : string) (step : Z) (k : nat) :
  (1 <= step)%Z ->
  (k < window_count text step)%nat <-> (span_start step k < Py.len text)%Z.
Proof.
  intros Hs. unfold window_count, span_start.
  assert (H0 : (0 <= Py.len text)%Z) by (unfold Py.len; lia).
  set (q := ((Py.len text + step - 1) / step)%Z).
  assert (Hq1 : (step * q <= Py.len text + step - 1)%Z)
    by (apply Z.mul_div_le; lia).
  assert (Hq2 : (Py.len text + step - 1 < step * Z.succ q)%Z)
    by (apply Z.mul_succ_div_gt; lia).
  assert (Hq0 : (0 <= q)%Z) by (apply Z.div_pos; lia).
  split; intros H.
  - assert (Z.of_nat k + 1 <= q)%Z by lia. nia.
  - assert (Z.of_nat k < q)%Z by nia. lia.
Qed.

(** C4: the character strategy on a non-empty text with
    [0 <= chunk_overlap < chunk_size] returns [ceil(len / step)] >= 1
    chunks, [step = chunk_size - chunk_overlap]; chunk [k] is the
    substring of the text on the span from [k * step] to
    [min(len, k * step + chunk_size)], so it has at most [chunk_size]
    characters; every position of the text lies in some span; the spans
    of consecutive chunks share [min(chunk_overlap, characters left from
    the start of the later chunk)] positions, that is exactly
    [chunk_overlap] whenever that much text remains.  The empty text
    gives no chunk. *)
Theorem chunk_text_chars_cover (text : string) (chunk_size chunk_overlap : Z) :
  chunk_text None "" chunk_size chunk_overlap = [] /\
  (text <> "" -> (0 <= chunk_overlap < chunk_size)%Z ->
   let step := (chunk_size - chunk_overlap)%Z in
   let chunks := chunk_text None text chunk_size chunk_overlap in
   let a := span_start step in
   let e := span_end text chunk_size step in
   chunks <> [] /\
   length chunks = window_count text step /\
   (forall (k : nat) (c : string), chunks !! k = Some c ->
      (0 <= a k < e k)%Z /\ (e k <= Py.len text)%Z /\
      c = Py.str_slice text (a k) (e k) /\
      Py.len c = (e k - a k)%Z /\ (Py.len c <= chunk_size)%Z) /\
   (forall p : Z, (0 <= p < Py.len text)%Z ->
      exists k : nat, (k < length chunks)%nat /\ (a k <= p < e k)%Z) /\
   (forall k : nat, (S k < length chunks)%nat ->
      (a (S k) <= e k <= e (S k))%Z /\
      (e k - a (S k))%Z = Z.min chunk_overlap (Py.len text - a (S k)) /\
      ((chunk_overlap <= Py.len text - a (S k))%Z ->
       (e k - a (S k))%Z = chunk_overlap))).
Proof.
  split; [reflexivity|].
  intros Hne Hpar step chunks a e.
  assert (Hstep : Z.max 1 (chunk_size - chunk_overlap) = step) by (unfold step; lia).
  assert (Hs : (1 <= step)%Z) by (unfold step; lia).
  assert (Hlen : (0 < Py.len text)%Z).
  { unfold Py.len. destruct text; [done|simpl; lia]. }
  assert (Hc : chunks = map (window_at text chunk_size step 0)
                            (seq 0 (window_count text step))).
  { unfold chunks, chunk_text. destruct (String.eqb_spec text ""); [done|].
    rewrite split_by_chars_windows. by rewrite Hstep. }
  assert (Hn : length chunks = window_count text step)
    by (rewrite Hc; by rewrite length_map, length_seq).
  assert (Hpos : (0 < window_count text step)%nat).
  { apply window_count_lt; [done|]. unfold span_start. lia. }
  split. { intros E. rewrite E in Hn. simpl in Hn. lia. }
  split; [done|].
  split.
  { intros k c Hk.
    assert (Hkn : (k < window_count text step)%nat)
      by (rewrite <- Hn; by eapply lookup_lt_Some).
    pose proof (proj1 (window_count_lt text step k Hs) Hkn) as Hak.
    rewrite Hc in Hk. change (map ?f ?l) with (f <$> l) in Hk.
    rewrite list_lookup_fmap, lookup_seq_lt in Hk by done.
    simpl in Hk. injection Hk as <-.
    unfold a, e, span_end, window_at. rewrite !Z.add_0_l. fold (span_start step k).
    assert (0 <= span_start step k)%Z by (unfold span_start; nia).
    rewrite len_str_slice_inside by lia.
    repeat split; lia. }
  split.
  { intros p Hp. exists (Z.to_nat (p / step)).
    assert (Hq0 : (0 <= p / step)%Z) by (apply Z.div_pos; lia).
    assert (Hq1 : (step * (p / step) <= p)%Z) by (apply Z.mul_div_le; lia).
    assert (Hq2 : (p < step * Z.succ (p / step))%Z)
      by (apply Z.mul_succ_div_gt; lia).
    assert (Ha : a (Z.to_nat (p / step)) = (step * (p / step))%Z)
      by (unfold a, span_start; lia).
    split.
    - rewrite Hn. apply window_count_lt; [done|]. fold (a (Z.to_nat (p / step))). lia.
    - unfold e, span_end. fold (a (Z.to_nat (p / step))). rewrite Ha. unfold step in *. lia. }
  intros k Hk. rewrite Hn in Hk.
  pose proof (proj1 (window_count_lt text step (S k) Hs) Hk) as Hak.
  fold (a (S k)) in Hak.
  assert (Hsucc : a (S k) = (a k + step)%Z) by (unfold a, span_start; lia).
  assert (0 <= a k)%Z by (unfold a, span_start; nia).
  unfold e, span_end. fold (a k) (a (S k)). rewrite Hsucc in *. unfold step in *.
  repeat split; lia.
Qed.

Lemma chunk_text_chars_cover_witness :
  chunk_text None "abcdefghij" 5 2 = ["abcde"; "defgh"; "ghij"; "j"] /\
  (span_end "abcdefghij" 5 3 0 - span_start 3 1)%Z = 2%Z.
Proof.
  split; [reflexivity|].
  assert (Hne : "abcdefghij" <> "") by discriminate.
  assert (Hpar : (0 <= 2 < 5)%Z) by lia.
  destruct (proj2 (chunk_text_chars_cover "abcdefghij" 5 2) Hne Hpar)
    as (_ & _ & _ & _ & Hov).
  assert (Hk : (1 < length (chunk_text None "abcdefghij" 5 2))%nat)
    by (vm_compute; lia).
  destruct (Hov 0%nat Hk) as (_ & _ & Hexact).
  apply Hexact. vm_compute. discriminate.
Defined.

End split_by_chars.

(** ** Decimal numerals and chunk identifiers *)

Section enumerate_chunks.
Import chunking spec.

Lemma pow10_pos k : (0 < pow10 k)%Z.
Proof. induction k; simpl; lia. Qed.

Lemma pow10_mono j k : (j <= k)%nat -> (pow10 j <= pow10 k)%Z.
Proof.
  induction 1 as [|k _ IH]; [lia|]. simpl. pose proof (pow10_pos k). lia.
Qed.

Lemma pow10_lt_inv j k : (pow10 j < pow10 k)%Z -> (j < k)%nat.
Proof.
  intros H. destruct (Nat.lt_ge_cases j k) as [|Hge]; [done|].
  apply pow10_mono in Hge. lia.
Qed.

Lemma pow2_le_pow10 k : (2 ^ Z.of_nat k <= pow10 k)%Z.
Proof.
  induction k as [|k IH]; [simpl; lia|].
  rewrite Nat2Z.inj_succ, Z.pow_succ_r by lia. simpl. lia.
Qed.

Lemma digit_budget_enough n : (0 <= n)%Z -> (n < pow10 (Py.digit_budget n))%Z.
Proof.
  intros Hn. unfold Py.digit_budget.
  pose proof (pow2_le_pow10 (S (Z.to_nat (Z.log2 n)))) as H2.
  destruct (Z.eq_dec n 0%Z) as [->|Hne].
  - simpl. lia.
  - pose proof (Z.log2_spec n ltac:(lia)) as [_ Hlt].
    pose proof (Z.log2_nonneg n).
    rewrite Nat2Z.inj_succ, Z2Nat.id in H2 by lia. lia.
Qed.

(** The digits of [n], least significant first: they are digits, their
    value is [n], and their number [L] satisfies
    [10^(L-1) <= n < 10^L] (for [n >= 1]). *)
Lemma digits_le_spec fuel n :
  (0 <= n < pow10 (S fuel))%Z ->
  let ds := Py.digits_le (S fuel) n in
  Forall is_digit ds /\ value_le ds = n /\
  (n < pow10 (length ds))%Z /\
  (exists L, length ds = S L /\ ((1 <= n)%Z -> (pow10 L <= n)%Z)).
Proof.
  revert n. induction fuel as [|fuel IH]; intros n Hn ds; subst ds.
  - simpl in *. destruct (Z.ltb_spec n 10); [|lia].
    split. { repeat constructor; apply Z.mod_pos_bound; lia. }
    rewrite Z.mod_small by lia. simpl.
    split; [lia|]. split; [lia|]. exists 0%nat. simpl. split; [done|lia].
  - change (Py.digits_le (S (S fuel)) n)
      with ((n mod 10)%Z :: (if (n <? 10)%Z then [] else Py.digits_le (S fuel) (n / 10)%Z)).
    destruct (Z.ltb_spec n 10) as [Hlt|Hge].
    + split. { repeat constructor; apply Z.mod_pos_bound; lia. }
      rewrite Z.mod_small by lia. simpl.
      split; [lia|]. split; [lia|]. exists 0%nat. simpl. split; [done|lia].
    + assert (Hq : (0 <= n / 10 < pow10 (S fuel))%Z).
      { split; [apply Z.div_pos; lia|].
        apply Z.div_lt_upper_bound; [lia|]. simpl in Hn. simpl. lia. }
      destruct (IH _ Hq) as (Hd & Hv & Hup & L & HL & Hlow).
      set (rest := Py.digits_le (S fuel) (n / 10)%Z) in *. clearbody rest.
      pose proof (Z.div_mod n 10 ltac:(lia)) as Hdm.
      pose proof (Z.mod_pos_bound n 10 ltac:(lia)) as Hm.
      split. { constructor; [exact Hm|exact Hd]. }
      split. { simpl value_le. rewrite Hv. lia. }
      split. { simpl length. simpl pow10. lia. }
      exists (S L). split; [simpl; by rewrite HL|].
      intros _. simpl. assert (1 <= n / 10)%Z by (apply Z.div_le_lower_bound; lia).
      specialize (Hlow ltac:(lia)). lia.
Qed.

Lemma value_be_snoc ds d : value_be (ds ++ [d]) = (10 * value_be ds + d)%Z.
Proof.
  induction ds as [|x ds IH]; simpl; [lia|].
  rewrite IH, length_app. simpl. rewrite Nat.add_1_r. simpl. lia.
Qed.

Lemma value_be_reverse ds : value_be (reverse ds) = value_le ds.
Proof.
  induction ds as [|d ds IH]; [done|].
  rewrite reverse_cons, value_be_snoc, IH. simpl. lia.
Qed.

Lemma value_be_zeros k ds : value_be (replicate k 0%Z ++ ds) = value_be ds.
Proof. induction k as [|k IH]; simpl; [done|]. rewrite IH. lia. Qed.

Lemma value_be_bound ds : Forall is_digit ds -> (0 <= value_be ds < pow10 (length ds))%Z.
Proof.
  induction 1 as [|d ds Hd _ IH]; simpl; [lia|].
  unfold is_digit in Hd. pose proof (pow10_pos (length ds)). nia.
Qed.

Lemma digits_numeral n : Py.digits n = numeral (digits_be n).
Proof. reflexivity. Qed.

Lemma digits_be_spec n :
  (0 <= n)%Z ->
  Forall is_digit (digits_be n) /\ value_be (digits_be n) = n /\
  (n < pow10 (length (digits_be n)))%Z /\
  (exists L, length (digits_be n) = S L /\ ((1 <= n)%Z -> (pow10 L <= n)%Z)).
Proof.
  intros Hn. unfold digits_be, Py.digit_budget.
  destruct (digits_le_spec (Z.to_nat (Z.log2 n)) n) as (Hd & Hv & Hup & L & HL & Hlow).
  { split; [done|]. by apply digit_budget_enough. }
  rewrite value_be_reverse, length_reverse.
  split; [by apply Forall_reverse|]. split; [done|]. split; [done|]. by exists L.
Qed.

Lemma length_numeral ds : String.length (numeral ds) = length ds.
Proof. unfold numeral. by rewrite length_string_of_list_ascii, length_map. Qed.

Lemma length_str n : (0 <= n)%Z -> String.length (Py.str n) = length (digits_be n).
Proof.
  intros Hn. unfold Py.str. destruct (Z.ltb_spec n 0); [lia|].
  by rewrite digits_numeral, length_numeral.
Qed.

(** Larger numbers do not have fewer digits. *)
Lemma length_digits_mono m n :
  (0 <= m <= n)%Z -> (length (digits_be m) <= length (digits_be n))%nat.
Proof.
  intros Hmn.
  destruct (digits_be_spec m ltac:(lia)) as (_ & _ & _ & L & HL & Hlow).
  destruct (digits_be_spec n ltac:(lia)) as (_ & _ & Hup & L' & HL' & _).
  rewrite HL. destruct (Z.eq_dec m 0%Z) as [->|Hm0].
  - rewrite HL'. assert (L = 0%nat); [|lia].
    vm_compute in HL. congruence.
  - specialize (Hlow ltac:(lia)).
    apply pow10_lt_inv. lia.
Qed.

(** [ceil_log10 m] is the least [k] with [m <= 10^k]. *)
Lemma ceil_log10_from_spec fuel m k :
  (m <= pow10 (k + fuel))%Z ->
  (forall j, k = S j -> (pow10 j < m)%Z) ->
  let r := Py.ceil_log10_from fuel m (pow10 k) k in
  (m <= pow10 r)%Z /\ (forall j, r = S j -> (pow10 j < m)%Z).
Proof.
  revert k. induction fuel as [|fuel IH]; intros k Hup Hlow; simpl.
  - rewrite Nat.add_0_r in Hup. done.
  - destruct (Z.leb_spec m (pow10 k)) as [Hle|Hgt]; [done|].
    change (10 * pow10 k)%Z with (pow10 (S k)).
    apply IH.
    + by replace (S k + fuel)%nat with (k + S fuel)%nat by lia.
    + intros j [= <-]. done.
Qed.

Lemma ceil_log10_spec m :
  (1 <= m)%Z ->
  (m <= pow10 (Py.ceil_log10 m))%Z /\
  (forall j, Py.ceil_log10 m = S j -> (pow10 j < m)%Z).
Proof.
  intros Hm. unfold Py.ceil_log10.
  apply (ceil_log10_from_spec (Py.digit_budget m) m 0).
  - simpl plus. pose proof (digit_budget_enough m ltac:(lia)). lia.
  - intros j [=].
Qed.

(** For [n >= 1], [ceil(log10(n + 1))] is the number of digits of [n]. *)
Lemma ceil_log10_succ_digits n :
  (1 <= n)%Z -> Py.ceil_log10 (n + 1) = String.length (Py.str n).
Proof.
  intros Hn. rewrite length_str by lia.
  destruct (digits_be_spec n ltac:(lia)) as (_ & _ & Hup & L & HL & Hlow).
  destruct (ceil_log10_spec (n + 1) ltac:(lia)) as [Hc1 Hc2].
  specialize (Hlow Hn). rewrite HL in *.
  destruct (Py.ceil_log10 (n + 1)) as [|r] eqn:Er.
  - simpl in Hc1. lia.
  - specialize (Hc2 r eq_refl). f_equal.
    assert (r < S L)%nat by (apply pow10_lt_inv; lia).
    assert (L < S r)%nat by (apply pow10_lt_inv; lia).
    lia.
Qed.

Lemma ascii_compare_refl c : Ascii.compare c c = Eq.
Proof. unfold Ascii.compare. apply N.compare_refl. Qed.

Lemma compare_app_prefix p x y :
  String.compare (p +:+ x) (p +:+ y) = String.compare x y.
Proof. induction p as [|c p IH]; simpl; [done|]. by rewrite ascii_compare_refl. Qed.

Lemma is_digit_cases d :
  is_digit d ->
  d = 0%Z \/ d = 1%Z \/ d = 2%Z \/ d = 3%Z \/ d = 4%Z \/
  d = 5%Z \/ d = 6%Z \/ d = 7%Z \/ d = 8%Z \/ d = 9%Z.
Proof. unfold is_digit. lia. Qed.

Lemma digit_char_compare d1 d2 :
  is_digit d1 -> is_digit d2 ->
  Ascii.compare (Py.digit_char d1) (Py.digit_char d2) = Z.compare d1 d2.
Proof.
  intros H1 H2.
  apply is_digit_cases in H1. apply is_digit_cases in H2.
  repeat (destruct H1 as [->|H1]); try subst d1;
    (repeat (destruct H2 as [->|H2]); try subst d2; reflexivity).
Qed.

Lemma digit_char_not_sign d :
  is_digit d ->
  (Ascii.eqb (Py.digit_char d) "+" || Ascii.eqb (Py.digit_char d) "-")%bool = false.
Proof.
  intros H. apply is_digit_cases in H.
  repeat (destruct H as [->|H]); try subst d; reflexivity.
Qed.

Lemma numeral_cons d ds : numeral (d :: ds) = String (Py.digit_char d) (numeral ds).
Proof. reflexivity. Qed.

Lemma compare_cons c1 s1 c2 s2 :
  String.compare (String c1 s1) (String c2 s2)
  = match Ascii.compare c1 c2 with
    | Eq => String.compare s1 s2
    | other => other
    end.
Proof. reflexivity. Qed.

(** Numerals of the same length compare as their values do. *)
Lemma numeral_compare ds1 : forall ds2,
  Forall is_digit ds1 -> Forall is_digit ds2 -> length ds1 = length ds2 ->
  (value_be ds1 < value_be ds2)%Z ->
  String.compare (numeral ds1) (numeral ds2) = Lt.
Proof.
  induction ds1 as [|d1 ds1 IH]; intros [|d2 ds2] H1 H2 Hlen Hlt;
    simpl in Hlen; try discriminate.
  inversion H1 as [|? ? Hd1 Hr1]; subst. inversion H2 as [|? ? Hd2 Hr2]; subst.
  injection Hlen as Hlen.
  pose proof (value_be_bound _ Hr1) as B1. pose proof (value_be_bound _ Hr2) as B2.
  simpl in Hlt. rewrite Hlen in *.
  rewrite !numeral_cons, compare_cons, digit_char_compare by done.
  destruct (Z.compare_spec d1 d2) as [->|Hc|Hc].
  - apply IH; try done. lia.
  - done.
  - exfalso. unfold is_digit in *. nia.
Qed.

Lemma numeral_app ds1 ds2 : numeral (ds1 ++ ds2) = numeral ds1 +:+ numeral ds2.
Proof.
  induction ds1 as [|d ds1 IH]; [done|].
  change ((d :: ds1) ++ ds2) with (d :: (ds1 ++ ds2)).
  rewrite !numeral_cons, IH. reflexivity.
Qed.

Lemma zeros_numeral k : Py.zeros k = numeral (replicate k 0%Z).
Proof.
  unfold Py.zeros, numeral. f_equal.
  induction k as [|k IH]; [done|].
  change (replicate (S k) ?x) with (x :: replicate k x).
  rewrite IH. reflexivity.
Qed.

(** Padding a non-negative number that fits: zeros, then its digits. *)
Lemma zfill_str n w :
  (0 <= n)%Z -> (length (digits_be n) <= w)%nat ->
  Py.zfill (Py.str n) w
  = numeral (replicate (w - length (digits_be n)) 0%Z ++ digits_be n).
Proof.
  intros Hn Hw.
  assert (Hstr : Py.str n = numeral (digits_be n)).
  { unfold Py.str. destruct (Z.ltb_spec n 0); [lia|]. apply digits_numeral. }
  destruct (digits_be_spec n Hn) as (Hd & _ & _ & L & HL & _).
  unfold Py.zfill. rewrite Hstr, length_numeral.
  destruct (Nat.leb_spec w (length (digits_be n))) as [Hle|Hgt].
  - by replace (w - length (digits_be n))%nat with 0%nat by lia.
  - rewrite numeral_app, <- zeros_numeral.
    destruct (digits_be n) as [|d ds] eqn:E; [discriminate|].
    inversion Hd; subst. rewrite numeral_cons.
    by rewrite digit_char_not_sign.
Qed.

Lemma enumerate_lookup {A} (l : list A) : forall start i,
  Py.enumerate start l !! i = (fun x => ((start + Z.of_nat i)%Z, x)) <$> l !! i.
Proof.
  induction l as [|x l IH]; intros start [|i]; simpl; try done.
  - by rewrite Z.add_0_r.
  - rewrite IH. destruct (l !! i); simpl; [|done]. do 2 f_equal. lia.
Qed.

Lemma enumerate_length {A} (l : list A) start : length (Py.enumerate start l) = length l.
Proof. revert start. induction l; intros; simpl; congruence. Qed.

(** The padding width that [enumerate_chunks] computes. *)
Lemma total_digits_width (chunks : list string) :
  match chunks with
  | [] => 4%nat
  | _ => Nat.max 4 (Py.ceil_log10 (Z.of_nat (length chunks) + 1))
  end = Nat.max 4 (String.length (Py.str (Z.of_nat (length chunks)))).
Proof.
  destruct chunks as [|c chunks]; [reflexivity|].
  rewrite ceil_log10_succ_digits; [done|]. simpl length. lia.
Qed.

(** C8: [enumerate_chunks] gives one identifier per chunk; the [i]-th
    (counting from 0) is the prefix, a hyphen and the ordinal [i + 1]
    padded with zeros to the width [max(4, digits of the chunk count)],
    which every padded ordinal has exactly; the identifiers are pairwise
    distinct and, for the fixed prefix, strictly increasing in
    lexicographic order along the list; no chunk gives no identifier. *)
Theorem enumerate_chunks_ids (chunks : list string) (prefix : string) :
  let n := length chunks in
  let ids := enumerate_chunks chunks prefix in
  let width := Nat.max 4 (String.length (Py.str (Z.of_nat n))) in
  let padded := fun i : nat => Py.zfill (Py.str (Z.of_nat (S i))) width in
  length ids = n /\
  (forall i : nat, (i < n)%nat ->
     ids !! i = Some (prefix +:+ "-" +:+ padded i) /\
     padded i = Py.zeros (width - String.length (Py.str (Z.of_nat (S i))))
                +:+ Py.str (Z.of_nat (S i)) /\
     String.length (padded i) = width) /\
  NoDup ids /\
  (forall (i j : nat) (x y : string),
     (i < j)%nat -> ids !! i = Some x -> ids !! j = Some y ->
     String.compare x y = Lt) /\
  (chunks = [] -> ids = []).
Proof.
  intros n ids width padded.
  assert (Hids : forall i, (i < n)%nat ->
            ids !! i = Some (prefix +:+ "-" +:+ padded i)).
  { intros i Hi. unfold ids, enumerate_chunks.
    rewrite total_digits_width. fold n width.
    change (map ?f ?l) with (f <$> l).
    rewrite list_lookup_fmap, enumerate_lookup.
    destruct (lookup_lt_is_Some_2 chunks i Hi) as [c ->]. simpl.
    unfold padded. do 5 f_equal. lia. }
  assert (Hlenids : length ids = n).
  { unfold ids, enumerate_chunks. by rewrite length_map, enumerate_length. }
  assert (Hfit : forall i, (i < n)%nat ->
            (length (digits_be (Z.of_nat (S i))) <= width)%nat).
  { intros i Hi. unfold width. rewrite length_str by lia.
    pose proof (length_digits_mono (Z.of_nat (S i)) (Z.of_nat n) ltac:(lia)). lia. }
  assert (Hnum : forall i, (i < n)%nat ->
            padded i = numeral (replicate (width - length (digits_be (Z.of_nat (S i)))) 0%Z
                                ++ digits_be (Z.of_nat (S i)))).
  { intros i Hi. unfold padded. apply zfill_str; [lia|by apply Hfit]. }
  assert (Hord : forall i j x y, (i < j)%nat ->
            ids !! i = Some x -> ids !! j = Some y -> String.compare x y = Lt).
  { intros i j x y Hij Hx Hy.
    assert (Hj : (j < n)%nat) by (rewrite <- Hlenids; by eapply lookup_lt_Some).
    rewrite Hids in Hx, Hy by lia. injection Hx as <-. injection Hy as <-.
    rewrite !compare_app_prefix, !Hnum by lia.
    destruct (digits_be_spec (Z.of_nat (S i)) ltac:(lia)) as (Hdi & Hvi & _).
    destruct (digits_be_spec (Z.of_nat (S j)) ltac:(lia)) as (Hdj & Hvj & _).
    pose proof (Hfit i ltac:(lia)). pose proof (Hfit j Hj).
    apply numeral_compare.
    - apply Forall_app; split; [|done]. apply Forall_replicate. unfold is_digit. lia.
    - apply Forall_app; split; [|done]. apply Forall_replicate. unfold is_digit. lia.
    - rewrite !length_app, !length_replicate. lia.
    - rewrite !value_be_zeros, Hvi, Hvj. lia. }
  split; [done|]. split.
  { intros i Hi. split; [by apply Hids|].
    pose proof (Hfit i Hi) as Hw.
    rewrite Hnum by done. rewrite numeral_app, <- zeros_numeral.
    rewrite length_str by lia. unfold Py.str.
    destruct (Z.ltb_spec (Z.of_nat (S i)) 0); [lia|]. rewrite digits_numeral.
    split; [done|].
    rewrite zeros_numeral, <- numeral_app, length_numeral, length_app, length_replicate.
    lia. }
  split.
  { apply NoDup_alt. intros i j x Hx Hy.
    destruct (Nat.lt_total i j) as [Hlt|[Heq|Hgt]]; [|done|].
    - pose proof (Hord i j x x Hlt Hx Hy) as Hc.
      assert (String.compare x x = Eq) as Hr; [|congruence].
      clear. induction x as [|c x IH]; simpl; [done|]. by rewrite ascii_compare_refl.
    - pose proof (Hord j i x x Hgt Hy Hx) as Hc.
      assert (String.compare x x = Eq) as Hr; [|congruence].
      clear. induction x as [|c x IH]; simpl; [done|]. by rewrite ascii_compare_refl. }
  split; [done|].
  intros ->. reflexivity.
Qed.

Lemma enumerate_chunks_ids_witness :
  enumerate_chunks ["a"; "b"; "c"] "doc" !! 1%nat = Some "doc-0002" /\
  String.compare "doc-0001" "doc-0003" = Lt.
Proof.
  destruct (enumerate_chunks_ids ["a"; "b"; "c"] "doc") as (_ & Hid & _ & Hord & _).
  split.
  - assert (H : (1 < 3)%nat) by lia. exact (proj1 (Hid 1%nat H)).
  - assert (H : (0 < 2)%nat) by lia. apply (Hord 0%nat 2%nat); [exact H| |]; reflexivity.
Defined.

(** The padding-width boundaries: the last identifier for 1, 9, 10, 9999
    and 10000 chunks. *)
Lemma enumerate_chunks_boundaries :
  last (enumerate_chunks (replicate 1 "c") "d") = Some "d-0001" /\
  last (enumerate_chunks (replicate 9 "c") "d") = Some "d-0009" /\
  last (enumerate_chunks (replicate 10 "c") "d") = Some "d-0010" /\
  last (enumerate_chunks (replicate (Z.to_nat 9999) "c") "d") = Some "d-9999" /\
  head (enumerate_chunks (replicate (Z.to_nat 9999) "c") "d") = Some "d-0001" /\
  last (enumerate_chunks (replicate (Z.to_nat 10000) "c") "d") = Some "d-10000" /\
  head (enumerate_chunks (replicate (Z.to_nat 10000) "c") "d") = Some "d-00001".
Proof. repeat split; vm_compute; reflexivity. Qed.

End enumerate_chunks.

(** ** The order NumPy sorts by *)

Section np_order.
Import spec.

(** [np.eps] is the [float32] nearest to 10^-10: a 24-bit mantissa, and
    within half a unit in the last place (2^-58) of the decimal value. *)
Lemma eps_nearest :
  (2 ^ 23 <= 14411519 < 2 ^ 24)%Z /\
  (2 * Z.abs (14411519 * 10 ^ 10 - 2 ^ 57) <= 10 ^ 10)%Z /\
  np.eps = S754_finite false 14411519 (-57).
Proof. repeat split; vm_compute; congruence. Qed.

(** In [float32], adding [np.eps] to the norm of a unit vector changes
    nothing, and the similarity of a unit vector with itself is 1. *)
Lemma unit_similarity :
  np.add np.one np.eps = np.one /\
  cosine [np.one; np.zero] [np.one; np.zero] = np.one.
Proof. split; vm_compute; reflexivity. Qed.

(** The test [embeddings.ndim != 2] is the match on [np.Nd2]. *)
Lemma ndim_2 (a : np.ndarray) : np.ndim a = 2%nat <-> exists m, a = np.Nd2 m.
Proof.
  destruct a as [x|v|m|extra]; simpl; split; try done; try lia;
    try (intros [m' [=]]); by eexists.
Qed.

Ltac split_compares :=
  repeat match goal with
         | |- context [Pos.compare_cont Eq ?a ?b] =>
             change (Pos.compare_cont Eq a b) with (Pos.compare a b)
         end;
  repeat match goal with
         | |- context [Z.compare ?a ?b] => destruct (Z.compare_spec a b)
         | |- context [Pos.compare ?a ?b] => destruct (Pos.compare_spec a b)
         end;
  simpl.

Lemma less_rank (a b : np.float32) :
  np.less a b = true <-> lex_lt (rank a) (rank b).
Proof.
  unfold np.less, SFltb, SFeqb, lex_lt.
  destruct a as [[]|[]| |[] ma ea], b as [[]|[]| |[] mb eb]; simpl;
    split_compares; split; intros; try done; lia.
Qed.

Lemma less_false_rank (a b : np.float32) :
  np.less a b = false <-> ~ lex_lt (rank a) (rank b).
Proof. rewrite <- less_rank. destruct (np.less a b); naive_solver. Qed.

Lemma less_irrefl a : np.less a a = false.
Proof. apply less_false_rank. unfold lex_lt. lia. Qed.

Lemma less_trans a b c :
  np.less a b = true -> np.less b c = true -> np.less a c = true.
Proof. rewrite !less_rank. unfold lex_lt. lia. Qed.

Lemma less_negtrans a b c :
  np.less a b = false -> np.less b c = false -> np.less a c = false.
Proof. rewrite !less_false_rank. unfold lex_lt. lia. Qed.

(** Not less in NumPy's order: not less as numbers either, and either a
    NaN or at least as large. *)
Lemma less_false_ieee a b :
  np.less a b = false ->
  SFltb a b = false /\ (is_nan a = true \/ SFleb b a = true).
Proof.
  unfold np.less, SFltb, SFeqb, SFleb.
  destruct a as [[]|[]| |[] ma ea], b as [[]|[]| |[] mb eb]; simpl;
    split_compares; intros; try lia; try done; (split; [done|auto]).
Qed.

(** Equal as numbers: neither is less in NumPy's order. *)
Lemma eqb_not_less a b :
  SFeqb a b = true -> np.less a b = false /\ np.less b a = false.
Proof.
  unfold np.less, SFltb, SFeqb.
  destruct a as [[]|[]| |[] ma ea], b as [[]|[]| |[] mb eb]; simpl;
    split_compares; intros; try lia; try done.
Qed.

End np_order.

(** ** Stable insertion sort and [argsort] *)

Section stable_sort.
Import spec.
Context {K : Type} (ltb : K -> K -> bool).
Hypothesis ltb_trans : forall a b c, ltb a b = true -> ltb b c = true -> ltb a c = true.
Hypothesis ltb_negtrans :
  forall a b c, ltb a b = false -> ltb b c = false -> ltb a c = false.

#[local] Abbreviation R := (stable_before ltb).

Lemma insert_by_perm (x : nat * K) (l : list (nat * K)) :
  np.insert_by ltb x l ≡ₚ x :: l.
Proof.
  induction l as [|y l IH]; simpl; [done|].
  destruct (ltb x.2 y.2); [done|]. rewrite IH. apply perm_swap.
Qed.

Lemma stable_before_lt_l (x y z : nat * K) :
  ltb x.2 y.2 = true -> R y z -> R x z.
Proof.
  intros Hxy [Hyz|[Hzy _]]; left.
  - by eapply ltb_trans.
  - destruct (ltb x.2 z.2) eqn:E; [done|].
    by rewrite (ltb_negtrans _ _ _ E Hzy) in Hxy.
Qed.

Lemma insert_by_sorted (x : nat * K) (l : list (nat * K)) :
  StronglySorted R l ->
  Forall (fun y => (y.1 < x.1)%nat) l ->
  StronglySorted R (np.insert_by ltb x l).
Proof.
  induction l as [|y l IH]; intros Hs Hidx; simpl.
  - repeat constructor.
  - apply StronglySorted_cons in Hs as [Hy Hs].
    apply Forall_cons in Hidx as [Hyx Hidx].
    destruct (ltb x.2 y.2) eqn:E.
    + apply StronglySorted_cons. split.
      * constructor; [by left|].
        eapply Forall_impl; [exact Hy|]. intros z Hz. by eapply stable_before_lt_l.
      * by apply StronglySorted_cons.
    + apply StronglySorted_cons. split; [|by apply IH].
      rewrite insert_by_perm. constructor; [|done]. by right.
Qed.

Lemma isort_from (l : list (nat * K)) : forall acc,
  StronglySorted R acc ->
  StronglySorted (fun x y => (x.1 < y.1)%nat) l ->
  Forall (fun a => Forall (fun x => (a.1 < x.1)%nat) l) acc ->
  let out := fold_left (fun acc x => np.insert_by ltb x acc) l acc in
  StronglySorted R out /\ out ≡ₚ acc ++ l.
Proof.
  induction l as [|x l IH]; intros acc Hacc Hl Hsep; simpl.
  - by rewrite app_nil_r.
  - apply StronglySorted_cons in Hl as [Hx Hl].
    destruct (IH (np.insert_by ltb x acc)) as [Hs Hp].
    + apply insert_by_sorted; [done|].
      eapply Forall_impl; [exact Hsep|]. intros a Ha. by apply Forall_cons in Ha as [? _].
    + done.
    + rewrite insert_by_perm. constructor; [done|].
      eapply Forall_impl; [exact Hsep|]. intros a Ha. by apply Forall_cons in Ha as [_ ?].
    + split; [done|]. rewrite Hp, insert_by_perm.
      by rewrite <- Permutation_middle.
Qed.

Lemma isort_sorted (l : list (nat * K)) :
  StronglySorted (fun x y => (x.1 < y.1)%nat) l ->
  StronglySorted R (np.isort ltb l) /\ np.isort ltb l ≡ₚ l.
Proof.
  intros Hl. destruct (isort_from l [] (SSorted_nil _) Hl (Forall_nil_2 _)) as [Hs Hp].
  done.
Qed.

End stable_sort.

Section argsort.
Import spec.

Lemma StronglySorted_lookup {A} (R : relation A) (l : list A) :
  StronglySorted R l ->
  forall p q x y, (p < q)%nat -> l !! p = Some x -> l !! q = Some y -> R x y.
Proof.
  induction 1 as [|a l Hs IH Ha]; intros p q x y Hpq Hp Hq; [done|].
  destruct q as [|q]; [lia|]. simpl in Hq.
  destruct p as [|p]; simpl in Hp.
  - injection Hp as <-. rewrite Forall_forall in Ha. apply Ha.
    by eapply list_elem_of_lookup_2.
  - eapply (IH p q); [lia|done|done].
Qed.

Lemma zip_seq_index_sorted {K} (v : list K) : forall s,
  StronglySorted (fun x y : nat * K => (x.1 < y.1)%nat) (zip (seq s (length v)) v) /\
  Forall (fun x : nat * K => (s <= x.1)%nat) (zip (seq s (length v)) v).
Proof.
  induction v as [|a v IH]; intros s; simpl; [by repeat constructor|].
  destruct (IH (S s)) as [Hs Hf]. split.
  - constructor; [done|]. eapply Forall_impl; [exact Hf|]. simpl. intros; lia.
  - constructor; [simpl; lia|]. eapply Forall_impl; [exact Hf|]. simpl. intros; lia.
Qed.

Lemma elem_of_zip_seq {K} (v : list K) (i : nat) (a : K) :
  (i, a) ∈ zip (seq 0 (length v)) v -> v !! i = Some a.
Proof.
  intros Hin. apply list_elem_of_lookup in Hin as [p Hp].
  apply lookup_zip_with_Some in Hp as (i' & a' & [= <- <-] & Hi & Ha).
  apply lookup_seq in Hi as [-> _]. done.
Qed.

(** The sorted (index, value) pairs behind [argsort]. *)
Lemma argsort_pairs (v : list np.float32) :
  let pairs := np.isort np.less (zip (seq 0 (length v)) v) in
  StronglySorted (stable_before np.less) pairs /\
  pairs ≡ₚ zip (seq 0 (length v)) v.
Proof.
  apply isort_sorted.
  - apply less_trans.
  - apply less_negtrans.
  - apply zip_seq_index_sorted.
Qed.

Lemma argsort_perm (v : list np.float32) : np.argsort v ≡ₚ seq 0 (length v).
Proof.
  unfold np.argsort. destruct (argsort_pairs v) as [_ Hp].
  rewrite Hp. by rewrite fst_zip by (rewrite length_seq; lia).
Qed.

Lemma argsort_length (v : list np.float32) : length (np.argsort v) = length v.
Proof. by rewrite argsort_perm, length_seq. Qed.

Lemma argsort_NoDup (v : list np.float32) : NoDup (np.argsort v).
Proof. rewrite argsort_perm. apply NoDup_seq. Qed.

Lemma argsort_lt (v : list np.float32) (p i : nat) :
  np.argsort v !! p = Some i -> (i < length v)%nat.
Proof.
  intros Hp. apply list_elem_of_lookup_2 in Hp. rewrite argsort_perm in Hp.
  apply elem_of_seq in Hp. lia.
Qed.

(** [argsort] is ascending and stable: of two positions in its output,
    the earlier holds the smaller value, or the smaller index when
    neither value is less than the other. *)
Lemma argsort_order (v : list np.float32) (p q i j : nat) (a b : np.float32) :
  (p < q)%nat ->
  np.argsort v !! p = Some i -> np.argsort v !! q = Some j ->
  v !! i = Some a -> v !! j = Some b ->
  stable_before np.less (i, a) (j, b).
Proof.
  intros Hpq Hp Hq Ha Hb. unfold np.argsort in Hp, Hq.
  destruct (argsort_pairs v) as [Hs Hperm]. simpl in Hs, Hperm.
  rewrite list_lookup_fmap in Hp, Hq.
  destruct (np.isort np.less (zip (seq 0 (length v)) v) !! p) as [[i' a']|] eqn:Ep;
    [|done].
  destruct (np.isort np.less (zip (seq 0 (length v)) v) !! q) as [[j' b']|] eqn:Eq;
    [|done].
  simpl in Hp, Hq. injection Hp as ->. injection Hq as ->.
  assert (v !! i = Some a') as Ha'.
  { apply elem_of_zip_seq. rewrite <- Hperm. by eapply list_elem_of_lookup_2. }
  assert (v !! j = Some b') as Hb'.
  { apply elem_of_zip_seq. rewrite <- Hperm. by eapply list_elem_of_lookup_2. }
  assert (a' = a) as -> by congruence. assert (b' = b) as -> by congruence.
  by eapply (StronglySorted_lookup _ _ Hs p q).
Qed.

End argsort.

(** ** Retrieval *)

Section search.
Import models vector_store spec.

Lemma similarities_lookup (m : np.matrix) (q : list np.float32) (i : nat) :
  similarities m q !! i = (fun row => cosine row q) <$> np.rows m !! i.
Proof.
  unfold similarities. rewrite lookup_zip_with.
  change (map ?f ?l) with (f <$> l). rewrite <- !list_fmap_compose, !list_lookup_fmap.
  by destruct (np.rows m !! i).
Qed.

Lemma similarities_length (m : np.matrix) (q : list np.float32) :
  length (similarities m q) = length (np.rows m).
Proof.
  unfold similarities. rewrite length_zip_with, !length_map. lia.
Qed.

Lemma slice_to_take {A} (l : list A) (hi : Z) :
  Py.slice_to l hi = take (kept (length l) hi) l.
Proof.
  unfold Py.slice_to, Py.slice, kept.
  replace (Py.clamp (Z.of_nat (length l)) 0) with 0%Z by (unfold Py.clamp; simpl; lia).
  simpl. by rewrite Z.sub_0_r.
Qed.

Lemma top_indices_take (sims : list np.float32) (top_k : Z) :
  top_indices sims top_k = take (kept (length sims) top_k) (reverse (np.argsort sims)).
Proof.
  unfold top_indices. rewrite slice_to_take. by rewrite length_reverse, argsort_length.
Qed.

Lemma top_indices_length (sims : list np.float32) (top_k : Z) :
  length (top_indices sims top_k) = kept (length sims) top_k.
Proof.
  rewrite top_indices_take, length_take, length_reverse, argsort_length.
  unfold kept, Py.clamp. destruct (Z.ltb_spec top_k 0); lia.
Qed.

Lemma top_indices_lookup (sims : list np.float32) (top_k : Z) (p i : nat) :
  top_indices sims top_k !! p = Some i ->
  (p < length sims)%nat /\ np.argsort sims !! (length sims - S p)%nat = Some i.
Proof.
  rewrite top_indices_take. intros Hp.
  apply lookup_take_Some in Hp as [Hp _].
  pose proof (lookup_lt_Some _ _ _ Hp) as Hlt.
  rewrite length_reverse, argsort_length in Hlt.
  rewrite reverse_lookup in Hp by (rewrite argsort_length; lia).
  by rewrite argsort_length in Hp.
Qed.

Lemma top_indices_lt (sims : list np.float32) (top_k : Z) (p i : nat) :
  top_indices sims top_k !! p = Some i -> (i < length sims)%nat.
Proof. intros Hp. apply top_indices_lookup in Hp as [_ Hp]. by eapply argsort_lt. Qed.

Lemma top_indices_NoDup (sims : list np.float32) (top_k : Z) :
  NoDup (top_indices sims top_k).
Proof.
  rewrite top_indices_take. eapply sublist_NoDup; [|apply sublist_take].
  rewrite reverse_Permutation. apply argsort_NoDup.
Qed.

(** In [top_indices] the later of two positions holds the pair that a
    stable ascending sort puts first. *)
Lemma top_indices_order (sims : list np.float32) (top_k : Z)
    (p p' i j : nat) (a b : np.float32) :
  (p < p')%nat ->
  top_indices sims top_k !! p = Some i -> top_indices sims top_k !! p' = Some j ->
  sims !! i = Some a -> sims !! j = Some b ->
  stable_before np.less (j, b) (i, a).
Proof.
  intros Hpp Hp Hp' Ha Hb.
  apply top_indices_lookup in Hp as [Hlt Hp]. apply top_indices_lookup in Hp' as [Hlt' Hp'].
  eapply (argsort_order sims (length sims - S p') (length sims - S p)); try done. lia.
Qed.

Lemma top_indices_full (sims : list np.float32) :
  top_indices sims (Z.of_nat (length sims)) = reverse (np.argsort sims).
Proof.
  rewrite top_indices_take. apply take_ge.
  rewrite length_reverse, argsort_length. unfold kept, Py.clamp.
  destruct (Z.ltb_spec (Z.of_nat (length sims)) 0); lia.
Qed.

Lemma stable_before_not_less (i j : nat) (a b : np.float32) :
  stable_before np.less (j, b) (i, a) -> np.less a b = false.
Proof.
  intros [Hlt|[Hnl _]]; simpl in *; [|done].
  destruct (np.less a b) eqn:E; [|done].
  pose proof (less_trans _ _ _ Hlt E) as Hbb. by rewrite less_irrefl in Hbb.
Qed.

(** No index left out of [top_indices] has a value above one that is
    in. *)
Lemma top_indices_best (sims : list np.float32) (top_k : Z) (i j : nat)
    (a b : np.float32) :
  i ∈ top_indices sims top_k -> j ∉ top_indices sims top_k ->
  sims !! i = Some a -> sims !! j = Some b ->
  np.less a b = false.
Proof.
  intros Hi Hj Ha Hb.
  apply list_elem_of_lookup in Hi as [p Hp].
  assert (Hjn : j ∈ reverse (np.argsort sims)).
  { rewrite reverse_Permutation, argsort_perm. apply elem_of_seq.
    apply lookup_lt_Some in Hb. lia. }
  apply list_elem_of_lookup in Hjn as [q Hq].
  rewrite top_indices_take in Hp, Hj.
  apply lookup_take_Some in Hp as [Hp Hpm].
  assert (Hqm : (kept (length sims) top_k <= q)%nat).
  { destruct (Nat.le_gt_cases (kept (length sims) top_k) q) as [|Hlt]; [done|].
    exfalso. apply Hj. apply list_elem_of_lookup. exists q.
    by rewrite lookup_take_lt. }
  rewrite <- top_indices_full in Hp, Hq.
  eapply (stable_before_not_less i j).
  eapply (top_indices_order sims _ p q); try done. lia.
Qed.

(** The comprehension succeeds when every index is in range, and pairs
    each index with the chunk and similarity stored there. *)
Lemma results_of_spec (chunks : list DocumentChunk.t) (sims : list np.float32)
    (indices : list nat) :
  length chunks = length sims ->
  Forall (fun idx => (idx < length sims)%nat) indices ->
  exists rs,
    results_of chunks sims indices = inr rs /\
    Forall2 (fun idx r => chunks !! idx = Some (SearchResult.chunk r) /\
                          sims !! idx = Some (SearchResult.score r)) indices rs.
Proof.
  intros Hlen. induction 1 as [|idx indices Hidx _ [rs [IH1 IH2]]]; cbn [results_of].
  - exists []. by split; [|constructor].
  - destruct (lookup_lt_is_Some_2 chunks idx ltac:(lia)) as [c Hc].
    destruct (lookup_lt_is_Some_2 sims idx Hidx) as [x Hx].
    rewrite Hc, Hx, IH1. eexists. split; [done|]. by constructor.
Qed.

Lemma results_of_take (chunks : list DocumentChunk.t) (sims : list np.float32)
    (indices : list nat) (rs : list SearchResult.t) (m : nat) :
  results_of chunks sims indices = inr rs ->
  results_of chunks sims (take m indices) = inr (take m rs).
Proof.
  revert rs m. induction indices as [|idx indices IH]; intros rs m; cbn [results_of].
  - intros [= <-]. by destruct m.
  - destruct (chunks !! idx) as [c|] eqn:Ec; [|done].
    destruct (sims !! idx) as [x|] eqn:Ex; [|by destruct c].
    destruct (results_of chunks sims indices) as [e|rs'] eqn:Er; [done|].
    intros [= <-]. destruct m as [|m]; cbn [take results_of]; [done|].
    by rewrite Ec, Ex, (IH rs' m eq_refl).
Qed.

(** [search] on an aligned, non-empty store with a well-shaped query. *)
Lemma search_aligned (self : VectorStore) (doc_vectors : np.matrix) (query : string)
    (embedder : EmbeddingBackend) (query_vec : list np.float32) (top_k : Z) :
  aligned self doc_vectors -> (1 <= length (_chunks self))%nat ->
  embeds_as embedder query doc_vectors query_vec ->
  search self query embedder top_k
  = results_of (_chunks self) (similarities doc_vectors query_vec)
               (top_indices (similarities doc_vectors query_vec) top_k).
Proof.
  intros [Hemb Hlen] Hn (m & Hq & Hrows & Hw). unfold search.
  destruct (_chunks self) as [|c cs] eqn:Ec; [simpl in Hn; lia|].
  rewrite Hemb, Hq, Hrows, Hw, Nat.eqb_refl. done.
Qed.

(** The results of [search], position by position. *)
Lemma search_results (self : VectorStore) (doc_vectors : np.matrix) (query : string)
    (embedder : EmbeddingBackend) (query_vec : list np.float32) (top_k : Z) :
  aligned self doc_vectors -> (1 <= length (_chunks self))%nat ->
  embeds_as embedder query doc_vectors query_vec ->
  let indices := top_indices (similarities doc_vectors query_vec) top_k in
  exists results,
    search self query embedder top_k = inr results /\
    Forall2 (result_at self query_vec) indices results.
Proof.
  intros Hal Hn Hq indices.
  rewrite (search_aligned _ _ _ _ _ _ Hal Hn Hq). destruct Hal as [Hemb Hlen].
  destruct (results_of_spec (_chunks self) (similarities doc_vectors query_vec) indices)
    as (rs & Hrs & Hall).
  - by rewrite similarities_length.
  - apply Forall_forall. intros idx Hin. apply list_elem_of_lookup in Hin as [p Hp].
    by eapply top_indices_lt.
  - exists rs. split; [done|].
    eapply Forall2_impl; [exact Hall|]. intros idx r [Hc Hs].
    rewrite similarities_lookup in Hs.
    destruct (np.rows doc_vectors !! idx) as [row|] eqn:Er; [|done].
    exists row. unfold stored_row. rewrite Hemb. split; [done|]. split; [done|].
    simpl in Hs. congruence.
Qed.

Lemma result_at_similarity (self : VectorStore) (doc_vectors : np.matrix)
    (query_vec : list np.float32) (idx : nat) (r : SearchResult.t) :
  aligned self doc_vectors -> result_at self query_vec idx r ->
  similarities doc_vectors query_vec !! idx = Some (SearchResult.score r).
Proof.
  intros [Hemb _] (row & _ & Hrow & ->). unfold stored_row in Hrow. rewrite Hemb in Hrow.
  by rewrite similarities_lookup, Hrow.
Qed.

Lemma kept_positive (n : nat) (top_k : Z) :
  (1 <= top_k)%Z -> kept n top_k = Nat.min (Z.to_nat top_k) n.
Proof. intros H. unfold kept, Py.clamp. destruct (Z.ltb_spec top_k 0); lia. Qed.

Lemma kept_negative (n : nat) (top_k : Z) :
  (top_k < 0)%Z -> kept n top_k = Z.to_nat (Z.of_nat n + top_k).
Proof. intros H. unfold kept, Py.clamp. destruct (Z.ltb_spec top_k 0); lia. Qed.

(** C1: on a store of [n >= 1] chunks aligned with its rows, with the
    query embedded as one row of the stored width and [top_k >= 1],
    [search] returns [min(top_k, n)] results; each is a stored chunk with
    the similarity [(row . query) / ((norm(row) + 1e-10) * (norm(query) +
    1e-10))] of its row, no chunk twice; the scores never increase along
    the results (no score is less than a later one; it is at least as
    large, or a NaN), and no chunk left out scores above a returned one;
    with [top_k >= n] all [n] chunks come back.  For
    the stored vectors [1,0], [0,1], [-1,0] and the query [1,0],
    [top_k = 2] gives the first then the second chunk, with scores 1 and
    0, and [top_k = 5] gives all three in that order. *)
Theorem search_ranking :
  (forall (self : VectorStore) (doc_vectors : np.matrix) (query : string)
          (embedder : EmbeddingBackend) (query_vec : list np.float32) (top_k : Z),
     aligned self doc_vectors -> (1 <= length (_chunks self))%nat ->
     embeds_as embedder query doc_vectors query_vec -> (1 <= top_k)%Z ->
     let n := length (_chunks self) in
     exists (results : list SearchResult.t) (indices : list nat),
       search self query embedder top_k = inr results /\
       length results = Nat.min (Z.to_nat top_k) n /\
       Forall2 (result_at self query_vec) indices results /\
       NoDup indices /\
       ((Z.of_nat n <= top_k)%Z -> indices ≡ₚ seq 0 n) /\
       (forall (p p' : nat) (r r' : SearchResult.t),
          (p < p')%nat -> results !! p = Some r -> results !! p' = Some r' ->
          SFltb (SearchResult.score r) (SearchResult.score r') = false /\
          (is_nan (SearchResult.score r) = true \/
           SFleb (SearchResult.score r') (SearchResult.score r) = true)) /\
       (forall (r : SearchResult.t) (idx : nat) (row : list np.float32),
          r ∈ results -> idx ∉ indices -> stored_row self idx = Some row ->
          SFltb (SearchResult.score r) (cosine row query_vec) = false /\
          (is_nan (SearchResult.score r) = true \/
           SFleb (cosine row query_vec) (SearchResult.score r) = true))) /\
  search examples.unit_store "q" examples.unit_embedder 2
  = inr [SearchResult.mk examples.chunk_a np.one;
         SearchResult.mk examples.chunk_b np.zero] /\
  search examples.unit_store "q" examples.unit_embedder 5
  = inr [SearchResult.mk examples.chunk_a np.one;
         SearchResult.mk examples.chunk_b np.zero;
         SearchResult.mk examples.chunk_c np.minus_one].
Proof.
  split; [|split; vm_compute; reflexivity].
  intros self doc_vectors query embedder query_vec top_k Hal Hn Hq Hk n.
  set (sims := similarities doc_vectors query_vec).
  destruct (search_results self doc_vectors query embedder query_vec top_k Hal Hn Hq)
    as (results & Hsearch & Hall).
  fold sims in Hall.
  assert (Hsl : length sims = n).
  { unfold sims. rewrite similarities_length. by destruct Hal as [_ <-]. }
  exists results, (top_indices sims top_k).
  split; [done|]. split.
  { rewrite <- (Forall2_length _ _ _ Hall), top_indices_length, Hsl.
    by apply kept_positive. }
  split; [done|]. split; [apply top_indices_NoDup|]. split.
  { intros Hge. rewrite top_indices_take, Hsl, kept_positive by done.
    rewrite take_ge by (rewrite length_reverse, argsort_length; lia).
    by rewrite reverse_Permutation, argsort_perm, Hsl. }
  split.
  { intros p p' r r' Hpp Hr Hr'.
    destruct (Forall2_lookup_r _ _ _ _ _ Hall Hr) as (i & Hi & Hri).
    destruct (Forall2_lookup_r _ _ _ _ _ Hall Hr') as (j & Hj & Hrj).
    apply less_false_ieee. eapply (stable_before_not_less i j).
    eapply (top_indices_order sims top_k p p' i j); try done.
    - by eapply result_at_similarity.
    - by eapply result_at_similarity. }
  intros r idx row Hr Hidx Hrow.
  apply list_elem_of_lookup in Hr as [p Hr].
  destruct (Forall2_lookup_r _ _ _ _ _ Hall Hr) as (i & Hi & Hri).
  apply less_false_ieee. eapply (top_indices_best sims top_k i idx); try done.
  - by eapply list_elem_of_lookup_2.
  - by eapply result_at_similarity.
  - unfold sims. rewrite similarities_lookup. unfold stored_row in Hrow.
    destruct Hal as [Hemb _]. rewrite Hemb in Hrow. by rewrite Hrow.
Qed.

Lemma search_ranking_witness :
  exists results,
    search examples.unit_store "q" examples.unit_embedder 2 = inr results /\
    length results = 2%nat.
Proof.
  assert (Hal : aligned examples.unit_store examples.unit_rows) by (split; reflexivity).
  assert (Hn : (1 <= length (_chunks examples.unit_store))%nat) by (simpl; lia).
  assert (Hq : embeds_as examples.unit_embedder "q" examples.unit_rows [np.one; np.zero]).
  { eexists. split; [reflexivity|]. split; reflexivity. }
  assert (Hk : (1 <= 2)%Z) by lia.
  destruct (proj1 search_ranking examples.unit_store examples.unit_rows "q"
              examples.unit_embedder [np.one; np.zero] 2%Z Hal Hn Hq Hk)
    as (results & indices & Hs & Hlen & _).
  exists results. split; [exact Hs|exact Hlen].
Defined.

(** Where the NaN clause of the ordering matters: a row and a query whose
    squares overflow give the similarity inf / inf, a NaN, and [search]
    ranks it first. *)
Lemma search_nan_first :
  search examples.overflow_store "q" examples.huge_embedder 2
  = inr [SearchResult.mk examples.chunk_a S754_nan;
         SearchResult.mk examples.chunk_b np.zero].
Proof. vm_compute. reflexivity. Qed.









(** C7, at the failing input: the claim has [search] return the empty
    sequence for every [top_k <= 0]; with [top_k = -1] on a store of three
    chunks the slice [[:top_k]] drops only the last entry of the ranking
    and [search] returns two results. *)
Lemma search_negative_top_k_counterexample :
  search examples.unit_store "q" examples.unit_embedder (-1)
  = inr [SearchResult.mk examples.chunk_a np.one;
         SearchResult.mk examples.chunk_b np.zero].
Proof. vm_compute. reflexivity. Qed.

(** X29: what the slice [[:top_k]] gives for [top_k <= 0].  A store
    without chunks (or without embeddings) returns the empty sequence for
    every [top_k].  A store with as many rows as chunks, [n >= 1], and a
    query embedded as one row of the stored width returns the empty
    sequence for [top_k = 0], and for [top_k < 0] the full ranking without
    its last [-top_k] entries, that is its first [max(0, n + top_k)]
    entries. *)
Theorem search_nonpositive_top_k :
  (forall (self : VectorStore) (query : string) (embedder : EmbeddingBackend) (top_k : Z),
     _chunks self = [] \/ _embeddings self = None ->
     search self query embedder top_k = inr []) /\
  (forall (self : VectorStore) (doc_vectors : np.matrix) (query : string)
          (embedder : EmbeddingBackend) (query_vec : list np.float32),
     aligned self doc_vectors -> (1 <= length (_chunks self))%nat ->
     embeds_as embedder query doc_vectors query_vec ->
     search self query embedder 0 = inr []) /\
  (forall (self : VectorStore) (doc_vectors : np.matrix) (query : string)
          (embedder : EmbeddingBackend) (query_vec : list np.float32) (top_k : Z),
     aligned self doc_vectors -> (1 <= length (_chunks self))%nat ->
     embeds_as embedder query doc_vectors query_vec -> (top_k < 0)%Z ->
     let n := length (_chunks self) in
     exists full : list SearchResult.t,
       search self query embedder (Z.of_nat n) = inr full /\
       length full = n /\
       search self query embedder top_k
       = inr (take (Z.to_nat (Z.of_nat n + top_k)) full)).
Proof.
  split; [|split].
  - intros self query embedder top_k [He|He]; unfold search; rewrite He; [done|].
    by destruct (_chunks self).
  - intros self doc_vectors query embedder query_vec Hal Hn Hq.
    rewrite (search_aligned _ _ _ _ _ _ Hal Hn Hq), top_indices_take.
    unfold kept, Py.clamp. simpl. by rewrite Z.min_l by lia.
  - intros self doc_vectors query embedder query_vec top_k Hal Hn Hq Hk n.
    set (sims := similarities doc_vectors query_vec).
    assert (Hsl : length sims = n).
    { unfold sims. rewrite similarities_length. by destruct Hal as [_ <-]. }
    destruct (search_results self doc_vectors query embedder query_vec (Z.of_nat n)
                Hal Hn Hq) as (full & Hfull & Hall).
    fold sims in Hall.
    exists full. split; [done|]. split.
    { rewrite <- (Forall2_length _ _ _ Hall), top_indices_length, Hsl.
      rewrite kept_positive by (unfold n; lia). lia. }
    rewrite (search_aligned _ _ _ _ _ (Z.of_nat n) Hal Hn Hq) in Hfull.
    rewrite (search_aligned _ _ _ _ _ top_k Hal Hn Hq). fold sims in Hfull |- *.
    rewrite top_indices_take, Hsl, kept_negative by done.
    rewrite top_indices_take, Hsl, kept_positive in Hfull by (unfold n; lia).
    rewrite take_ge in Hfull by (rewrite length_reverse, argsort_length; lia).
    by apply results_of_take.
Qed.

Lemma search_nonpositive_top_k_witness :
  search examples.unit_store "q" examples.unit_embedder 0 = inr [] /\
  exists full,
    search examples.unit_store "q" examples.unit_embedder (-2)
    = inr (take 1 full) /\ length full = 3%nat.
Proof.
  assert (Hal : aligned examples.unit_store examples.unit_rows) by (split; reflexivity).
  assert (Hn : (1 <= length (_chunks examples.unit_store))%nat) by (simpl; lia).
  assert (Hq : embeds_as examples.unit_embedder "q" examples.unit_rows [np.one; np.zero]).
  { eexists. split; [reflexivity|]. split; reflexivity. }
  destruct search_nonpositive_top_k as (_ & Hzero & Hneg).
  split; [exact (Hzero _ _ "q" _ _ Hal Hn Hq)|].
  assert (Hk : (-2 < 0)%Z) by lia.
  destruct (Hneg _ _ "q" _ _ (-2)%Z Hal Hn Hq Hk) as (full & _ & Hlen & Hs).
  exists full. split; [exact Hs|exact Hlen].
Defined.

End search.

(** ** Persistence and ingestion *)

Section store.
Import models vector_store spec.

Lemma add_documents_in_sync (tiktoken : option chunking.Encoding)
    (documents : list Document.t) (embedder : EmbeddingBackend)
    (chunk_size chunk_overlap : Z) (w : VectorStore * directory) :
  in_sync w ->
  in_sync (add_documents tiktoken documents embedder chunk_size chunk_overlap w).2.
Proof.
  intros Hw. unfold add_documents.
  destruct (fold_left _ documents ([], [])) as [new_chunks chunk_texts].
  destruct new_chunks as [|c new_chunks]; [exact Hw|].
  unfold bind at 1, lift.
  destruct (embed embedder chunk_texts) as [e|[x|v|m|extra]]; try exact Hw.
  destruct w as [self d]. unfold in_sync in *. simpl in Hw.
  unfold bind, get_self, put_self, raise, ret, _save, write_files. simpl.
  destruct (_embeddings self) as [old|] eqn:Eold; simpl.
  - destruct (np.ncols m =? np.ncols old)%nat; simpl; [|exact Hw].
    reflexivity.
  - reflexivity.
Qed.

Lemma reachable_in_sync (w : VectorStore * directory) : reachable w -> in_sync w.
Proof.
  induction 1 as [d self Hopen|w tiktoken documents embedder cs co _ IH].
  - exact Hopen.
  - by apply add_documents_in_sync.
Qed.

(** C2: after a successful [add_documents] on any store, a new instance
    opened on the same directory has the same chunk list (identifiers,
    document identifiers, sources, contents and metadata) and the same
    embedding matrix as the instance that performed the call, and the same
    recorded model. *)
Theorem add_documents_round_trip (tiktoken : option chunking.Encoding)
    (documents : list Document.t) (embedder : EmbeddingBackend)
    (chunk_size chunk_overlap : Z) (w w' : VectorStore * directory) :
  reachable w ->
  add_documents tiktoken documents embedder chunk_size chunk_overlap w = (inr tt, w') ->
  exists reopened : VectorStore,
    __init__ w'.2 = inr reopened /\
    _chunks reopened = _chunks w'.1 /\
    _embeddings reopened = _embeddings w'.1 /\
    _embedding_model reopened = _embedding_model w'.1.
Proof.
  intros Hw Hadd.
  pose proof (add_documents_in_sync tiktoken documents embedder chunk_size chunk_overlap w
                (reachable_in_sync w Hw)) as Hs.
  rewrite Hadd in Hs. exists w'.1. by split.
Qed.

Lemma add_documents_round_trip_witness :
  exists reopened : VectorStore,
    __init__ {| metadata_json :=
                  Some {| payload_chunks :=
                            Some [DocumentChunk.mk "hello-0001" "hello" "notion" "hello world"
                                    (<["path" := PStr "export/hello.md"]> ∅)];
                          payload_embedding_model := Some "model" |};
                vectors_npy := Some {| np.ncols := 2; np.rows := [[np.one; np.zero]] |} |}
    = inr reopened /\
    _chunks reopened
    = [DocumentChunk.mk "hello-0001" "hello" "notion" "hello world"
         (<["path" := PStr "export/hello.md"]> ∅)].
Proof.
  assert (Hopen : __init__ examples.empty_directory
                  = inr {| _chunks := []; _embeddings := None; _embedding_model := None |})
    by reflexivity.
  destruct (add_documents_round_trip None [examples.hello_document] examples.row_embedder
              500 100 _ _ (reachable_open _ _ Hopen) eq_refl)
    as (reopened & Hre & Hchunks & _).
  exists reopened. split; [exact Hre|exact Hchunks].
Defined.

(** C3: when the store holds embeddings of width [d] and the provider,
    called on the new chunk texts, returns a two-dimensional matrix of
    another width, [add_documents] raises the dimension-mismatch error and
    leaves the instance (chunk list, chunk count, matrix) and both
    artifacts on disk exactly as they were. *)
Theorem add_documents_dimension_mismatch (tiktoken : option chunking.Encoding)
    (documents : list Document.t) (embedder : EmbeddingBackend)
    (chunk_size chunk_overlap : Z) (self : VectorStore) (d : directory)
    (old new : np.matrix) :
  _embeddings self = Some old ->
  (batch tiktoken documents chunk_size chunk_overlap).1 <> [] ->
  embed embedder (batch tiktoken documents chunk_size chunk_overlap).2 = inr (np.Nd2 new) ->
  np.ncols new <> np.ncols old ->
  add_documents tiktoken documents embedder chunk_size chunk_overlap (self, d)
  = (inl (ValueError "Embedding dimension mismatch"), (self, d)) /\
  chunk_count
    (add_documents tiktoken documents embedder chunk_size chunk_overlap (self, d)).2.1
  = chunk_count self.
Proof.
  intros Hold Hne Hembed Hcols.
  assert (Hadd : add_documents tiktoken documents embedder chunk_size chunk_overlap (self, d)
                 = (inl (ValueError "Embedding dimension mismatch"), (self, d))).
  { unfold add_documents. unfold batch in Hne, Hembed.
    destruct (fold_left _ documents ([], [])) as [new_chunks chunk_texts].
    simpl in Hne, Hembed.
    destruct new_chunks as [|c new_chunks]; [done|].
    unfold bind at 1, lift. rewrite Hembed.
    unfold bind, get_self, put_self, raise, ret, _save, write_files. simpl.
    rewrite Hold. simpl.
    destruct (Nat.eqb_spec (np.ncols new) (np.ncols old)); [done|]. reflexivity. }
  split; [exact Hadd|]. by rewrite Hadd.
Qed.

Lemma add_documents_dimension_mismatch_witness :
  add_documents None [examples.hello_document] examples.wide_embedder 500 100
    (examples.unit_store, examples.empty_directory)
  = (inl (ValueError "Embedding dimension mismatch"),
     (examples.unit_store, examples.empty_directory)).
Proof.
  assert (Hold : _embeddings examples.unit_store = Some examples.unit_rows) by reflexivity.
  assert (Hne : (batch None [examples.hello_document] 500 100).1 <> [])
    by (vm_compute; discriminate).
  assert (Hembed : embed examples.wide_embedder (batch None [examples.hello_document] 500 100).2
                   = inr (np.Nd2 {| np.ncols := 3;
                                    np.rows := [[np.one; np.zero; np.zero]] |}))
    by reflexivity.
  assert (Hcols : np.ncols {| np.ncols := 3; np.rows := [[np.one; np.zero; np.zero]] |}
                  <> np.ncols examples.unit_rows) by (simpl; lia).
  exact (proj1 (add_documents_dimension_mismatch None [examples.hello_document]
                  examples.wide_embedder 500 100 examples.unit_store
                  examples.empty_directory _ _ Hold Hne Hembed Hcols)).
Defined.

(** C9, against the claim: a directory whose metadata artifact holds one
    chunk and whose vector artifact holds two rows opens without error,
    into a store of one chunk and two rows. *)
Lemma open_mismatched_counterexample :
  exists self : VectorStore,
    __init__ examples.mismatched_directory = inr self /\
    chunk_count self = 1%nat /\
    (length ∘ np.rows <$> _embeddings self) = Some 2%nat.
Proof. eexists. repeat split; reflexivity. Qed.

(** C9, amended: when both artifacts exist, opening the store loads the
    chunk records of the metadata artifact and the matrix of the vector
    artifact as they are; the two counts are not compared and no error is
    raised, whether they agree or not.  With an artifact missing the store
    starts empty. *)
Theorem open_loads_unchecked (d : directory) :
  (forall (meta : payload) (vectors : np.matrix),
     metadata_json d = Some meta -> vectors_npy d = Some vectors ->
     __init__ d = inr {| _chunks := default [] (payload_chunks meta);
                         _embeddings := Some vectors;
                         _embedding_model := payload_embedding_model meta |}) /\
  (metadata_json d = None \/ vectors_npy d = None ->
   __init__ d = inr {| _chunks := []; _embeddings := None; _embedding_model := None |}).
Proof.
  split.
  - intros meta vectors Hm Hv. unfold __init__, _load. by rewrite Hm, Hv.
  - intros [H|H]; unfold __init__, _load; rewrite H; [done|].
    by destruct (metadata_json d).
Qed.

Lemma open_loads_unchecked_witness :
  __init__ examples.mismatched_directory
  = inr {| _chunks := [examples.chunk_a];
           _embeddings := Some {| np.ncols := 2;
                                  np.rows := [[np.one; np.zero]; [np.zero; np.one]] |};
           _embedding_model := Some "model" |}.
Proof.
  exact (proj1 (open_loads_unchecked examples.mismatched_directory) _ _ eq_refl eq_refl).
Defined.




End store.

(** ** More on the chunker *)

Section chunker_more.
Import chunking spec spec_more.

Lemma list_ascii_of_string_app (a b : string) :
  list_ascii_of_string (a +:+ b) = list_ascii_of_string a ++ list_ascii_of_string b.
Proof.
  induction a as [|c a IH]; [done|].
  change (String c a +:+ b) with (String c (a +:+ b)). simpl. by rewrite IH.
Qed.

Lemma string_of_list_ascii_app (a b : list ascii) :
  string_of_list_ascii (a ++ b) = string_of_list_ascii a +:+ string_of_list_ascii b.
Proof. induction a as [|c a IH]; [done|]. simpl. rewrite IH. reflexivity. Qed.

Lemma append_empty_r (a : string) : a +:+ "" = a.
Proof.
  induction a as [|c a IH]; [done|].
  change (String c a +:+ "") with (String c (a +:+ "")). by rewrite IH.
Qed.

(** Joining with the empty separator concatenates. *)
Lemma concat_empty_sep (ls : list (list ascii)) :
  String.concat "" (map string_of_list_ascii ls) = string_of_list_ascii (concat ls).
Proof.
  induction ls as [|l ls IH]; [done|].
  destruct ls as [|l' ls].
  - simpl. by rewrite app_nil_r.
  - change (String.concat "" (map string_of_list_ascii (l :: l' :: ls)))
      with (string_of_list_ascii l +:+ "" +:+
            String.concat "" (map string_of_list_ascii (l' :: ls))).
    rewrite IH.
    change ("" +:+ string_of_list_ascii (concat (l' :: ls)))
      with (string_of_list_ascii (concat (l' :: ls))).
    change (concat (l :: l' :: ls)) with (l ++ concat (l' :: ls)).
    by rewrite string_of_list_ascii_app.
Qed.

(** A slice from 0 is a [take]. *)
Lemma slice_from_0 {A} (l : list A) (hi : Z) :
  (0 <= hi)%Z -> Py.slice l 0 hi = take (Z.to_nat hi) l.
Proof.
  intros Hhi. unfold Py.slice, Py.clamp.
  destruct (Z.ltb_spec hi 0); [lia|].
  destruct (Z.ltb_spec 0 0); [lia|].
  replace (Z.min 0 (Z.of_nat (length l))) with 0%Z by lia.
  rewrite Z.sub_0_r. change (Z.to_nat 0) with 0%nat. rewrite drop_0.
  destruct (Z.le_gt_cases hi (Z.of_nat (length l))).
  - by rewrite Z.min_l by lia.
  - rewrite Z.min_r by lia. rewrite Nat2Z.id.
    rewrite (take_ge l (length l)) by lia. by rewrite (take_ge l (Z.to_nat hi)) by lia.
Qed.

(** A window that starts inside the text: [chunk_size] characters from its
    start, or as many as are left. *)
Lemma window_chars (text : string) (chunk_size a : Z) :
  (0 <= a < Py.len text)%Z -> (0 <= chunk_size)%Z ->
  list_ascii_of_string (Py.str_slice text a (Z.min (Py.len text) (a + chunk_size)))
  = take (Z.to_nat chunk_size) (drop (Z.to_nat a) (list_ascii_of_string text)).
Proof.
  intros Ha Hs. unfold Py.str_slice. rewrite list_ascii_of_string_of_list_ascii.
  unfold Py.len in *.
  rewrite slice_inside by (rewrite ?length_list_ascii_of_string; lia).
  set (L := list_ascii_of_string text).
  assert (HL : length L = String.length text) by apply length_list_ascii_of_string.
  destruct (Z.le_gt_cases (a + chunk_size) (Z.of_nat (String.length text))).
  - rewrite Z.min_r by lia. f_equal. lia.
  - rewrite Z.min_l by lia.
    rewrite !take_ge; [done| |]; rewrite length_drop; lia.
Qed.

Lemma concat_take_drop {A} (l : list A) (s n : nat) :
  concat (map (fun k => take s (drop (k * s) l)) (seq 0 n)) = take (n * s) l.
Proof.
  induction n as [|n IH]; [done|].
  rewrite seq_S, map_app, concat_app, IH. simpl. rewrite app_nil_r.
  rewrite take_take_drop. f_equal. lia.
Qed.

(** X1: with [0 <= chunk_overlap < chunk_size], the first
    [chunk_size - chunk_overlap] characters of each chunk of the character
    strategy, put end to end, are the text: nothing is lost and nothing
    but the overlaps is repeated.  With no overlap the chunks themselves
    concatenate to the text. *)
Theorem chunks_rebuild_text (text : string) (chunk_size chunk_overlap : Z) :
  (0 <= chunk_overlap < chunk_size)%Z ->
  let step := (chunk_size - chunk_overlap)%Z in
  let chunks := chunk_text None text chunk_size chunk_overlap in
  String.concat "" (map (fun c => Py.str_slice c 0 step) chunks) = text /\
  (chunk_overlap = 0%Z -> String.concat "" chunks = text).
Proof.
  intros Hpar step chunks.
  assert (Hstep : Z.max 1 (chunk_size - chunk_overlap) = step) by (unfold step; lia).
  assert (Hs : (1 <= step)%Z) by (unfold step; lia).
  set (L := list_ascii_of_string text).
  assert (HL : length L = String.length text) by apply length_list_ascii_of_string.
  set (n := window_count text step).
  assert (Hc : chunks = map (window_at text chunk_size step 0) (seq 0 n)).
  { unfold chunks, chunk_text. destruct (String.eqb_spec text "") as [->|Hne].
    - assert (n = 0%nat) as ->; [|done].
      unfold n, window_count. change (Py.len "") with 0%Z.
      rewrite Z.div_small by lia. done.
    - rewrite split_by_chars_windows. by rewrite Hstep. }
  assert (Hwin : forall k, (k < n)%nat ->
            list_ascii_of_string (window_at text chunk_size step 0 k)
            = take (Z.to_nat chunk_size) (drop (k * Z.to_nat step) L)).
  { intros k Hk. apply window_count_lt in Hk; [|done]. unfold span_start in Hk.
    unfold window_at. rewrite Z.add_0_l, window_chars by lia.
    do 2 f_equal. lia. }
  assert (Hcover : (String.length text <= n * Z.to_nat step)%nat).
  { destruct (Nat.le_gt_cases (String.length text) (n * Z.to_nat step)) as [|Hlt]; [done|].
    exfalso. assert (Hn : (n < window_count text step)%nat); [|unfold n in Hn; lia].
    apply window_count_lt; [done|]. unfold span_start, Py.len. lia. }
  assert (Hpieces : forall size', (Z.to_nat step <= size')%nat ->
            map (fun k => take (Z.to_nat step) (take size' (drop (k * Z.to_nat step) L)))
                (seq 0 n)
            = map (fun k => take (Z.to_nat step) (drop (k * Z.to_nat step) L)) (seq 0 n)).
  { intros size' Hle. apply map_ext. intros k. rewrite take_take. f_equal. lia. }
  assert (Hprefix :
    map (fun c => Py.str_slice c 0 step) chunks
    = map string_of_list_ascii
        (map (fun k => take (Z.to_nat step) (drop (k * Z.to_nat step) L)) (seq 0 n))).
  { rewrite <- (Hpieces (Z.to_nat chunk_size)) by lia. rewrite Hc, !map_map.
    apply map_ext_in. intros k Hk%in_seq.
    unfold Py.str_slice. rewrite slice_from_0 by lia. by rewrite Hwin by lia. }
  split.
  - rewrite Hprefix, concat_empty_sep, concat_take_drop.
    rewrite take_ge by lia. apply string_of_list_ascii_of_string.
  - intros H0. assert (step = chunk_size) as Hsz by (unfold step; lia).
    assert (Hall : chunks
                   = map string_of_list_ascii
                       (map (fun k => take (Z.to_nat step) (drop (k * Z.to_nat step) L))
                            (seq 0 n))).
    { rewrite Hc, map_map. apply map_ext_in. intros k Hk%in_seq.
      rewrite <- (string_of_list_ascii_of_string (window_at text chunk_size step 0 k)).
      rewrite Hwin by lia. by rewrite Hsz. }
    rewrite Hall, concat_empty_sep, concat_take_drop.
    rewrite take_ge by lia. apply string_of_list_ascii_of_string.
Qed.

Lemma chunks_rebuild_text_witness :
  String.concat "" (chunk_text None "abcdefghij" 4 0) = "abcdefghij".
Proof.
  assert (Hpar : (0 <= 0 < 4)%Z) by lia.
  exact (proj2 (chunks_rebuild_text "abcdefghij" 4 0 Hpar) eq_refl).
Defined.

(** X2: whatever the integer parameters, the character strategy gives no
    chunk exactly when the text is empty. *)
Theorem chunk_text_empty_iff (text : string) (chunk_size chunk_overlap : Z) :
  chunk_text None text chunk_size chunk_overlap = [] <-> text = "".
Proof.
  split.
  - intros Hnil. destruct (String.eqb_spec text "") as [|Hne]; [done|]. exfalso.
    unfold chunk_text in Hnil. destruct (String.eqb_spec text ""); [done|].
    rewrite split_by_chars_windows in Hnil.
    apply (f_equal length) in Hnil. rewrite length_map, length_seq in Hnil. simpl in Hnil.
    assert (Hpos : (0 < window_count text (Z.max 1 (chunk_size - chunk_overlap)))%nat);
      [|lia].
    apply window_count_lt; [lia|]. unfold span_start, Py.len.
    destruct text; [done|simpl; lia].
  - intros ->. reflexivity.
Qed.

(** X3: a chunk size of 0 is not refused: the character strategy then
    returns one empty chunk per step through the text,
    [ceil(len / max(1, -chunk_overlap))] of them. *)
Theorem zero_chunk_size_gives_empty_chunks (text : string) (chunk_overlap : Z) :
  chunk_text None text 0 chunk_overlap
  = replicate (window_count text (Z.max 1 (0 - chunk_overlap))) "".
Proof.
  unfold chunk_text. destruct (String.eqb_spec text "") as [->|Hne].
  - unfold window_count. change (Py.len "") with 0%Z.
    rewrite Z.div_small by lia. done.
  - rewrite split_by_chars_windows.
    set (step := Z.max 1 (0 - chunk_overlap)).
    assert (Hs : (1 <= step)%Z) by (unfold step; lia).
    set (n := window_count text step).
    assert (Hall : forall k, (k < n)%nat -> window_at text 0 step 0 k = "").
    { intros k Hk. apply window_count_lt in Hk; [|done]. unfold span_start in Hk.
      unfold window_at. rewrite Z.add_0_l, Z.add_0_r.
      rewrite <- (string_of_list_ascii_of_string (Py.str_slice _ _ _)).
      replace (Z.min (Py.len text) (Z.of_nat k * step))
        with (Z.min (Py.len text) (Z.of_nat k * step + 0)) by (f_equal; lia).
      rewrite window_chars by lia. reflexivity. }
    clearbody n. induction n as [|n IH]; [done|].
    rewrite seq_S, map_app, IH by (intros; apply Hall; lia).
    rewrite replicate_S_end. f_equal. simpl. by rewrite Hall by lia.
Qed.

Lemma tokens_remaining_done (tokens : list Z) (step start : Z) :
  (1 <= step)%Z -> (Z.of_nat (length tokens) <= start)%Z ->
  tokens_remaining tokens step start = 0%nat.
Proof.
  intros Hs Hl. unfold tokens_remaining.
  assert ((Z.of_nat (length tokens) - start + step - 1) / step < 1)%Z; [|lia].
  apply Z.div_lt_upper_bound; lia.
Qed.

Lemma tokens_remaining_step (tokens : list Z) (step start : Z) :
  (1 <= step)%Z -> (start < Z.of_nat (length tokens))%Z ->
  tokens_remaining tokens step start = S (tokens_remaining tokens step (start + step)).
Proof.
  intros Hs Hl. unfold tokens_remaining.
  replace (Z.of_nat (length tokens) - start + step - 1)%Z
    with ((Z.of_nat (length tokens) - (start + step) + step - 1) + 1 * step)%Z by lia.
  rewrite Z.div_add by lia.
  assert (0 <= (Z.of_nat (length tokens) - (start + step) + step - 1) / step)%Z
    by (apply Z.div_pos; lia).
  lia.
Qed.

Lemma tokens_remaining_le (tokens : list Z) (step : Z) :
  (1 <= step)%Z -> (tokens_remaining tokens step 0 <= length tokens)%nat.
Proof.
  intros Hs. unfold tokens_remaining.
  assert ((Z.of_nat (length tokens) - 0 + step - 1) / step < Z.of_nat (length tokens) + 1)%Z
    by (apply Z.div_lt_upper_bound; nia).
  lia.
Qed.

(** The token loop, run with enough fuel: the decoded remaining windows,
    or [Raised] as soon as one does not decode. *)
Lemma split_tokens_loop_spec (enc : Encoding) (tokens : list Z)
    (chunk_size chunk_overlap : Z) (fuel : nat) :
  let step := Z.max 1 (chunk_size - chunk_overlap) in
  forall (start : Z) (chunks : list string),
    (tokens_remaining tokens step start <= fuel)%nat ->
    split_tokens_loop fuel enc tokens chunk_size chunk_overlap start chunks
    = match mapM (decode enc)
              (map (token_window_from tokens chunk_size step start)
                   (seq 0 (tokens_remaining tokens step start))) with
      | Some pieces => Done (chunks ++ pieces)
      | None => Raised
      end.
Proof.
  intros step. assert (Hs : (1 <= step)%Z) by (unfold step; lia).
  induction fuel as [|fuel IH]; intros start chunks Hfuel.
  - assert (Hr : tokens_remaining tokens step start = 0%nat) by lia.
    destruct (Z.ltb_spec start (Z.of_nat (length tokens))) as [Hlt|Hge].
    + rewrite tokens_remaining_step in Hr by lia. discriminate.
    + simpl. destruct (Z.ltb_spec start (Z.of_nat (length tokens))); [lia|].
      rewrite Hr. simpl. by rewrite app_nil_r.
  - simpl. destruct (Z.ltb_spec start (Z.of_nat (length tokens))) as [Hlt|Hge].
    + rewrite tokens_remaining_step in Hfuel |- * by lia.
      change (seq 0 (S ?n)) with (0%nat :: seq 1 n).
      rewrite <- seq_shift, map_cons, map_map.
      assert (Hw0 : token_window_from tokens chunk_size step start 0
                    = Py.slice tokens start
                        (Z.min (Z.of_nat (length tokens)) (start + chunk_size))).
      { unfold token_window_from. by replace (start + Z.of_nat 0 * step)%Z with start by lia. }
      assert (Hshift : map (fun j => token_window_from tokens chunk_size step start (S j))
                           (seq 0 (tokens_remaining tokens step (start + step)))
                       = map (token_window_from tokens chunk_size step (start + step))
                             (seq 0 (tokens_remaining tokens step (start + step)))).
      { apply map_ext. intros j. unfold token_window_from.
        by replace (start + Z.of_nat (S j) * step)%Z
          with (start + step + Z.of_nat j * step)%Z by lia. }
      rewrite Hshift, Hw0. cbn [mapM]. fold step.
      destruct (decode enc _) as [piece|]; simpl; [|done].
      rewrite IH by lia.
      destruct (mapM _ _) as [pieces|]; simpl; [|done].
      by rewrite <- app_assoc.
    + rewrite tokens_remaining_done by lia. simpl. by rewrite app_nil_r.
Qed.

Lemma split_by_tokens_spec (enc : Encoding) (text : string) (tokens : list Z)
    (chunk_size chunk_overlap : Z) :
  encode enc text = Some tokens ->
  _split_by_tokens enc text chunk_size chunk_overlap
  = match mapM (decode enc) (token_windows tokens chunk_size chunk_overlap) with
    | Some pieces => Done pieces
    | None => Raised
    end.
Proof.
  intros Henc. unfold _split_by_tokens. rewrite Henc.
  rewrite split_tokens_loop_spec by (apply tokens_remaining_le; lia).
  unfold token_windows, token_window_count, tokens_remaining, token_window.
  replace (Z.of_nat (length tokens) - 0)%Z with (Z.of_nat (length tokens)) by lia.
  erewrite (map_ext (token_window_from _ _ _ 0)); [done|].
  intros j. unfold token_window_from. by rewrite Z.add_0_l.
Qed.

(** X4: when the tokenizer encodes the text and decodes every window, the
    token strategy returns the decoded windows, in order: window [k] holds
    the tokens from [k * step] up to [k * step + chunk_size] (or the end),
    [step = max(1, chunk_size - chunk_overlap)], and there are
    [ceil(tokens / step)] of them; [chunk_text] returns the same for a
    non-empty text. *)
Theorem token_strategy_windows (enc : Encoding) (text : string) (tokens : list Z)
    (chunk_size chunk_overlap : Z) (pieces : list string) :
  encode enc text = Some tokens ->
  Forall2 (fun window piece => decode enc window = Some piece)
          (token_windows tokens chunk_size chunk_overlap) pieces ->
  _split_by_tokens enc text chunk_size chunk_overlap = Done pieces /\
  length pieces
  = Z.to_nat ((Z.of_nat (length tokens) + Z.max 1 (chunk_size - chunk_overlap) - 1)
              / Z.max 1 (chunk_size - chunk_overlap)) /\
  (text <> "" -> chunk_text (Some enc) text chunk_size chunk_overlap = pieces).
Proof.
  intros Henc Hall.
  assert (Hsplit : _split_by_tokens enc text chunk_size chunk_overlap = Done pieces).
  { rewrite (split_by_tokens_spec _ _ _ _ _ Henc). by rewrite (mapM_Some_2 _ _ _ Hall). }
  split; [done|]. split.
  - rewrite <- (Forall2_length _ _ _ Hall). unfold token_windows.
    by rewrite length_map, length_seq.
  - intros Hne. unfold chunk_text. destruct (String.eqb_spec text ""); [done|].
    by rewrite Hsplit.
Qed.

Lemma token_strategy_windows_witness :
  chunk_text (Some examples_more.char_tokenizer) "abcdefg" 3 1 = ["abc"; "cde"; "efg"; "g"].
Proof.
  assert (Henc : encode examples_more.char_tokenizer "abcdefg"
                 = Some [97; 98; 99; 100; 101; 102; 103]%Z) by reflexivity.
  assert (Hall : Forall2 (fun window piece =>
                            decode examples_more.char_tokenizer window = Some piece)
                   (token_windows [97; 98; 99; 100; 101; 102; 103]%Z 3 1)
                   ["abc"; "cde"; "efg"; "g"])
    by (repeat constructor).
  assert (Hne : "abcdefg" <> "") by discriminate.
  exact (proj2 (proj2 (token_strategy_windows _ _ _ 3 1 _ Henc Hall)) Hne).
Defined.

(** X5: when the tokenizer raises, on encoding the text or on decoding any
    one window, [chunk_text] raises nothing and returns exactly what the
    character strategy returns: the windows already decoded are
    dropped. *)
Theorem token_failure_falls_back (enc : Encoding) (text : string)
    (chunk_size chunk_overlap : Z) :
  encode enc text = None \/
  (exists tokens, encode enc text = Some tokens /\
                  Exists (fun window => decode enc window = None)
                         (token_windows tokens chunk_size chunk_overlap)) ->
  _split_by_tokens enc text chunk_size chunk_overlap = Raised /\
  chunk_text (Some enc) text chunk_size chunk_overlap
  = chunk_text None text chunk_size chunk_overlap.
Proof.
  intros Hfail.
  assert (Hr : _split_by_tokens enc text chunk_size chunk_overlap = Raised).
  { destruct Hfail as [Henc|(tokens & Henc & Hex)].
    - unfold _split_by_tokens. by rewrite Henc.
    - rewrite (split_by_tokens_spec _ _ _ _ _ Henc). by rewrite (mapM_None_2 _ _ Hex). }
  split; [done|]. unfold chunk_text. by rewrite Hr.
Qed.

Lemma token_failure_falls_back_witness :
  chunk_text (Some examples_more.failing_decoder) "abcdefg" 3 1
  = chunk_text None "abcdefg" 3 1.
Proof.
  apply token_failure_falls_back. right.
  exists [97; 98; 99; 100; 101; 102; 103]%Z. split; [reflexivity|].
  apply Exists_cons_hd. reflexivity.
Defined.

End chunker_more.

(** ** Chunk identifiers across documents *)

Section chunk_ids.
Import models chunking vector_store spec spec_more.

(** An identifier as [enumerate_chunks] builds it: the prefix, a hyphen
    and a numeral whose value is the ordinal. *)
Lemma enumerate_chunks_lookup_numeral (chunks : list string) (prefix : string)
    (i : nat) (x : string) :
  enumerate_chunks chunks prefix !! i = Some x ->
  exists ds, x = prefix +:+ "-" +:+ numeral ds /\ Forall is_digit ds /\
             value_be ds = Z.of_nat (S i).
Proof.
  intros Hx.
  assert (Hi : (i < length chunks)%nat).
  { apply lookup_lt_Some in Hx. unfold enumerate_chunks in Hx.
    by rewrite length_map, enumerate_length in Hx. }
  unfold enumerate_chunks in Hx. rewrite total_digits_width in Hx.
  change (map ?f ?l) with (f <$> l) in Hx.
  rewrite list_lookup_fmap, enumerate_lookup in Hx.
  destruct (lookup_lt_is_Some_2 chunks i Hi) as [c Hc]. rewrite Hc in Hx. simpl in Hx.
  injection Hx as <-.
  replace (1 + Z.of_nat i)%Z with (Z.of_nat (S i)) by lia.
  set (w := Nat.max 4 (String.length (Py.str (Z.of_nat (length chunks))))).
  destruct (digits_be_spec (Z.of_nat (S i)) ltac:(lia)) as (Hd & Hv & _).
  assert (Hfit : (length (digits_be (Z.of_nat (S i))) <= w)%nat).
  { unfold w. rewrite length_str by lia.
    pose proof (length_digits_mono (Z.of_nat (S i)) (Z.of_nat (length chunks)) ltac:(lia)).
    lia. }
  rewrite zfill_str by (done || lia).
  eexists. split; [done|]. split.
  - apply Forall_app; split; [|done]. apply Forall_replicate. unfold is_digit. lia.
  - by rewrite value_be_zeros.
Qed.

Lemma split_at_unique {A} (c : A) (x1 : list A) : forall x2 y1 y2,
  c ∉ x1 -> c ∉ x2 -> x1 ++ c :: y1 = x2 ++ c :: y2 -> x1 = x2 /\ y1 = y2.
Proof.
  induction x1 as [|a x1 IH]; intros [|b x2] y1 y2 H1 H2 Heq; simpl in Heq.
  - by injection Heq as ->.
  - injection Heq as <- _. exfalso. apply H2. by left.
  - injection Heq as -> _. exfalso. apply H1. by left.
  - injection Heq as -> Heq. apply not_elem_of_cons in H1 as [_ H1].
    apply not_elem_of_cons in H2 as [_ H2].
    destruct (IH _ _ _ H1 H2 Heq) as [-> ->]. done.
Qed.

Lemma digit_char_inj d1 d2 :
  is_digit d1 -> is_digit d2 -> Py.digit_char d1 = Py.digit_char d2 -> d1 = d2.
Proof.
  intros H1 H2 Heq. pose proof (digit_char_compare d1 d2 H1 H2) as Hc.
  rewrite Heq, ascii_compare_refl in Hc. symmetry in Hc. by apply Z.compare_eq in Hc.
Qed.

Lemma digit_chars_inj ds1 : forall ds2,
  Forall is_digit ds1 -> Forall is_digit ds2 ->
  map Py.digit_char ds1 = map Py.digit_char ds2 -> ds1 = ds2.
Proof.
  induction ds1 as [|d1 ds1 IH]; intros [|d2 ds2] H1 H2 Heq; try done.
  inversion H1; subst. inversion H2; subst.
  change (Py.digit_char d1 :: map Py.digit_char ds1
          = Py.digit_char d2 :: map Py.digit_char ds2) in Heq.
  injection Heq as Hd Heq. f_equal; [by apply digit_char_inj|by apply IH].
Qed.

Lemma hyphen_not_digit ds :
  Forall is_digit ds -> "-"%char ∉ reverse (map Py.digit_char ds).
Proof.
  intros Hd Hin. rewrite elem_of_reverse in Hin.
  apply list_elem_of_In, in_map_iff in Hin as (d & Heq & Hin).
  apply list_elem_of_In in Hin. rewrite Forall_forall in Hd.
  pose proof (digit_char_not_sign d (Hd d Hin)) as Hs.
  rewrite Heq in Hs. apply orb_false_elim in Hs as [_ Hs]. discriminate.
Qed.

(** A prefix, a hyphen and a numeral determine the prefix and the
    numeral. *)
Lemma hyphen_numeral_inj p1 p2 ds1 ds2 :
  Forall is_digit ds1 -> Forall is_digit ds2 ->
  p1 +:+ "-" +:+ numeral ds1 = p2 +:+ "-" +:+ numeral ds2 ->
  p1 = p2 /\ ds1 = ds2.
Proof.
  intros H1 H2 Heq. apply (f_equal list_ascii_of_string) in Heq.
  rewrite !list_ascii_of_string_app in Heq. unfold numeral in Heq.
  rewrite !list_ascii_of_string_of_list_ascii in Heq.
  change (list_ascii_of_string "-") with ["-"%char] in Heq. simpl in Heq.
  apply (f_equal reverse) in Heq.
  rewrite !reverse_app, !reverse_cons, <- !app_assoc in Heq. simpl in Heq.
  apply split_at_unique in Heq as [Hd Hp]; try by apply hyphen_not_digit.
  apply (inj reverse) in Hd. apply (inj reverse) in Hp. split.
  - by rewrite <- (string_of_list_ascii_of_string p1),
               <- (string_of_list_ascii_of_string p2), Hp.
  - by apply digit_chars_inj.
Qed.

Lemma enumerate_chunks_inj (chunks1 chunks2 : list string) (prefix1 prefix2 : string)
    (i j : nat) (x : string) :
  enumerate_chunks chunks1 prefix1 !! i = Some x ->
  enumerate_chunks chunks2 prefix2 !! j = Some x ->
  prefix1 = prefix2 /\ i = j.
Proof.
  intros H1 H2.
  apply enumerate_chunks_lookup_numeral in H1 as (ds1 & -> & Hd1 & Hv1).
  apply enumerate_chunks_lookup_numeral in H2 as (ds2 & Heq & Hd2 & Hv2).
  apply hyphen_numeral_inj in Heq as [-> ->]; try done.
  split; [done|]. lia.
Qed.

(** X6: a chunk identifier determines its document prefix and its
    ordinal: identifiers built for two prefixes and two positions are
    equal only when the prefixes and the positions are, whatever the two
    chunk counts (and so whatever the two padding widths). *)
Theorem chunk_id_determines_origin (chunks1 chunks2 : list string) (prefix1 prefix2 : string)
    (i j : nat) (x : string) :
  enumerate_chunks chunks1 prefix1 !! i = Some x ->
  enumerate_chunks chunks2 prefix2 !! j = Some x ->
  prefix1 = prefix2 /\ i = j.
Proof. apply enumerate_chunks_inj. Qed.

Lemma chunk_id_determines_origin_witness :
  "doc" = "doc" /\ 1%nat = 1%nat.
Proof.
  apply (chunk_id_determines_origin ["a"; "b"] ["c"; "d"; "e"] "doc" "doc" 1 1 "doc-0002");
    reflexivity.
Defined.

Lemma add_document_fold {B} (f : string -> string -> B) (l : list (string * string)) :
  forall acc : list B * list string,
    fold_left (fun acc '(chunk_id, chunk_content) =>
                 (acc.1 ++ [f chunk_id chunk_content], acc.2 ++ [chunk_content])) l acc
    = (acc.1 ++ map (fun ic => f ic.1 ic.2) l, acc.2 ++ map snd l).
Proof.
  induction l as [|[i c] l IH]; intros [a b]; simpl.
  - by rewrite !app_nil_r.
  - rewrite IH. simpl. by rewrite <- !app_assoc.
Qed.

Lemma add_document_spec (tiktoken : option Encoding) (chunk_size chunk_overlap : Z)
    (acc : list DocumentChunk.t * list string) (document : Document.t) :
  add_document tiktoken chunk_size chunk_overlap acc document
  = (acc.1 ++ document_chunks tiktoken chunk_size chunk_overlap document,
     acc.2 ++ map DocumentChunk.content
                (document_chunks tiktoken chunk_size chunk_overlap document)).
Proof.
  unfold add_document, document_chunks.
  rewrite (add_document_fold
             (fun i c => DocumentChunk.mk i (Document.id document) (Document.source document)
                           c (Document.metadata document))).
  f_equal. f_equal. rewrite map_map. done.
Qed.

Lemma batch_from (tiktoken : option Encoding) (chunk_size chunk_overlap : Z)
    (documents : list Document.t) :
  forall acc,
    fold_left (add_document tiktoken chunk_size chunk_overlap) documents acc
    = (acc.1 ++ concat (map (document_chunks tiktoken chunk_size chunk_overlap) documents),
       acc.2 ++ map DocumentChunk.content
                  (concat (map (document_chunks tiktoken chunk_size chunk_overlap)
                               documents))).
Proof.
  induction documents as [|d documents IH]; intros acc; simpl.
  - rewrite !app_nil_r. by destruct acc.
  - rewrite IH, add_document_spec. simpl. by rewrite map_app, <- !app_assoc.
Qed.

Lemma batch_spec (tiktoken : option Encoding) (documents : list Document.t)
    (chunk_size chunk_overlap : Z) :
  batch tiktoken documents chunk_size chunk_overlap
  = (concat (map (document_chunks tiktoken chunk_size chunk_overlap) documents),
     map DocumentChunk.content
       (concat (map (document_chunks tiktoken chunk_size chunk_overlap) documents))).
Proof. unfold batch. by rewrite batch_from. Qed.

Lemma enumerate_chunks_length (chunks : list string) (prefix : string) :
  length (enumerate_chunks chunks prefix) = length chunks.
Proof. unfold enumerate_chunks. by rewrite length_map, enumerate_length. Qed.

Lemma document_chunks_lookup (tiktoken : option Encoding) (chunk_size chunk_overlap : Z)
    (document : Document.t) (k : nat) (c : DocumentChunk.t) :
  document_chunks tiktoken chunk_size chunk_overlap document !! k = Some c <->
  exists i piece,
    enumerate_chunks (chunk_text tiktoken (Document.content document) chunk_size chunk_overlap)
                     (Document.id document) !! k = Some i /\
    chunk_text tiktoken (Document.content document) chunk_size chunk_overlap !! k
    = Some piece /\
    c = DocumentChunk.mk i (Document.id document) (Document.source document) piece
          (Document.metadata document).
Proof.
  unfold document_chunks. change (map ?f ?l) with (f <$> l).
  rewrite list_lookup_fmap. split.
  - intros Hk. destruct (zip _ _ !! k) as [[i piece]|] eqn:Ez; [|done].
    apply lookup_zip_with_Some in Ez as (i' & piece' & [= <- <-] & Hi & Hp).
    simpl in Hk. injection Hk as <-. by exists i, piece.
  - intros (i & piece & Hi & Hp & ->).
    assert (Hz : zip (enumerate_chunks
                        (chunk_text tiktoken (Document.content document)
                           chunk_size chunk_overlap) (Document.id document))
                     (chunk_text tiktoken (Document.content document)
                        chunk_size chunk_overlap) !! k = Some (i, piece)).
    { apply lookup_zip_with_Some. by exists i, piece. }
    by rewrite Hz.
Qed.

(** X7: the batch that [add_documents] hands to the provider: the texts
    are the contents of the new chunks, one for one and in order; every
    new chunk carries the identifier, source and metadata of one of the
    documents, its text is a chunk of that document's content and its
    identifier the one enumerated at the same position; and no chunk of
    any document is left out. *)
Theorem batch_provenance (tiktoken : option Encoding) (documents : list Document.t)
    (chunk_size chunk_overlap : Z) :
  let new_chunks := (batch tiktoken documents chunk_size chunk_overlap).1 in
  let chunk_texts := (batch tiktoken documents chunk_size chunk_overlap).2 in
  let pieces := fun d : Document.t =>
    chunk_text tiktoken (Document.content d) chunk_size chunk_overlap in
  chunk_texts = map DocumentChunk.content new_chunks /\
  (forall c : DocumentChunk.t, c ∈ new_chunks ->
     exists (d : Document.t) (k : nat),
       d ∈ documents /\
       DocumentChunk.document_id c = Document.id d /\
       DocumentChunk.source c = Document.source d /\
       DocumentChunk.metadata c = Document.metadata d /\
       pieces d !! k = Some (DocumentChunk.content c) /\
       enumerate_chunks (pieces d) (Document.id d) !! k = Some (DocumentChunk.id c)) /\
  (forall (d : Document.t) (k : nat) (piece : string),
     d ∈ documents -> pieces d !! k = Some piece ->
     exists c : DocumentChunk.t,
       c ∈ new_chunks /\ DocumentChunk.content c = piece /\
       DocumentChunk.document_id c = Document.id d).
Proof.
  intros new_chunks chunk_texts pieces. unfold new_chunks, chunk_texts.
  rewrite batch_spec. simpl. split; [done|]. split.
  - intros c Hin. apply list_elem_of_In, in_concat in Hin as (l & Hl & Hc).
    apply in_map_iff in Hl as (d & <- & Hd).
    apply list_elem_of_In, list_elem_of_lookup in Hc as [k Hk].
    apply document_chunks_lookup in Hk as (i & piece & Hi & Hp & ->).
    exists d, k. simpl. by rewrite list_elem_of_In.
  - intros d k piece Hd Hp.
    assert (Hk : (k < length (enumerate_chunks (pieces d) (Document.id d)))%nat).
    { rewrite enumerate_chunks_length. by eapply lookup_lt_Some. }
    destruct (lookup_lt_is_Some_2 _ _ Hk) as [i Hi].
    exists (DocumentChunk.mk i (Document.id d) (Document.source d) piece
              (Document.metadata d)).
    split; [|split; reflexivity].
    apply list_elem_of_In, in_concat. eexists. split.
    + apply in_map. by apply list_elem_of_In.
    + apply list_elem_of_In. apply list_elem_of_lookup. exists k.
      apply document_chunks_lookup. by exists i, piece.
Qed.

Lemma batch_provenance_witness :
  exists c : DocumentChunk.t,
    c ∈ (batch None [examples.hello_document] 500 100).1 /\
    DocumentChunk.content c = "hello world".
Proof.
  destruct (batch_provenance None [examples.hello_document] 500 100) as (_ & _ & Hall).
  assert (Hd : examples.hello_document ∈ [examples.hello_document]) by (by left).
  destruct (Hall examples.hello_document 0%nat "hello world" Hd eq_refl) as (c & Hc & Ht & _).
  exists c. split; [exact Hc|exact Ht].
Defined.

Lemma document_chunk_ids (tiktoken : option Encoding) (chunk_size chunk_overlap : Z)
    (document : Document.t) :
  map DocumentChunk.id (document_chunks tiktoken chunk_size chunk_overlap document)
  = enumerate_chunks (chunk_text tiktoken (Document.content document)
                        chunk_size chunk_overlap) (Document.id document).
Proof.
  unfold document_chunks. rewrite map_map. simpl.
  change (map ?f ?l) with (f <$> l). apply fst_zip. by rewrite enumerate_chunks_length.
Qed.

(** X8: in one [add_documents] call on documents with pairwise distinct
    identifiers, the identifiers of the new chunks are pairwise
    distinct. *)
Theorem batch_chunk_ids_distinct (tiktoken : option Encoding) (documents : list Document.t)
    (chunk_size chunk_overlap : Z) :
  NoDup (map Document.id documents) ->
  NoDup (map DocumentChunk.id (batch tiktoken documents chunk_size chunk_overlap).1).
Proof.
  rewrite batch_spec. simpl.
  induction documents as [|d documents IH]; intros Hnd; simpl; [constructor|].
  apply NoDup_cons in Hnd as [Hd Hnd].
  rewrite map_app, document_chunk_ids. apply NoDup_app. split; [|split].
  - apply NoDup_alt. intros i j x Hi Hj.
    by destruct (enumerate_chunks_inj _ _ _ _ _ _ _ Hi Hj).
  - intros x Hx Hx'. apply Hd.
    apply list_elem_of_lookup in Hx as [i Hi].
    apply list_elem_of_In, in_map_iff in Hx' as (c & <- & Hc).
    apply in_concat in Hc as (l & Hl & Hc).
    apply in_map_iff in Hl as (d' & <- & Hd').
    apply list_elem_of_In, list_elem_of_lookup in Hc as [k Hk].
    apply document_chunks_lookup in Hk as (i' & piece & Hi' & _ & ->). simpl in Hi.
    destruct (enumerate_chunks_inj _ _ _ _ _ _ _ Hi Hi') as [-> _].
    apply list_elem_of_In, in_map. done.
  - by apply IH.
Qed.

Lemma batch_chunk_ids_distinct_witness :
  NoDup (map DocumentChunk.id
           (batch None [examples.hello_document; examples_more.second_document] 4 1).1).
Proof.
  apply batch_chunk_ids_distinct. simpl.
  apply NoDup_cons. split.
  - intros Hin. apply list_elem_of_singleton in Hin. discriminate.
  - apply NoDup_singleton.
Defined.

End chunk_ids.

(** ** More on ingestion and persistence *)

Section store_more.
Import models chunking vector_store spec spec_more.

(** Every way [add_documents] can go. *)
Lemma add_documents_cases (tiktoken : option Encoding) (documents : list Document.t)
    (embedder : EmbeddingBackend) (chunk_size chunk_overlap : Z)
    (self : VectorStore) (d : directory) :
  let new_chunks := (batch tiktoken documents chunk_size chunk_overlap).1 in
  let chunk_texts := (batch tiktoken documents chunk_size chunk_overlap).2 in
  add_documents tiktoken documents embedder chunk_size chunk_overlap (self, d)
  = match new_chunks with
    | [] => (inr tt, (self, d))
    | _ :: _ =>
        match embed embedder chunk_texts with
        | inl e => (inl e, (self, d))
        | inr (np.Nd2 m) =>
            match _embeddings self with
            | Some old =>
                if (np.ncols m =? np.ncols old)%nat
                then (inr tt, (after_add self new_chunks m (model_name embedder),
                               mirror (after_add self new_chunks m (model_name embedder))))
                else (inl (ValueError "Embedding dimension mismatch"), (self, d))
            | None =>
                (inr tt, (after_add self new_chunks m (model_name embedder),
                          mirror (after_add self new_chunks m (model_name embedder))))
            end
        | inr _ => (inl (ValueError "Embeddings must be a 2D array"), (self, d))
        end
    end.
Proof.
  intros new_chunks chunk_texts. unfold new_chunks, chunk_texts, batch, add_documents.
  destruct (fold_left _ documents ([], [])) as [nc texts]. simpl.
  destruct nc as [|c nc]; [done|].
  unfold bind at 1, lift.
  destruct (embed embedder texts) as [e|[x|v|m|extra]]; try done.
  unfold bind, get_self, put_self, raise, ret, _save, write_files, after_add, mirror. simpl.
  destruct (_embeddings self) as [old|] eqn:Eold; simpl.
  - by destruct (np.ncols m =? np.ncols old)%nat.
  - done.
Qed.

(** X9: the three exceptions raised before the first assignment leave
    everything as it was.  On a batch that is not empty, when the provider
    raises, when what it returns is not two-dimensional, and when its
    width is not the stored one, [add_documents] raises that exception and
    the instance and both artifacts are exactly as before the call.  (The
    later steps, the read of the model name and the write, come after the
    assignments; the model performs them without an exception and this
    statement says nothing of one.) *)
Theorem add_documents_raises_unchanged (tiktoken : option Encoding)
    (documents : list Document.t) (embedder : EmbeddingBackend)
    (chunk_size chunk_overlap : Z) (self : VectorStore) (d : directory) (e : exn) :
  let new_chunks := (batch tiktoken documents chunk_size chunk_overlap).1 in
  let chunk_texts := (batch tiktoken documents chunk_size chunk_overlap).2 in
  new_chunks <> [] ->
  embed embedder chunk_texts = inl e \/
  (exists a, embed embedder chunk_texts = inr a /\ np.ndim a <> 2%nat /\
             e = ValueError "Embeddings must be a 2D array") \/
  (exists m old, embed embedder chunk_texts = inr (np.Nd2 m) /\
                 _embeddings self = Some old /\ np.ncols m <> np.ncols old /\
                 e = ValueError "Embedding dimension mismatch") ->
  add_documents tiktoken documents embedder chunk_size chunk_overlap (self, d)
  = (inl e, (self, d)).
Proof.
  intros new_chunks chunk_texts Hne Hraise. rewrite add_documents_cases.
  fold new_chunks chunk_texts. destruct new_chunks as [|c nc]; [done|].
  destruct Hraise as [->|[(a & -> & Hdim & ->)|(m & old & -> & -> & Hw & ->)]].
  - done.
  - by destruct a.
  - by destruct (Nat.eqb_spec (np.ncols m) (np.ncols old)).
Qed.

Lemma add_documents_raises_unchanged_witness :
  add_documents None [examples.hello_document] examples_more.flat_embedder 500 100
                (examples.unit_store, examples.empty_directory)
  = (inl (ValueError "Embeddings must be a 2D array"),
     (examples.unit_store, examples.empty_directory)).
Proof.
  apply (add_documents_raises_unchanged None [examples.hello_document]
           examples_more.flat_embedder 500 100
           examples.unit_store examples.empty_directory
           (ValueError "Embeddings must be a 2D array")).
  - discriminate.
  - right. left. exists (np.Nd1 [np.one]).
    split; [reflexivity|]. split; [discriminate|reflexivity].
Defined.

Lemma document_chunks_empty (tiktoken : option Encoding) (chunk_size chunk_overlap : Z)
    (document : Document.t) :
  Document.content document = "" ->
  document_chunks tiktoken chunk_size chunk_overlap document = [].
Proof. intros H. unfold document_chunks. by rewrite H. Qed.

(** X10: when every document has an empty content (or there is no
    document), [add_documents] returns normally, changes neither the
    instance nor the directory, and does not call the provider: this holds
    for every provider, one that raises included, and every tokenizer. *)
Theorem add_documents_nothing_to_add (tiktoken : option Encoding)
    (documents : list Document.t) (embedder : EmbeddingBackend)
    (chunk_size chunk_overlap : Z) (w : VectorStore * directory) :
  Forall (fun d => Document.content d = "") documents ->
  add_documents tiktoken documents embedder chunk_size chunk_overlap w = (inr tt, w).
Proof.
  intros Hall. destruct w as [self d]. rewrite add_documents_cases, batch_spec. simpl.
  assert (Hnil : concat (map (document_chunks tiktoken chunk_size chunk_overlap) documents)
                 = []).
  { induction Hall as [|doc documents Hdoc _ IH]; [done|].
    simpl. by rewrite document_chunks_empty, IH. }
  by rewrite Hnil.
Qed.

Lemma add_documents_nothing_to_add_witness :
  add_documents None [Document.mk "blank" "web" "" ∅] examples_more.broken_embedder 500 100
    (examples.unit_store, examples.empty_directory)
  = (inr tt, (examples.unit_store, examples.empty_directory)).
Proof.
  apply add_documents_nothing_to_add. apply Forall_cons. split; [reflexivity|].
  apply Forall_nil_2.
Defined.

(** X11: a successful ingest into a store that holds a matrix of width
    [d]: when the batch is not empty and the provider returns a
    two-dimensional matrix of width [d], the call returns normally; the new
    chunks follow the stored ones and the new rows the stored rows, so
    what was stored keeps its position; the model name is recorded; both
    artifacts are rewritten with exactly this state.  Nothing relates the
    number of rows of the matrix to the number of new chunks. *)
Theorem add_documents_appends (tiktoken : option Encoding)
    (documents : list Document.t) (embedder : EmbeddingBackend)
    (chunk_size chunk_overlap : Z) (self : VectorStore) (d : directory)
    (old m : np.matrix) :
  _embeddings self = Some old ->
  (batch tiktoken documents chunk_size chunk_overlap).1 <> [] ->
  embed embedder (batch tiktoken documents chunk_size chunk_overlap).2 = inr (np.Nd2 m) ->
  np.ncols m = np.ncols old ->
  let new_chunks := (batch tiktoken documents chunk_size chunk_overlap).1 in
  exists self' : VectorStore,
    add_documents tiktoken documents embedder chunk_size chunk_overlap (self, d)
    = (inr tt, (self', mirror self')) /\
    _chunks self' = _chunks self ++ new_chunks /\
    stored_rows self' = np.rows old ++ np.rows m /\
    embedding_dimension self' = Some (np.ncols old) /\
    _embedding_model self' = Some (model_name embedder) /\
    chunk_count self' = (chunk_count self + length new_chunks)%nat /\
    length (stored_rows self') = (length (np.rows old) + length (np.rows m))%nat.
Proof.
  intros Hold Hne Hembed Hcols new_chunks.
  exists (after_add self new_chunks m (model_name embedder)).
  rewrite add_documents_cases. fold new_chunks in Hne |- *.
  destruct new_chunks as [|c nc] eqn:Enc; [done|].
  rewrite Hembed, Hold, Hcols, Nat.eqb_refl.
  unfold after_add, stored_rows, embedding_dimension, chunk_count. rewrite Hold. simpl.
  rewrite !length_app. done.
Qed.

Lemma add_documents_appends_witness :
  exists self' : VectorStore,
    add_documents None [examples.hello_document] examples.row_embedder 500 100
      (examples.unit_store, examples.empty_directory)
    = (inr tt, (self', mirror self')) /\
    chunk_count self' = 4%nat.
Proof.
  assert (Hold : _embeddings examples.unit_store = Some examples.unit_rows) by reflexivity.
  assert (Hne : (batch None [examples.hello_document] 500 100).1 <> [])
    by (vm_compute; discriminate).
  assert (Hembed : embed examples.row_embedder (batch None [examples.hello_document] 500 100).2
                   = inr (np.Nd2 {| np.ncols := 2; np.rows := [[np.one; np.zero]] |}))
    by reflexivity.
  assert (Hcols : np.ncols {| np.ncols := 2; np.rows := [[np.one; np.zero]] |}
                  = np.ncols examples.unit_rows) by reflexivity.
  destruct (add_documents_appends None [examples.hello_document] examples.row_embedder
              500 100 examples.unit_store examples.empty_directory _ _
              Hold Hne Hembed Hcols)
    as (self' & Hadd & _ & _ & _ & _ & Hcount & _).
  exists self'. split; [exact Hadd|exact Hcount].
Defined.

(** A reachable store without a matrix has no chunk. *)
Lemma reachable_no_matrix (w : VectorStore * directory) :
  reachable w -> _embeddings w.1 = None -> _chunks w.1 = [].
Proof.
  induction 1 as [d self Hopen|[self d] tiktoken documents embedder cs co _ IH].
  - unfold __init__, _load in Hopen. injection Hopen as <-. simpl.
    destruct (metadata_json d) as [meta|]; [|done].
    by destruct (vectors_npy d).
  - rewrite add_documents_cases. simpl in IH.
    destruct (batch tiktoken documents cs co).1 as [|c nc]; [done|].
    destruct (embed embedder _) as [e|[x|v|m|extra]]; try done.
    destruct (_embeddings self) as [old|] eqn:Eold.
    + destruct (np.ncols m =? np.ncols old)%nat; simpl; [|by rewrite Eold].
      unfold after_add. by rewrite Eold.
    + simpl. unfold after_add. by rewrite Eold.
Qed.

(** X12: [add_documents] never drops or moves what is stored: for every
    store that can exist and every call, whatever its outcome, the chunk
    list before the call is a prefix of the chunk list after it, and the
    stored rows before are a prefix of the stored rows after. *)
Theorem add_documents_keeps_stored (tiktoken : option Encoding)
    (documents : list Document.t) (embedder : EmbeddingBackend)
    (chunk_size chunk_overlap : Z) (w : VectorStore * directory) :
  reachable w ->
  let w' := (add_documents tiktoken documents embedder chunk_size chunk_overlap w).2 in
  _chunks w.1 `prefix_of` _chunks w'.1 /\
  stored_rows w.1 `prefix_of` stored_rows w'.1.
Proof.
  intros Hw w'. pose proof (reachable_no_matrix w Hw) as Hnone.
  unfold w'. destruct w as [self d]. rewrite add_documents_cases. simpl in Hnone.
  destruct (batch tiktoken documents chunk_size chunk_overlap).1 as [|c nc];
    [split; reflexivity|].
  destruct (embed embedder _) as [e|[x|v|m|extra]]; try (split; reflexivity).
  unfold stored_rows, after_add. simpl.
  destruct (_embeddings self) as [old|] eqn:Eold.
  - destruct (np.ncols m =? np.ncols old)%nat; simpl.
    + split; apply prefix_app_r; reflexivity.
    + rewrite Eold. split; reflexivity.
  - simpl. rewrite Hnone by done. split; apply prefix_nil.
Qed.

(** A store that holds the chunk of a first ingest keeps it in first
    place through a second one. *)
Lemma add_documents_keeps_stored_witness :
  let w := (add_documents None [examples.hello_document] examples.row_embedder 500 100
              (examples_more.empty_store, examples.empty_directory)).2 in
  let w' := (add_documents None [examples_more.second_document] examples.row_embedder
               500 100 w).2 in
  map DocumentChunk.id (_chunks w.1) = ["hello-0001"] /\
  map DocumentChunk.id (_chunks w'.1) = ["hello-0001"; "guide-0001"] /\
  _chunks w.1 `prefix_of` _chunks w'.1 /\
  stored_rows w.1 `prefix_of` stored_rows w'.1.
Proof.
  intros w w'.
  assert (Hopen : __init__ examples.empty_directory = inr examples_more.empty_store)
    by reflexivity.
  assert (Hw : reachable w).
  { apply (reachable_add (examples_more.empty_store, examples.empty_directory)).
    exact (reachable_open _ _ Hopen). }
  split; [vm_compute; reflexivity|]. split; [vm_compute; reflexivity|].
  exact (add_documents_keeps_stored None [examples_more.second_document]
           examples.row_embedder 500 100 w Hw).
Defined.

(** X13: the width of the store, once set, never changes: after any
    [add_documents] call, whatever its outcome, [embedding_dimension] is
    what it was. *)
Theorem embedding_dimension_fixed (tiktoken : option Encoding)
    (documents : list Document.t) (embedder : EmbeddingBackend)
    (chunk_size chunk_overlap : Z) (w : VectorStore * directory) (width : nat) :
  embedding_dimension w.1 = Some width ->
  embedding_dimension
    (add_documents tiktoken documents embedder chunk_size chunk_overlap w).2.1
  = Some width.
Proof.
  destruct w as [self d]. intros Hdim. rewrite add_documents_cases.
  destruct (batch tiktoken documents chunk_size chunk_overlap).1 as [|c nc]; [done|].
  destruct (embed embedder _) as [e|[x|v|m|extra]]; try done.
  unfold embedding_dimension, after_add in *. simpl in Hdim.
  destruct (_embeddings self) as [old|] eqn:Eold; [|done].
  destruct (np.ncols m =? np.ncols old)%nat; simpl; [done|by rewrite Eold].
Qed.

Lemma embedding_dimension_fixed_witness :
  embedding_dimension
    (add_documents None [examples.hello_document] examples.row_embedder 500 100
       (examples.unit_store, examples.empty_directory)).2.1
  = Some 2%nat.
Proof.
  apply (embedding_dimension_fixed None [examples.hello_document] examples.row_embedder
           500 100 (examples.unit_store, examples.empty_directory) 2).
  reflexivity.
Defined.

(** X14: with a provider that returns one row per text, each of the width
    it announces, [add_documents] keeps the store in order: if before the
    call there are as many rows as chunks and every row has the stored
    width (or the store is empty), the same holds after it, whatever its
    outcome. *)
Theorem add_documents_keeps_store_ok (tiktoken : option Encoding)
    (documents : list Document.t) (embedder : EmbeddingBackend)
    (chunk_size chunk_overlap : Z) (w : VectorStore * directory) :
  provider_ok embedder -> store_ok w.1 ->
  store_ok (add_documents tiktoken documents embedder chunk_size chunk_overlap w).2.1.
Proof.
  intros Hprov Hok. destruct w as [self d]. rewrite add_documents_cases.
  simpl in Hok.
  assert (Htexts : (batch tiktoken documents chunk_size chunk_overlap).2
                   = map DocumentChunk.content
                       (batch tiktoken documents chunk_size chunk_overlap).1)
    by (by rewrite batch_spec).
  destruct (batch tiktoken documents chunk_size chunk_overlap).1 as [|c nc] eqn:Enc; [done|].
  destruct (embed embedder _) as [e|[x|v|m|extra]] eqn:Eembed; try done.
  destruct (Hprov _ _ Eembed) as [Hrows Hshape].
  rewrite Htexts, length_map in Hrows.
  unfold store_ok, after_add in *.
  destruct (_embeddings self) as [old|] eqn:Eold.
  - destruct (Nat.eqb_spec (np.ncols m) (np.ncols old)) as [Hcols|]; simpl;
      [|by rewrite Eold].
    destruct Hok as [Hlen Hwell]. split.
    + rewrite !length_app. simpl in *. lia.
    + unfold np.well_shaped in *. simpl. apply Forall_app. split; [done|].
      by rewrite <- Hcols.
  - simpl. split; [simpl in *; lia|done].
Qed.

Lemma add_documents_keeps_store_ok_witness :
  store_ok (add_documents None [examples.hello_document] examples.row_embedder 500 100
              (examples_more.empty_store, examples.empty_directory)).2.1.
Proof.
  apply add_documents_keeps_store_ok.
  - intros texts m [= <-]. split; simpl.
    + by rewrite length_map.
    + unfold np.well_shaped. simpl. apply Forall_forall.
      intros r Hr%list_elem_of_In%in_map_iff. by destruct Hr as (_ & <- & _).
  - reflexivity.
Defined.

(** X15: saving and reopening: for an instance that holds a matrix,
    [_save] rewrites both artifacts, whatever was there, and a store
    opened on them is that instance; for an instance without a matrix
    [_save] rewrites the metadata artifact only and leaves the vector
    artifact as it was. *)
Theorem save_then_open (self : VectorStore) (d : directory) :
  (forall m : np.matrix, _embeddings self = Some m ->
     _save (self, d) = (inr tt, (self, mirror self)) /\
     __init__ (_save (self, d)).2.2 = inr self) /\
  (_embeddings self = None ->
   (_save (self, d)).2.1 = self /\
   vectors_npy (_save (self, d)).2.2 = vectors_npy d /\
   metadata_json (_save (self, d)).2.2
   = Some {| payload_chunks := Some (_chunks self);
             payload_embedding_model := _embedding_model self |}).
Proof.
  unfold _save, bind, get_self, write_files, ret, mirror. simpl. split.
  - intros m Hm. rewrite Hm. simpl. split; [done|].
    unfold __init__, _load. simpl. destruct self as [cs emb model]. simpl in *.
    by rewrite Hm.
  - intros Hnone. by rewrite Hnone.
Qed.

Lemma save_then_open_witness :
  __init__ (_save (examples.unit_store, examples.mismatched_directory)).2.2
  = inr examples.unit_store.
Proof.
  exact (proj2 (proj1 (save_then_open examples.unit_store examples.mismatched_directory)
                  examples.unit_rows eq_refl)).
Defined.

End store_more.

(** ** More on retrieval *)

Section search_more.
Import models vector_store spec spec_more.

(** X16: what [search] needs to return normally on a store with chunks
    and a matrix, for every [top_k], zero and negative included: the
    provider must not raise and the query embedding must be
    two-dimensional with exactly one row, as wide as the stored rows.  And
    when the store has as many rows as chunks, an exception of [search] is
    the provider's own or a [ValueError]; it is never an index error. *)
Theorem search_needs_single_row_query (self : VectorStore) (m : np.matrix) (query : string)
    (embedder : EmbeddingBackend) (top_k : Z) :
  _chunks self <> [] -> _embeddings self = Some m ->
  (forall results, search self query embedder top_k = inr results ->
     exists qm q, embed embedder [query] = inr (np.Nd2 qm) /\
                  np.rows qm = [q] /\ length q = np.ncols m) /\
  (length (_chunks self) = length (np.rows m) ->
   forall e, search self query embedder top_k = inl e ->
     embed embedder [query] = inl e \/ exists msg, e = ValueError msg).
Proof.
  intros Hne Hm. unfold search. rewrite Hm.
  destruct (_chunks self) as [|c cs] eqn:Ec; [done|]. split.
  - intros results.
    destruct (embed embedder [query]) as [e|[x|v|qm|extra]]; try done.
    destruct (np.rows qm) as [|q [|q' rest]] eqn:Erows; try done.
    destruct (Nat.eqb_spec (np.ncols m) (length q)); [|done].
    intros _. by exists qm, q.
  - intros Hlen e.
    destruct (embed embedder [query]) as [e'|[x|v|qm|extra]] eqn:Eq;
      try (intros [= <-]; eauto; fail).
    destruct (np.rows qm) as [|q [|q' rest]] eqn:Erows;
      try (intros [= <-]; eauto; fail).
    destruct (Nat.eqb_spec (np.ncols m) (length q)) as [Hw|]; simpl;
      [|intros [= <-]; eauto].
    destruct (results_of_spec (c :: cs) (similarities m q)
                (top_indices (similarities m q) top_k)) as (rs & Hrs & _).
    + by rewrite similarities_length.
    + apply Forall_forall. intros idx Hin. apply list_elem_of_lookup in Hin as [p Hp].
      by eapply top_indices_lt.
    + rewrite Hrs. done.
Qed.

Lemma search_needs_single_row_query_witness :
  exists qm q, embed examples.unit_embedder ["q"] = inr (np.Nd2 qm) /\
               np.rows qm = [q] /\ length q = 2%nat.
Proof.
  assert (Hne : _chunks examples.unit_store <> []) by discriminate.
  assert (Hm : _embeddings examples.unit_store = Some examples.unit_rows) by reflexivity.
  assert (Hs : search examples.unit_store "q" examples.unit_embedder 2
               = inr [SearchResult.mk examples.chunk_a np.one;
                      SearchResult.mk examples.chunk_b np.zero])
    by (vm_compute; reflexivity).
  exact (proj1 (search_needs_single_row_query examples.unit_store examples.unit_rows "q"
                  examples.unit_embedder 2 Hne Hm) _ Hs).
Defined.

Lemma kept_mono (n : nat) (k1 k2 : Z) :
  (0 <= k1 <= k2)%Z -> (kept n k1 <= kept n k2)%nat.
Proof.
  intros H. unfold kept, Py.clamp.
  destruct (Z.ltb_spec k1 0), (Z.ltb_spec k2 0); lia.
Qed.

(** X17: asking for more never changes what comes first: on a store
    aligned with its rows and a well-shaped query, for
    [0 <= k1 <= k2] the results for [top_k = k1] are the first [k1]
    results for [top_k = k2]. *)
Theorem search_results_are_prefixes (self : VectorStore) (doc_vectors : np.matrix)
    (query : string) (embedder : EmbeddingBackend) (query_vec : list np.float32)
    (k1 k2 : Z) :
  aligned self doc_vectors -> (1 <= length (_chunks self))%nat ->
  embeds_as embedder query doc_vectors query_vec ->
  (0 <= k1 <= k2)%Z ->
  exists results : list SearchResult.t,
    search self query embedder k2 = inr results /\
    search self query embedder k1 = inr (take (Z.to_nat k1) results).
Proof.
  intros Hal Hn Hq Hk.
  set (sims := similarities doc_vectors query_vec).
  destruct (search_results self doc_vectors query embedder query_vec k2 Hal Hn Hq)
    as (results & Hsearch & Hall).
  fold sims in Hall. exists results. split; [done|].
  rewrite (search_aligned _ _ _ _ _ k2 Hal Hn Hq) in Hsearch.
  rewrite (search_aligned _ _ _ _ _ k1 Hal Hn Hq). fold sims in Hsearch |- *.
  assert (Htake : top_indices sims k1 = take (kept (length sims) k1) (top_indices sims k2)).
  { rewrite !top_indices_take, take_take. f_equal.
    pose proof (kept_mono (length sims) k1 k2 Hk). lia. }
  rewrite Htake, (results_of_take _ _ _ _ _ Hsearch). f_equal.
  pose proof (Forall2_length _ _ _ Hall) as Hlen. rewrite top_indices_length in Hlen.
  assert (Hk1 : kept (length sims) k1 = Nat.min (Z.to_nat k1) (length sims)).
  { unfold kept, Py.clamp. destruct (Z.ltb_spec k1 0); lia. }
  assert (Hk2 : (kept (length sims) k2 <= length sims)%nat).
  { unfold kept, Py.clamp. destruct (Z.ltb_spec k2 0); lia. }
  rewrite Hk1. destruct (Nat.le_gt_cases (Z.to_nat k1) (length sims)).
  - by rewrite Nat.min_l.
  - rewrite Nat.min_r by lia. by rewrite !take_ge by lia.
Qed.

Lemma search_results_are_prefixes_witness :
  exists results,
    search examples.unit_store "q" examples.unit_embedder 3 = inr results /\
    search examples.unit_store "q" examples.unit_embedder 1 = inr (take 1 results).
Proof.
  assert (Hal : aligned examples.unit_store examples.unit_rows) by (split; reflexivity).
  assert (Hn : (1 <= length (_chunks examples.unit_store))%nat) by (simpl; lia).
  assert (Hq : embeds_as examples.unit_embedder "q" examples.unit_rows [np.one; np.zero]).
  { eexists. split; [reflexivity|]. split; reflexivity. }
  assert (Hk : (0 <= 1 <= 3)%Z) by lia.
  exact (search_results_are_prefixes examples.unit_store examples.unit_rows "q"
           examples.unit_embedder [np.one; np.zero] 1 3 Hal Hn Hq Hk).
Defined.

Lemma fold_zero_products (n : nat) :
  fold_left (fun (acc : np.float32) (xy : np.float32 * np.float32) =>
               np.add acc (np.mul xy.1 xy.2))
            (replicate n (np.zero, np.zero)) np.zero = np.zero.
Proof. induction n as [|n IH]; [done|]. simpl. exact IH. Qed.

Lemma fold_zero_squares (n : nat) :
  fold_left (fun (acc x : np.float32) => np.add acc (np.mul x x))
            (replicate n np.zero) np.zero = np.zero.
Proof. induction n as [|n IH]; [done|]. simpl. exact IH. Qed.

Lemma zip_replicate {A B} (n m : nat) (a : A) (b : B) :
  zip (replicate n a) (replicate m b) = replicate (Nat.min n m) (a, b).
Proof.
  revert m. induction n as [|n IH]; intros [|m]; simpl; try done. by rewrite IH.
Qed.

(** X18: the added [1e-10] keeps zero vectors from dividing by zero: for
    every width and every number of rows, stored rows of zeros and a query
    of zeros all get the similarity 0, where the quotient without the
    added constant, 0 / (0 * 0), is a NaN. *)
Theorem zero_vectors_score_zero (width count : nat) :
  similarities {| np.ncols := width; np.rows := replicate count (replicate width np.zero) |}
               (replicate width np.zero)
  = replicate count np.zero /\
  np.div (np.dot (replicate width np.zero) (replicate width np.zero))
         (np.mul (np.norm (replicate width np.zero)) (np.norm (replicate width np.zero)))
  = S754_nan.
Proof.
  assert (Hdot : np.dot (replicate width np.zero) (replicate width np.zero) = np.zero).
  { unfold np.dot. rewrite zip_replicate. apply fold_zero_products. }
  assert (Hnorm : np.norm (replicate width np.zero) = np.zero).
  { unfold np.norm. by rewrite fold_zero_squares. }
  split.
  - unfold similarities. simpl.
    change (map ?f ?l) with (f <$> l). rewrite !fmap_replicate, Hdot, Hnorm.
    rewrite zip_with_replicate. reflexivity.
  - by rewrite Hdot, Hnorm.
Qed.

End search_more.

(** ** Citations, the chat engine and the Notion loader *)

Section engine_more.
Import models chunking vector_store engine spec spec_more.

Lemma str_nonempty (n : Z) : Py.str n <> "".
Proof.
  unfold Py.str. destruct (Z.ltb_spec n 0); [done|].
  intros Hnil. apply (f_equal String.length) in Hnil.
  rewrite digits_numeral, length_numeral in Hnil.
  destruct (digits_be_spec n ltac:(lia)) as (_ & _ & _ & L & HL & _).
  rewrite HL in Hnil. discriminate.
Qed.

Lemma format_truthy_nonempty (v : pyval) : truthy v = true -> format v <> "".
Proof.
  destruct v as [|[]|n|s]; simpl; try done.
  - intros _. apply str_nonempty.
  - by destruct (String.eqb_spec s "").
Qed.

(** X19: a citation is never an empty or otherwise false value: whenever
    [citation] is not [None] its value is truthy and its text is not
    empty, so [citation or chunk.id] is the citation; the chunk
    identifier stands in only when [citation] is [None]. *)
Theorem citation_is_truthy (r : SearchResult.t) :
  (forall v : pyval,
     SearchResult.citation r = Some v ->
     truthy v = true /\ format v <> "" /\ citation_or_id r = v) /\
  (SearchResult.citation r = None ->
   citation_or_id r = PStr (DocumentChunk.id (SearchResult.chunk r))).
Proof.
  split.
  - intros v Hv.
    assert (Ht : truthy v = true).
    { unfold SearchResult.citation in Hv.
      destruct (truthy (dict_get _ "title")) eqn:Et.
      - injection Hv as <-. simpl.
        destruct (String.eqb_spec (format (dict_get (DocumentChunk.metadata
                                                      (SearchResult.chunk r)) "title")) "")
          as [Hnil|]; [|done].
        by apply format_truthy_nonempty in Et.
      - destruct (truthy (dict_get _ "path")) eqn:Ep; [|done]. by injection Hv as <-. }
    split; [done|]. split; [by apply format_truthy_nonempty|].
    unfold citation_or_id. by rewrite Hv, Ht.
  - intros Hnone. unfold citation_or_id. by rewrite Hnone.
Qed.

Lemma citation_is_truthy_witness :
  citation_or_id examples.untitled_result = PStr "export/notes.md".
Proof.
  destruct (citation_is_truthy examples.untitled_result) as [Hsome _].
  assert (Hc : SearchResult.citation examples.untitled_result
               = Some (PStr "export/notes.md")) by (vm_compute; reflexivity).
  exact (proj2 (proj2 (Hsome _ Hc))).
Defined.

Lemma segment_starts (idx : Z) (r : SearchResult.t) :
  exists rest, segment idx r = String "[" rest.
Proof. unfold segment. eexists. reflexivity. Qed.

Lemma build_context_nonempty (results : list SearchResult.t) :
  results <> [] -> _build_context results <> "".
Proof.
  destruct results as [|r rs]; [done|]. intros _ Hnil.
  unfold _build_context, PyStr.join in Hnil. simpl in Hnil.
  destruct (segment_starts 1 r) as [rest Hseg]. rewrite Hseg in Hnil.
  destruct (map _ (Py.enumerate (1 + 1) rs)); discriminate.
Qed.

(** X20: the context built for the chat model is the empty string exactly
    when there is no search result. *)
Theorem build_context_empty_iff (results : list SearchResult.t) :
  _build_context results = "" <-> results = [].
Proof.
  split; [|by intros ->].
  intros Hnil. destruct results as [|r rs]; [done|].
  by destruct (build_context_nonempty (r :: rs)).
Qed.

(** X21: how [ask] ends.  An exception of [search] goes through.  When
    [search] finds nothing (always so on a store without chunks, for every
    [top_k]) the fixed "could not find" answer comes back with no
    reference, and the chat model is not called: this holds for every chat
    model, one that raises included.  When [search] finds results, the
    chat model gets the system prompt and the context with the question,
    its answer comes back with exactly those results as references, and
    its exception goes through. *)
Theorem ask_outcomes (self : ChatEngine) (question : string) (top_k : Z) :
  let nothing_found :=
    {| answer := "I could not find any relevant information in the knowledge base. " +:+
                 "Please ingest documents before chatting.";
       references := [] |} in
  let messages := fun rs : list SearchResult.t =>
    [ {| role := "system"; content := system_prompt self |};
      {| role := "user";
         content := "Context:" +:+ String "010" (_build_context rs) +:+
                    String "010" (String "010" EmptyString) +:+
                    "Question: " +:+ question +:+ String "010" EmptyString |} ] in
  (forall e, search (store self) question (embedder self) top_k = inl e ->
     ask self question top_k = inl e) /\
  (search (store self) question (embedder self) top_k = inr [] ->
   ask self question top_k = inr nothing_found) /\
  (_chunks (store self) = [] -> ask self question top_k = inr nothing_found) /\
  (forall rs, search (store self) question (embedder self) top_k = inr rs -> rs <> [] ->
     (forall a, generate (chat_model self) (messages rs) = inr a ->
        ask self question top_k = inr {| answer := a; references := rs |}) /\
     (forall e, generate (chat_model self) (messages rs) = inl e ->
        ask self question top_k = inl e)).
Proof.
  intros nothing_found messages. unfold ask. repeat split.
  - intros e He. by rewrite He.
  - intros He. by rewrite He.
  - intros Hnil. unfold search. by rewrite Hnil.
  - intros a Ha. rewrite H.
    destruct (String.eqb_spec (_build_context rs) "") as [Hc|_].
    + by destruct (build_context_nonempty rs).
    + fold (messages rs). by rewrite Ha.
  - intros e He. rewrite H.
    destruct (String.eqb_spec (_build_context rs) "") as [Hc|_].
    + by destruct (build_context_nonempty rs).
    + fold (messages rs). by rewrite He.
Qed.

Lemma ask_outcomes_witness :
  exists response : ChatResponse,
    ask {| store := examples_more.empty_store; embedder := examples_more.broken_embedder;
           chat_model := examples_more.broken_chat;
           system_prompt := DEFAULT_SYSTEM_PROMPT |} "how?" 5
    = inr response /\ references response = [].
Proof.
  eexists. split.
  - apply (proj1 (proj2 (proj2 (ask_outcomes
             {| store := examples_more.empty_store; embedder := examples_more.broken_embedder;
                chat_model := examples_more.broken_chat;
                system_prompt := DEFAULT_SYSTEM_PROMPT |} "how?" 5)))).
    reflexivity.
  - reflexivity.
Defined.

(** X22: the Notion loader and what its document becomes.  A path that
    does not exist raises [FileNotFoundError]; an exception of [exists] or
    of [read_text] (a directory, an unreadable file, bytes that are not
    UTF-8) leaves the loader as it is; and when the text is read, the
    loader returns exactly one document: that text, the stem as
    identifier, the given source and the path as only metadata.  Every
    chunk ingested from it has that source and document identifier, and,
    the path text not being empty, every search result on such a chunk
    cites the path. *)
Theorem notion_export_cited_by_path (path_exists : string -> notion.error + bool)
    (read_text : string -> notion.error + string)
    (file_path : notion.Path) (source_id : string)
    (tiktoken : option Encoding) (chunk_size chunk_overlap : Z) :
  (path_exists (notion.path_str file_path) = inr false ->
   exists msg, notion.load_notion_export path_exists read_text file_path source_id
               = inl (notion.FileNotFoundError msg)) /\
  (forall e,
     path_exists (notion.path_str file_path) = inl e \/
     (path_exists (notion.path_str file_path) = inr true /\
      read_text (notion.path_str file_path) = inl e) ->
     notion.load_notion_export path_exists read_text file_path source_id = inl e) /\
  (forall text,
     path_exists (notion.path_str file_path) = inr true ->
     read_text (notion.path_str file_path) = inr text ->
     exists d : Document.t,
       notion.load_notion_export path_exists read_text file_path source_id = inr [d] /\
       Document.content d = text /\
       Document.id d = notion.stem file_path /\
       Document.source d = source_id /\
       forall c : DocumentChunk.t,
         c ∈ (batch tiktoken [d] chunk_size chunk_overlap).1 ->
         DocumentChunk.document_id c = notion.stem file_path /\
         DocumentChunk.source c = source_id /\
         (notion.path_str file_path <> "" ->
          forall score, SearchResult.citation (SearchResult.mk c score)
                        = Some (PStr (notion.path_str file_path)))).
Proof.
  unfold notion.load_notion_export. split; [|split].
  - intros ->. by eexists.
  - intros e [->|[-> ->]]; done.
  - intros text -> ->. eexists. split; [done|]. simpl. repeat split; try done.
    + rewrite batch_spec in H. simpl in H. rewrite app_nil_r in H.
      apply list_elem_of_lookup in H as [k Hk].
      by apply document_chunks_lookup in Hk as (i & piece & _ & _ & ->).
    + rewrite batch_spec in H. simpl in H. rewrite app_nil_r in H.
      apply list_elem_of_lookup in H as [k Hk].
      by apply document_chunks_lookup in Hk as (i & piece & _ & _ & ->).
    + intros Hne score. rewrite batch_spec in H. simpl in H. rewrite app_nil_r in H.
      apply list_elem_of_lookup in H as [k Hk].
      apply document_chunks_lookup in Hk as (i & piece & _ & _ & ->).
      unfold SearchResult.citation, dict_get. simpl.
      rewrite lookup_insert_ne by done. rewrite lookup_empty. simpl.
      rewrite lookup_insert_eq. simpl.
      by destruct (String.eqb_spec (notion.path_str file_path) "").
Qed.

(** A readable export gives its one document; a directory in its place
    gives the exception of [read_text]. *)
Lemma notion_export_cited_by_path_witness :
  (exists d : Document.t,
     notion.load_notion_export (fun _ => inr true) (fun _ => inr "some notes")
                               examples_more.notes_path "notion"
     = inr [d] /\ Document.id d = "notes") /\
  notion.load_notion_export (fun _ => inr true)
                            (fun _ => inl (notion.IsADirectoryError "Is a directory"))
                            examples_more.notes_path "notion"
  = inl (notion.IsADirectoryError "Is a directory").
Proof.
  split.
  - destruct (proj2 (proj2 (notion_export_cited_by_path (fun _ => inr true)
                              (fun _ => inr "some notes")
                              examples_more.notes_path "notion" None 500 100))
                "some notes" eq_refl eq_refl) as (d & Hload & _ & Hid & _).
    exists d. split; [exact Hload|exact Hid].
  - apply (proj1 (proj2 (notion_export_cited_by_path (fun _ => inr true)
                           (fun _ => inl (notion.IsADirectoryError "Is a directory"))
                           examples_more.notes_path "notion" None 500 100))).
    right. split; reflexivity.
Defined.

End engine_more.

(** ** Where the references of an answer come from *)

Section ask_references.
Import models vector_store engine spec.

Lemma results_of_inv (chunks : list DocumentChunk.t) (sims : list np.float32)
    (indices : list nat) (rs : list SearchResult.t) :
  results_of chunks sims indices = inr rs ->
  Forall2 (fun idx r => chunks !! idx = Some (SearchResult.chunk r)) indices rs.
Proof.
  revert rs. induction indices as [|idx indices IH]; intros rs; cbn [results_of].
  - intros [= <-]. constructor.
  - destruct (chunks !! idx) as [c|] eqn:Ec; [|done].
    destruct (sims !! idx) as [x|]; [|done].
    destruct (results_of chunks sims indices) as [e|rs']; [done|].
    intros [= <-]. constructor; [done|by apply IH].
Qed.

Lemma search_positions (self : VectorStore) (query : string) (embedder : EmbeddingBackend)
    (top_k : Z) (rs : list SearchResult.t) :
  search self query embedder top_k = inr rs ->
  exists indices : list nat,
    NoDup indices /\
    Forall2 (fun idx r => _chunks self !! idx = Some (SearchResult.chunk r)) indices rs /\
    ((0 <= top_k)%Z -> (Z.of_nat (length indices) <= top_k)%Z).
Proof.
  assert (Hnil : forall l : list SearchResult.t, inr (A := exn) [] = inr l ->
            exists indices : list nat,
              NoDup indices /\
              Forall2 (fun idx r => _chunks self !! idx = Some (SearchResult.chunk r))
                indices l /\
              ((0 <= top_k)%Z -> (Z.of_nat (length indices) <= top_k)%Z)).
  { intros l [= <-]. exists []. split; [constructor|]. split; [constructor|]. simpl. lia. }
  unfold search.
  destruct (_chunks self) as [|c cs] eqn:Ec; [apply Hnil|].
  destruct (_embeddings self) as [doc_vectors|]; [|apply Hnil].
  destruct (embed embedder [query]) as [e|[| |query_vec|]]; try done.
  destruct (np.rows query_vec) as [|q [|q' qs]]; try done.
  destruct (negb _); [done|]. intros Hrs.
  exists (top_indices (similarities doc_vectors q) top_k).
  split; [apply top_indices_NoDup|]. split; [by eapply results_of_inv|].
  intros Hk. rewrite top_indices_length. unfold kept, Py.clamp.
  destruct (Z.ltb_spec top_k 0); lia.
Qed.

(** X23: the references of an answer are chunks of the store at pairwise
    distinct positions: whenever [ask] returns, no position is referred to
    twice, so there are at most [chunk_count] references, and for
    [top_k >= 0] at most [top_k]. *)
Theorem ask_references_from_store (self : ChatEngine) (question : string) (top_k : Z)
    (response : ChatResponse) :
  ask self question top_k = inr response ->
  exists indices : list nat,
    NoDup indices /\
    Forall2 (fun idx r => _chunks (store self) !! idx = Some (SearchResult.chunk r))
      indices (references response) /\
    (length (references response) <= chunk_count (store self))%nat /\
    ((0 <= top_k)%Z -> (Z.of_nat (length (references response)) <= top_k)%Z).
Proof.
  intros Hask.
  assert (Hpos : exists indices : list nat,
            NoDup indices /\
            Forall2 (fun idx r => _chunks (store self) !! idx = Some (SearchResult.chunk r))
              indices (references response) /\
            ((0 <= top_k)%Z -> (Z.of_nat (length indices) <= top_k)%Z)).
  { unfold ask in Hask.
    destruct (search (store self) question (embedder self) top_k) as [e|rs] eqn:Es; [done|].
    destruct (String.eqb _ _).
    - injection Hask as <-. exists []. split; [constructor|]. split; [constructor|].
      simpl. lia.
    - destruct (generate _ _) as [e|a]; [done|]. injection Hask as <-.
      by apply search_positions in Es. }
  destruct Hpos as (indices & Hnd & Hall & Hk). exists indices.
  split; [done|]. split; [done|].
  pose proof (Forall2_length _ _ _ Hall) as Hlen. split; [|by rewrite <- Hlen].
  rewrite <- Hlen. unfold chunk_count.
  rewrite <- (length_seq (length (_chunks (store self))) 0).
  apply submseteq_length, NoDup_submseteq; [done|].
  intros idx Hidx. apply list_elem_of_lookup in Hidx as [p Hp].
  destruct (Forall2_lookup_l _ _ _ _ _ Hall Hp) as (r & _ & Hc).
  apply lookup_lt_Some in Hc. apply elem_of_seq. lia.
Qed.

Lemma ask_references_from_store_witness :
  exists response : ChatResponse,
    ask {| store := examples.unit_store; embedder := examples.unit_embedder;
           chat_model := examples_more.echo_chat;
           system_prompt := DEFAULT_SYSTEM_PROMPT |} "q" 1 = inr response /\
    (Z.of_nat (length (references response)) <= 1)%Z.
Proof.
  assert (Hs : ask {| store := examples.unit_store; embedder := examples.unit_embedder;
                      chat_model := examples_more.echo_chat;
                      system_prompt := DEFAULT_SYSTEM_PROMPT |} "q" 1
               = inr {| answer := "ok";
                        references := [SearchResult.mk examples.chunk_a np.one] |})
    by (vm_compute; reflexivity).
  eexists. split; [exact Hs|].
  destruct (ask_references_from_store _ _ _ _ Hs) as (indices & _ & _ & _ & Hk).
  apply Hk. lia.
Defined.

End ask_references.

(** ** The crawler *)

Section clean_text.
Import models ingestion_web spec_more.

Lemma string_app_assoc (a b c : string) : (a +:+ b) +:+ c = a +:+ (b +:+ c).
Proof.
  induction a as [|x a IH]; [done|].
  change (String x a +:+ b) with (String x (a +:+ b)).
  change (String x (a +:+ b) +:+ c) with (String x ((a +:+ b) +:+ c)).
  by rewrite IH.
Qed.

Lemma split_from_nonempty (s word : string) : word <> "" -> PyStr.split_from word s <> [].
Proof.
  revert word. induction s as [|c s IH]; intros word Hw; cbn [PyStr.split_from].
  - by destruct (String.eqb_spec word "").
  - destruct (PyStr.isspace c).
    + by destruct (String.eqb_spec word "").
    + apply IH. by destruct word.
Qed.

(** Reading a word moves it into the run being read. *)
Lemma split_from_word (w word s : string) :
  Forall (fun c => PyStr.isspace c = false) (list_ascii_of_string w) ->
  PyStr.split_from word (w +:+ s) = PyStr.split_from (word +:+ w) s.
Proof.
  revert word. induction w as [|c w IH]; intros word Hw.
  - by rewrite append_empty_r.
  - change (String c w +:+ s) with (String c (w +:+ s)).
    simpl in Hw. apply Forall_cons in Hw as [Hc Hw].
    cbn [PyStr.split_from]. rewrite Hc, IH by done.
    rewrite string_app_assoc. reflexivity.
Qed.

Lemma split_from_words (s word : string) :
  word = "" \/ is_word word -> Forall is_word (PyStr.split_from word s).
Proof.
  revert word. induction s as [|c s IH]; intros word Hw; cbn [PyStr.split_from].
  - destruct (String.eqb_spec word ""); [constructor|].
    destruct Hw as [|Hw]; [done|]. constructor; [done|constructor].
  - destruct (PyStr.isspace c) eqn:Ec.
    + destruct (String.eqb_spec word "").
      * apply IH. by left.
      * destruct Hw as [|Hw]; [done|]. constructor; [done|]. apply IH. by left.
    + apply IH. right. split; [by destruct word|].
      rewrite list_ascii_of_string_app. apply Forall_app. split.
      * destruct Hw as [->|[_ Hw]]; [constructor|done].
      * constructor; [done|constructor].
Qed.

Lemma split_join (ws : list string) :
  Forall is_word ws -> PyStr.split (PyStr.join " " ws) = ws.
Proof.
  unfold PyStr.split, PyStr.join.
  induction 1 as [|w ws [Hne Hw] Hws IH]; [reflexivity|].
  destruct ws as [|w' ws].
  - change (String.concat " " [w]) with w.
    rewrite <- (append_empty_r w) at 1. rewrite (split_from_word w "" "" Hw).
    change ("" +:+ w) with w. cbn [PyStr.split_from].
    by destruct (String.eqb_spec w "").
  - change (String.concat " " (w :: w' :: ws))
      with (w +:+ String " " (String.concat " " (w' :: ws))).
    rewrite (split_from_word w "" _ Hw).
    change ("" +:+ w) with w. cbn [PyStr.split_from].
    change (PyStr.isspace " ") with true. cbv iota.
    destruct (String.eqb_spec w ""); [done|]. by rewrite IH.
Qed.

Lemma split_blank (s : string) : PyStr.split s = [] <-> blank s.
Proof.
  unfold PyStr.split, blank. induction s as [|c s IH]; cbn [PyStr.split_from list_ascii_of_string].
  - split; [constructor|done].
  - destruct (PyStr.isspace c) eqn:Ec.
    + rewrite IH. split; [by constructor|]. by intros [_ ?]%Forall_cons.
    + split.
      * intros Hnil. by apply split_from_nonempty in Hnil.
      * intros [Hc _]%Forall_cons. congruence.
Qed.

Lemma join_words_empty (ws : list string) :
  Forall is_word ws -> PyStr.join " " ws = "" -> ws = [].
Proof.
  destruct 1 as [|w ws [Hne _] _]; [done|]. unfold PyStr.join.
  destruct ws as [|w' ws]; [done|].
  change (String.concat " " (w :: w' :: ws))
    with (w +:+ String " " (String.concat " " (w' :: ws))).
  by destruct w.
Qed.

(** X24: the text of a crawled page is its words joined by single spaces:
    [_clean_text] keeps the words of the page text (the maximal runs
    without white space, none of them empty), cleaning its result again
    changes nothing, and the result is empty exactly when the page text is
    white space only. *)
Theorem clean_text_normal_form (soup : Soup) :
  Forall is_word (PyStr.split (get_text soup)) /\
  PyStr.split (_clean_text soup) = PyStr.split (get_text soup) /\
  PyStr.join " " (PyStr.split (_clean_text soup)) = _clean_text soup /\
  (_clean_text soup = "" <-> blank (get_text soup)).
Proof.
  assert (Hws : Forall is_word (PyStr.split (get_text soup)))
    by (apply split_from_words; by left).
  assert (Hsplit : PyStr.split (_clean_text soup) = PyStr.split (get_text soup))
    by (by apply split_join).
  split; [done|]. split; [done|]. split; [by rewrite Hsplit|].
  rewrite <- split_blank. unfold _clean_text. split.
  - by apply join_words_empty.
  - by intros ->.
Qed.

End clean_text.

Section crawler.
Import models ingestion_web spec_more.

Context (urlparse : string -> error + ParseResult)
        (urljoin : string -> string -> error + string)
        (http_get : string -> option string) (BeautifulSoup : string -> Soup).

#[local] Abbreviation loop := (crawl_loop urlparse urljoin http_get BeautifulSoup).
#[local] Abbreviation links := (follow_links urlparse urljoin).
#[local] Abbreviation page url text title :=
  (Document.mk url "web" text (<["url" := PStr url]> (<["title" := PStr title]> ∅))).

Lemma crawl_loop_done (fuel : nat) (allowed_netloc : string) (allowed_paths : list string)
    (max_pages : Z) (queue : list string) (seen : gset string) (documents : list Document.t) :
  queue = [] \/ (max_pages <= Z.of_nat (length documents))%Z ->
  loop (S fuel) allowed_netloc allowed_paths max_pages queue seen documents
  = Some (inr documents).
Proof.
  intros [->|Hfull]; [done|]. destruct queue as [|url queue]; [done|].
  cbn [crawl_loop]. by destruct (Z.ltb_spec (Z.of_nat (length documents)) max_pages); [lia|].
Qed.

(** One turn of the loop on a queue that is not empty, below [max_pages]. *)
Lemma crawl_loop_step (fuel : nat) (allowed_netloc : string) (allowed_paths : list string)
    (max_pages : Z) (url : string) (queue : list string) (seen : gset string)
    (documents : list Document.t) :
  (Z.of_nat (length documents) < max_pages)%Z ->
  loop (S fuel) allowed_netloc allowed_paths max_pages (url :: queue) seen documents
  = if decide (url ∈ seen)
    then loop fuel allowed_netloc allowed_paths max_pages queue seen documents
    else match http_get url with
         | None => loop fuel allowed_netloc allowed_paths max_pages queue ({[ url ]} ∪ seen)
                        documents
         | Some response_text =>
             match title_or_url (BeautifulSoup response_text) url with
             | inl e => Some (inl e)
             | inr title =>
                 let documents' :=
                   documents ++ [page url (_clean_text (BeautifulSoup response_text)) title] in
                 if (max_pages <=? Z.of_nat (length documents'))%Z
                 then Some (inr documents')
                 else
                   match links allowed_netloc allowed_paths ({[ url ]} ∪ seen) url
                               (hrefs (BeautifulSoup response_text)) queue with
                   | inl e => Some (inl e)
                   | inr queue' =>
                       loop fuel allowed_netloc allowed_paths max_pages queue'
                            ({[ url ]} ∪ seen) documents'
                   end
             end
         end.
Proof.
  intros Hlt. cbn [crawl_loop].
  by destruct (Z.ltb_spec (Z.of_nat (length documents)) max_pages); [|lia].
Qed.

(** The loop ends: a page gathered brings the count nearer to
    [max_pages], any other turn shortens the queue or ends the crawl. *)
Lemma crawl_loop_total (allowed_netloc : string) (allowed_paths : list string)
    (max_pages : Z) (n : nat) (queue : list string) (seen : gset string)
    (documents : list Document.t) :
  (max_pages - Z.of_nat (length documents) <= Z.of_nat n)%Z ->
  exists fuel r, forall fuel', (fuel <= fuel')%nat ->
    loop fuel' allowed_netloc allowed_paths max_pages queue seen documents = Some r.
Proof.
  revert queue seen documents.
  induction n as [|n IHn]; intros queue; induction queue as [|url queue IHq];
    intros seen documents Hn.
  - exists 1%nat, (inr documents). intros [|f] Hf; [lia|]. apply crawl_loop_done. by left.
  - exists 1%nat, (inr documents). intros [|f] Hf; [lia|]. apply crawl_loop_done. right. lia.
  - exists 1%nat, (inr documents). intros [|f] Hf; [lia|]. apply crawl_loop_done. by left.
  - destruct (Z.lt_ge_cases (Z.of_nat (length documents)) max_pages) as [Hlt|Hge]; cycle 1.
    { exists 1%nat, (inr documents). intros [|f] Hf; [lia|]. apply crawl_loop_done.
      right. lia. }
    destruct (decide (url ∈ seen)) as [Hin|Hnin].
    { destruct (IHq seen documents Hn) as (fuel & r & Hr). exists (S fuel), r.
      intros [|f] Hf; [lia|]. rewrite crawl_loop_step by done.
      rewrite decide_True by done. apply Hr. lia. }
    destruct (http_get url) as [response_text|] eqn:Eg; cycle 1.
    { destruct (IHq ({[ url ]} ∪ seen) documents Hn) as (fuel & r & Hr). exists (S fuel), r.
      intros [|f] Hf; [lia|]. rewrite crawl_loop_step by done.
      rewrite decide_False, Eg by done. apply Hr. lia. }
    destruct (title_or_url (BeautifulSoup response_text) url) as [e|title] eqn:Et.
    { exists 1%nat, (inl e). intros [|f] Hf; [lia|]. rewrite crawl_loop_step by done.
      by rewrite decide_False, Eg, Et by done. }
    set (documents' := documents ++ [page url (_clean_text (BeautifulSoup response_text)) title]).
    destruct (Z.leb_spec max_pages (Z.of_nat (length documents'))) as [Hfull|Hmore].
    { exists 1%nat, (inr documents'). intros [|f] Hf; [lia|]. rewrite crawl_loop_step by done.
      rewrite decide_False, Eg, Et by done. cbv zeta. fold documents'.
      by destruct (Z.leb_spec max_pages (Z.of_nat (length documents'))); [|lia]. }
    destruct (links allowed_netloc allowed_paths ({[ url ]} ∪ seen) url
                    (hrefs (BeautifulSoup response_text)) queue) as [e|queue'] eqn:El.
    { exists 1%nat, (inl e). intros [|f] Hf; [lia|]. rewrite crawl_loop_step by done.
      rewrite decide_False, Eg, Et by done. cbv zeta. fold documents'.
      destruct (Z.leb_spec max_pages (Z.of_nat (length documents'))); [lia|].
      by rewrite El. }
    destruct (IHn queue' ({[ url ]} ∪ seen) documents') as (fuel & r & Hr).
    { subst documents'. rewrite length_app. simpl. lia. }
    exists (S fuel), r. intros [|f] Hf; [lia|]. rewrite crawl_loop_step by done.
    rewrite decide_False, Eg, Et by done. cbv zeta. fold documents'.
    destruct (Z.leb_spec max_pages (Z.of_nat (length documents'))); [lia|].
    rewrite El. apply Hr. lia.
Qed.

Lemma from_site_mono (base_url : string) (allowed_paths : list string)
    (documents : list Document.t) (d : Document.t) (url : string) :
  from_site urlparse urljoin http_get BeautifulSoup base_url allowed_paths documents url ->
  from_site urlparse urljoin http_get BeautifulSoup base_url allowed_paths
            (documents ++ [d]) url.
Proof.
  intros [->|(d' & response_text & href & Hd & H)]; [by left|].
  right. exists d', response_text, href. split; [|done].
  apply elem_of_app. by left.
Qed.

(** The links kept from a gathered page are links of the site. *)
Lemma follow_links_from_site (base_url : string) (parsed_base : ParseResult)
    (allowed_paths : list string) (seen : gset string) (documents : list Document.t)
    (d : Document.t) (response_text : string) (hs : list (option string))
    (queue queue' : list string) :
  urlparse base_url = inr parsed_base ->
  d ∈ documents ->
  http_get (Document.id d) = Some response_text ->
  (forall h, h ∈ hs -> h ∈ hrefs (BeautifulSoup response_text)) ->
  Forall (from_site urlparse urljoin http_get BeautifulSoup base_url allowed_paths documents)
         queue ->
  links (netloc parsed_base) allowed_paths seen (Document.id d) hs queue = inr queue' ->
  Forall (from_site urlparse urljoin http_get BeautifulSoup base_url allowed_paths documents)
         queue'.
Proof.
  intros Hbase Hd Hget. revert queue.
  induction hs as [|h hs IH]; intros queue Hlinks Hqueue; cbn [follow_links].
  { by intros [= <-]. }
  destruct (follow urlparse urljoin (netloc parsed_base) allowed_paths seen (Document.id d)
                   queue h) as [e|queue1] eqn:Ef; [done|].
  apply IH.
  { intros h' Hh'. apply Hlinks. by right. }
  unfold follow in Ef. destruct h as [href|]; [|by injection Ef as <-].
  destruct (String.eqb_spec href "") as [|Hhref]; [by injection Ef as <-|].
  destruct (urljoin (Document.id d) href) as [e|absolute] eqn:Ej; [done|].
  destruct (urlparse absolute) as [e|parsed] eqn:Ep; [done|].
  destruct (String.eqb_spec (netloc parsed) (netloc parsed_base)) as [Hnet|];
    [|by injection Ef as <-].
  cbn [negb] in Ef.
  destruct (_ && _) eqn:Epaths; [by injection Ef as <-|].
  destruct (decide _); injection Ef as <-; [done|].
  apply Forall_app. split; [done|]. constructor; [|constructor].
  right. exists d, response_text, href. split; [done|]. split; [done|].
  split; [apply Hlinks; by left|]. split; [done|].
  exists absolute, parsed, parsed_base.
  split; [done|]. split; [done|]. split; [done|]. split; [done|]. split.
  - destruct allowed_paths as [|p ps] eqn:Eap; [by left|]. right.
    cbn [andb] in Epaths. apply negb_false_iff, existsb_exists in Epaths as (p' & Hin & Hp').
    exists p'. split; [by apply list_elem_of_In|done].
  - by destruct (String.eqb (fragment parsed) "").
Qed.

(** What the loop returns from a state that satisfies the invariant. *)
Lemma crawl_loop_invariant (base_url : string) (parsed_base : ParseResult)
    (allowed_paths : list string) (max_pages : Z) (fuel : nat) (queue : list string)
    (seen : gset string) (documents out : list Document.t) :
  urlparse base_url = inr parsed_base ->
  crawl_invariant urlparse urljoin http_get BeautifulSoup base_url allowed_paths
                  max_pages queue seen documents ->
  loop fuel (netloc parsed_base) allowed_paths max_pages queue seen documents
  = Some (inr out) ->
  gathered urlparse urljoin http_get BeautifulSoup base_url allowed_paths max_pages out.
Proof.
  intros Hbase. revert queue seen documents.
  induction fuel as [|fuel IH]; intros queue seen documents (Hg & Hseen & Hqueue); [done|].
  destruct queue as [|url queue].
  { rewrite crawl_loop_done by (by left). by intros [= <-]. }
  destruct (Z.lt_ge_cases (Z.of_nat (length documents)) max_pages) as [Hlt|Hge]; cycle 1.
  { rewrite crawl_loop_done by (right; lia). by intros [= <-]. }
  rewrite crawl_loop_step by done.
  apply Forall_cons in Hqueue as [Hurl Hqueue].
  destruct (decide (url ∈ seen)) as [Hin|Hnin].
  { apply IH. by split; [|split]. }
  destruct (http_get url) as [response_text|] eqn:Eg; cycle 1.
  { apply IH. split; [done|]. split; [|done].
    intros d Hd. apply elem_of_union_r. by apply Hseen. }
  destruct (title_or_url (BeautifulSoup response_text) url) as [e|title] eqn:Et; [done|].
  cbv zeta.
  set (d := page url (_clean_text (BeautifulSoup response_text)) title).
  destruct Hg as (Hlen & Hnd & Hpages & Hsite).
  assert (Hg' : gathered urlparse urljoin http_get BeautifulSoup base_url allowed_paths
                         max_pages (documents ++ [d])).
  { repeat split.
    - rewrite length_app. simpl. lia.
    - rewrite map_app. apply NoDup_app. split; [done|]. split.
      + intros x Hx. simpl. intros ->%list_elem_of_singleton.
        apply list_elem_of_fmap in Hx as (d' & Hid & Hd'). apply Hnin.
        rewrite Hid. by apply Hseen.
      + apply NoDup_singleton.
    - apply Forall_app. split; [done|]. constructor; [|constructor].
      by exists response_text, title.
    - apply Forall_app. split.
      + eapply Forall_impl; [exact Hsite|]. intros d'. apply from_site_mono.
      + constructor; [|constructor]. by apply from_site_mono. }
  destruct (Z.leb_spec max_pages (Z.of_nat (length (documents ++ [d])))).
  { by intros [= <-]. }
  destruct (links (netloc parsed_base) allowed_paths ({[ url ]} ∪ seen) url
                  (hrefs (BeautifulSoup response_text)) queue) as [e|queue'] eqn:El; [done|].
  apply IH. split; [done|]. split.
  - intros d' [Hd'| ->%list_elem_of_singleton]%elem_of_app.
    + apply elem_of_union_r. by apply Hseen.
    + apply elem_of_union_l. by apply elem_of_singleton.
  - apply (follow_links_from_site base_url parsed_base allowed_paths ({[ url ]} ∪ seen)
             (documents ++ [d]) d response_text (hrefs (BeautifulSoup response_text))
             queue queue'); try done.
    + apply elem_of_app. right. by apply list_elem_of_singleton.
    + eapply Forall_impl; [exact Hqueue|]. intros u. apply from_site_mono.
Qed.

Lemma crawl_invariant_start (base_url : string) (allowed_paths : list string)
    (max_pages : Z) :
  crawl_invariant urlparse urljoin http_get BeautifulSoup base_url allowed_paths
                  max_pages [base_url] ∅ [].
Proof.
  split; [|split].
  - repeat split; [simpl; lia|constructor|constructor|constructor].
  - intros d Hd. by apply elem_of_nil in Hd.
  - constructor; [by left|constructor].
Qed.

Lemma crawl_website_gathered (fuel : nat) (base_url : string) (max_pages : Z)
    (allowed_paths : list string) (documents : list Document.t) :
  crawl_website urlparse urljoin http_get BeautifulSoup fuel base_url max_pages allowed_paths
  = Some (inr documents) ->
  gathered urlparse urljoin http_get BeautifulSoup base_url allowed_paths max_pages documents.
Proof.
  unfold crawl_website. destruct (urlparse base_url) as [e|parsed_base] eqn:Ebase; [done|].
  apply (crawl_loop_invariant base_url parsed_base); [done|].
  apply crawl_invariant_start.
Qed.

(** X25: the crawl always ends, whatever the site and [max_pages]: with
    enough turns it has a result, the same for every larger number of
    turns. *)
Theorem crawl_website_ends (base_url : string) (max_pages : Z)
    (allowed_paths : list string) :
  exists fuel r, forall fuel', (fuel <= fuel')%nat ->
    crawl_website urlparse urljoin http_get BeautifulSoup fuel' base_url max_pages
                  allowed_paths = Some r.
Proof.
  unfold crawl_website. destruct (urlparse base_url) as [e|parsed_base].
  - by exists 0%nat, (inl e).
  - apply (crawl_loop_total _ _ _ (Z.to_nat max_pages)). simpl. lia.
Qed.

(** X26: the documents of a crawl: at most [max_pages] of them (none for
    [max_pages <= 0]), pairwise distinct identifiers, and each one the
    record of the page fetched at its identifier: source [web], the
    cleaned text as content, the address and the title as metadata. *)
Theorem crawl_website_documents (fuel : nat) (base_url : string) (max_pages : Z)
    (allowed_paths : list string) (documents : list Document.t) :
  crawl_website urlparse urljoin http_get BeautifulSoup fuel base_url max_pages allowed_paths
  = Some (inr documents) ->
  (Z.of_nat (length documents) <= Z.max 0 max_pages)%Z /\
  NoDup (map Document.id documents) /\
  Forall (page_document http_get BeautifulSoup) documents.
Proof.
  intros Hcrawl.
  by destruct (crawl_website_gathered _ _ _ _ _ Hcrawl) as (Hlen & Hnd & Hpages & _).
Qed.

(** X27: the crawl stays on the site: every document is the page at
    [base_url] or at the target of a link of another gathered page, a link
    whose joined address is on the host of [base_url] and under one of
    [allowed_paths] when there are any. *)
Theorem crawl_website_stays_on_site (fuel : nat) (base_url : string) (max_pages : Z)
    (allowed_paths : list string) (documents : list Document.t) :
  crawl_website urlparse urljoin http_get BeautifulSoup fuel base_url max_pages allowed_paths
  = Some (inr documents) ->
  Forall (fun d => from_site urlparse urljoin http_get BeautifulSoup base_url allowed_paths
                             documents (Document.id d)) documents.
Proof.
  intros Hcrawl.
  by destruct (crawl_website_gathered _ _ _ _ _ Hcrawl) as (_ & _ & _ & Hsite).
Qed.

(** The loop over the links passes the links without an address and
    raises at the first one that [urljoin] or [urlparse] refuses. *)
Lemma follow_links_raises (allowed_netloc : string) (allowed_paths : list string)
    (seen : gset string) (url href : string) (before after : list (option string))
    (queue : list string) (e : error) :
  Forall (fun h => h = None \/ h = Some "") before ->
  href <> "" ->
  urljoin url href = inl e \/
  (exists absolute, urljoin url href = inr absolute /\ urlparse absolute = inl e) ->
  links allowed_netloc allowed_paths seen url (before ++ Some href :: after) queue = inl e.
Proof.
  intros Hbefore Hhref Hbad.
  induction Hbefore as [|h before [->| ->] _ IH]; cbn [app follow_links follow].
  - destruct (String.eqb_spec href ""); [done|].
    destruct Hbad as [->|(absolute & -> & ->)]; done.
  - exact IH.
  - exact IH.
Qed.

(** X28: one page can abort the crawl, and what was gathered is then not
    returned.  A [base_url] that [urlparse] refuses raises at once.
    Whatever the documents gathered so far, a fetched page whose title has
    no single string raises [AttributeError]; and, when [max_pages] is not
    reached with that page, so does ([ValueError]) a page whose first link
    with an address is one that [urljoin] or [urlparse] refuses. *)
Theorem crawl_website_raises (base_url : string) (max_pages : Z)
    (allowed_paths : list string) :
  (forall fuel e, urlparse base_url = inl e ->
     crawl_website urlparse urljoin http_get BeautifulSoup fuel base_url max_pages
                   allowed_paths = Some (inl e)) /\
  (forall fuel allowed_netloc url queue seen documents response_text,
     (Z.of_nat (length documents) < max_pages)%Z ->
     url ∉ seen ->
     http_get url = Some response_text ->
     title (BeautifulSoup response_text) = Some None ->
     exists msg,
       loop (S fuel) allowed_netloc allowed_paths max_pages (url :: queue) seen documents
       = Some (inl (AttributeError msg))) /\
  (forall fuel allowed_netloc url queue seen documents response_text page_title
          before href after e,
     (Z.of_nat (length documents) + 1 < max_pages)%Z ->
     url ∉ seen ->
     http_get url = Some response_text ->
     title_or_url (BeautifulSoup response_text) url = inr page_title ->
     hrefs (BeautifulSoup response_text) = before ++ Some href :: after ->
     Forall (fun h => h = None \/ h = Some "") before ->
     href <> "" ->
     urljoin url href = inl e \/
     (exists absolute, urljoin url href = inr absolute /\ urlparse absolute = inl e) ->
     loop (S fuel) allowed_netloc allowed_paths max_pages (url :: queue) seen documents
     = Some (inl e)).
Proof.
  split; [|split].
  - intros fuel e Hbase. unfold crawl_website. by rewrite Hbase.
  - intros fuel allowed_netloc url queue seen documents response_text Hlt Hnin Hget Htitle.
    rewrite crawl_loop_step by done. rewrite decide_False, Hget by done.
    unfold title_or_url. rewrite Htitle. by eexists.
  - intros fuel allowed_netloc url queue seen documents response_text page_title
           before href after e Hlt Hnin Hget Htitle Hhrefs Hbefore Hhref Hbad.
    rewrite crawl_loop_step by lia. rewrite decide_False, Hget, Htitle by done.
    cbv zeta. rewrite length_app. simpl.
    destruct (Z.leb_spec max_pages (Z.of_nat (length documents + 1))); [lia|].
    by rewrite Hhrefs, (follow_links_raises _ _ _ _ _ _ _ _ _ Hbefore Hhref Hbad).
Qed.

End crawler.

Section crawler_examples.
Import models ingestion_web spec_more.

Lemma crawl_website_documents_witness :
  NoDup (map Document.id [examples_more.home_document; examples_more.a_document]).
Proof.
  assert (Hcrawl : crawl_website examples_more.site_urlparse examples_more.site_urljoin
                     examples_more.site_http_get examples_more.site_parse
                     10 "http://h/" 5 []
                   = Some (inr [examples_more.home_document; examples_more.a_document]))
    by (vm_compute; reflexivity).
  exact (proj1 (proj2 (crawl_website_documents _ _ _ _ _ _ _ _ _ Hcrawl))).
Defined.

Lemma crawl_website_stays_on_site_witness :
  Forall (fun d => from_site examples_more.site_urlparse examples_more.site_urljoin
                             examples_more.site_http_get examples_more.site_parse
                             "http://h/" ["/"]
                             [examples_more.home_document; examples_more.a_document]
                             (Document.id d))
         [examples_more.home_document; examples_more.a_document].
Proof.
  assert (Hcrawl : crawl_website examples_more.site_urlparse examples_more.site_urljoin
                     examples_more.site_http_get examples_more.site_parse
                     10 "http://h/" 2 ["/"]
                   = Some (inr [examples_more.home_document; examples_more.a_document]))
    by (vm_compute; reflexivity).
  exact (crawl_website_stays_on_site _ _ _ _ _ _ _ _ _ Hcrawl).
Defined.

(** A page gathered first, then a page whose only link is malformed: the
    crawl raises [ValueError] and the first document is not returned. *)
Lemma crawl_website_raises_witness :
  crawl_loop examples_more.site_urlparse examples_more.site_urljoin
             examples_more.site_http_get examples_more.broken_link_parse
             1 "h" [] 5 ["http://h/a"] {[ "http://h/" ]} [examples_more.home_document]
  = Some (inl (ValueError "Invalid IPv6 URL")).
Proof.
  apply (proj2 (proj2 (crawl_website_raises
                         examples_more.site_urlparse examples_more.site_urljoin
                         examples_more.site_http_get examples_more.broken_link_parse
                         "http://h/" 5 []))
           0%nat "h" "http://h/a" [] {[ "http://h/" ]} [examples_more.home_document]
           "a" "http://h/a" [None] "http://[h/" [] (ValueError "Invalid IPv6 URL")).
  - simpl. lia.
  - intros H%elem_of_singleton. discriminate H.
  - reflexivity.
  - reflexivity.
  - reflexivity.
  - constructor; [by left|constructor].
  - discriminate.
  - left. reflexivity.
Defined.

End crawler_examples.
